(** * Resilient state and remote-data cache of the signage application

    A shallow embedding of [src/lib/safeStorage.ts],
    [src/services/storageService.ts], the system log service and the
    cache service ([logService], [cacheService]), followed by the properties
    the specification states about them.

    Modelling conventions
    - A JavaScript value is a tree ([value]); an object is the sequence of
      its own properties in enumeration order.
    - A number is a rational, the value of a finite double; [NaN] and
      the infinities never come out of [JSON.parse].  The arithmetic of the
      cache's freshness test is rounded as IEEE 754 binary64 arithmetic is
      ([Double]).
    - Code that may throw lives in [outcome]; code that also touches the
      browser lives in [M], a state monad over [World] whose result is an
      [outcome].  [try_catch] is the [try { } catch { }] statement.
    - The browser's [localStorage] is part of the [World], with two ways of
      failing: access denied (every call throws) and quota exceeded
      ([setItem] throws).
    - What the host engine alone decides ([JSON.parse], [JSON.stringify],
      number coercion, the text of engine errors) is the interface [Host];
      [ref_host] is one implementation of it, used to run the model. *)

From Stdlib Require Import String Ascii List ZArith QArith Lia Bool.
From stdpp Require Import base option gmap strings list countable pretty.

#[local] Set Warnings "-register-all".

Local Open Scope string_scope.
Local Open Scope list_scope.

(** ** JavaScript values *)

Inductive value : Type :=
| VUndefined
| VNull
| VBool (b : bool)
| VNum (n : Q)
| VStr (s : string)
| VArr (elems : list value)
| VObj (props : list (string * value)).

(** An induction principle that reaches inside arrays and objects. *)
Fixpoint value_ind' (P : value -> Prop)
    (Hundef : P VUndefined) (Hnull : P VNull)
    (Hbool : forall b, P (VBool b)) (Hnum : forall n, P (VNum n))
    (Hstr : forall s, P (VStr s))
    (Harr : forall l, Forall P l -> P (VArr l))
    (Hobj : forall ps, Forall (fun kv => P (snd kv)) ps -> P (VObj ps))
    (v : value) {struct v} : P v :=
  let rec := value_ind' P Hundef Hnull Hbool Hnum Hstr Harr Hobj in
  match v with
  | VUndefined => Hundef
  | VNull => Hnull
  | VBool b => Hbool b
  | VNum n => Hnum n
  | VStr s => Hstr s
  | VArr l =>
      Harr l ((fix go (l : list value) : Forall P l :=
                 match l with
                 | [] => @List.Forall_nil _ P
                 | x :: l' => @List.Forall_cons _ P x l' (rec x) (go l')
                 end) l)
  | VObj ps =>
      Hobj ps ((fix go (ps : list (string * value))
                  : Forall (fun kv => P (snd kv)) ps :=
                  match ps with
                  | [] => @List.Forall_nil _ _
                  | kv :: ps' => @List.Forall_cons _ _ kv ps' (rec (snd kv)) (go ps')
                  end) ps)
  end.

(** An error object: [name], [message] and the engine's [stack] text (absent
    on engines that do not provide one). *)
Record JsError : Type := mkJsError {
  err_name : string;
  err_message : string;
  err_stack : option string
}.

(** The result of evaluating code that may throw. *)
Inductive outcome (A : Type) : Type :=
| Returned (a : A)
| Thrown (e : JsError).
Arguments Returned {A} a.
Arguments Thrown {A} e.

Global Instance outcome_ret : MRet outcome := fun A a => Returned a.
Global Instance outcome_bind : MBind outcome := fun A B f m =>
  match m with
  | Returned a => f a
  | Thrown e => Thrown e
  end.
Global Instance outcome_fmap : FMap outcome := fun A B f m =>
  match m with
  | Returned a => Returned (f a)
  | Thrown e => Thrown e
  end.

(** [Array.prototype.map] over the elements, stopping at the first throw. *)
Fixpoint map_outcome {A B : Type} (f : A -> outcome B) (l : list A)
    : outcome (list B) :=
  match l with
  | [] => Returned []
  | x :: l' =>
      match f x with
      | Returned y =>
          match map_outcome f l' with
          | Returned ys => Returned (y :: ys)
          | Thrown e => Thrown e
          end
      | Thrown e => Thrown e
      end
  end.

(** ** Primitive operations on values *)

Definition is_empty_string (s : string) : bool :=
  match s with
  | EmptyString => true
  | String _ _ => false
  end.

(** ToBoolean: [undefined], [null], [false], [0] and [""] are falsy. *)
Definition truthy (v : value) : bool :=
  match v with
  | VUndefined | VNull => false
  | VBool b => b
  | VNum n => negb (Qnum n =? 0)%Z
  | VStr s => negb (is_empty_string s)
  | VArr _ | VObj _ => true
  end.

(** [a || b]. *)
Definition js_or (a b : value) : value := if truthy a then a else b.

(** [v === undefined]. *)
Definition is_undefined (v : value) : bool :=
  match v with
  | VUndefined => true
  | _ => false
  end.

Fixpoint assoc (k : string) (ps : list (string * value)) : option value :=
  match ps with
  | [] => None
  | (k', v) :: ps' => if String.eqb k k' then Some v else assoc k ps'
  end.

(** [o[k] = x] on own properties: an existing property keeps its place, a
    new one goes last. *)
Fixpoint assoc_set (k : string) (x : value) (ps : list (string * value))
    : list (string * value) :=
  match ps with
  | [] => [(k, x)]
  | (k', v) :: ps' =>
      if String.eqb k k' then (k', x) :: ps' else (k', v) :: assoc_set k x ps'
  end.

Definition assoc_delete (k : string) (ps : list (string * value))
    : list (string * value) :=
  List.filter (fun kv => negb (String.eqb k (fst kv))) ps.

(** [v.k] where [v] is known not to be [null] or [undefined].  The program
    reads only the property names [pages], [theme], [schoolName],
    [tickerItems], [enableLiveCam], [pageDuration], [liveCamUrls],
    [liveCamUrl], [socials], [emergency], [weatherConfig],
    [eventCategories], [customWidgets], [type], [data] and [timestamp];
    none of them is an own or inherited property of an array, a string, a
    number or a boolean, nor a member of [Object.prototype]. *)
Definition js_get (v : value) (k : string) : value :=
  match v with
  | VObj ps => default VUndefined (assoc k ps)
  | _ => VUndefined
  end.

(** [v.k = x] on an object. *)
Definition js_set (v : value) (k : string) (x : value) : value :=
  match v with
  | VObj ps => VObj (assoc_set k x ps)
  | _ => v
  end.

(** [delete v.k]. *)
Definition js_delete (v : value) (k : string) : value :=
  match v with
  | VObj ps => VObj (assoc_delete k ps)
  | _ => v
  end.

Fixpoint indexed {A : Type} (i : nat) (l : list A) : list (string * A) :=
  match l with
  | [] => []
  | x :: l' => (pretty i, x) :: indexed (S i) l'
  end.

Definition chars (s : string) : list value :=
  List.map (fun c => VStr (String c EmptyString)) (list_ascii_of_string s).

(** The own enumerable properties copied by an object spread [{...v}]:
    nothing for [null], [undefined], numbers and booleans, the indexed
    elements of an array, the indexed characters of a string. *)
Definition spread (v : value) : list (string * value) :=
  match v with
  | VObj ps => ps
  | VArr l => indexed 0 l
  | VStr s => indexed 0 (chars s)
  | _ => []
  end.

(** What [JSON.stringify] keeps of a value: a property whose value is
    [undefined] is dropped, an [undefined] array element becomes [null]. *)
Fixpoint to_json (v : value) : value :=
  match v with
  | VArr l =>
      VArr (List.map (fun x => match x with
                               | VUndefined => VNull
                               | _ => to_json x
                               end) l)
  | VObj ps =>
      VObj (List.flat_map (fun '(k, x) => match x with
                                          | VUndefined => []
                                          | _ => [(k, to_json x)]
                                          end) ps)
  | _ => v
  end.

(** A value that [JSON.stringify] and [JSON.parse] give back unchanged. *)
Definition json_data (v : value) : Prop := v <> VUndefined /\ to_json v = v.

(** Comparison of numbers, as a boolean. *)
Definition Qltb (x y : Q) : bool := negb (Qle_bool y x).

(** ** Double-precision arithmetic

    The result of [x - y] and of [x * y] on numbers is the double nearest
    to the exact result (of two that are equally near, the one with an even
    significand), or an infinity when the exact result is out of range. *)
Module Double.

Inductive t : Type :=
| NegInf
| Finite (q : Q)
| PosInf.

(** [2 ^ k <= n / d]. *)
Definition ge_pow2 (n d : positive) (k : Z) : bool :=
  if (0 <=? k)%Z then (Zpos d * 2 ^ k <=? Zpos n)%Z
  else (Zpos d <=? Zpos n * 2 ^ (- k))%Z.

(** The [e] with [2 ^ e <= n / d < 2 ^ (e + 1)]. *)
Definition exponent (n d : positive) : Z :=
  let e0 := (Z.log2 (Zpos n) - Z.log2 (Zpos d))%Z in
  if ge_pow2 n d e0 then e0 else (e0 - 1)%Z.

(** The integer nearest to [num / den]; of two that are equally near, the
    even one. *)
Definition nearest_even (num den : Z) : Z :=
  let q := (num / den)%Z in
  match (2 * (num mod den) ?= den)%Z with
  | Lt => q
  | Gt => (q + 1)%Z
  | Eq => if Z.even q then q else (q + 1)%Z
  end.

(** The double nearest to [n / d]: a multiple of [2 ^ q], where [q] is 52
    below the exponent of [n / d] and at least -1074 (subnormal numbers);
    [None] when its magnitude would reach [2 ^ 1024]. *)
Definition round_pos (n d : positive) : option Q :=
  let e := exponent n d in
  let q := Z.max (e - 52) (-1074) in
  if (0 <=? q)%Z then
    let m := nearest_even (Zpos n) (Zpos d * 2 ^ q) in
    if (2 ^ 1024 <=? m * 2 ^ q)%Z then None else Some (inject_Z (m * 2 ^ q))
  else
    let m := nearest_even (Zpos n * 2 ^ (- q)) (Zpos d) in
    Some (Qmake m (Z.to_pos (2 ^ (- q)))).

Definition round (x : Q) : t :=
  match Qnum x with
  | Z0 => Finite 0
  | Zpos n =>
      match round_pos n (Qden x) with
      | Some q => Finite q
      | None => PosInf
      end
  | Zneg n =>
      match round_pos n (Qden x) with
      | Some q => Finite (- q)
      | None => NegInf
      end
  end.

(** [x - y] and [x * y]. *)
Definition sub (x y : Q) : t := round (x - y).
Definition mul (x y : Q) : t := round (x * y).

(** [a < b]. *)
Definition ltb (a b : t) : bool :=
  match a, b with
  | NegInf, NegInf => false
  | NegInf, _ => true
  | Finite _, NegInf => false
  | Finite x, Finite y => Qltb x y
  | Finite _, PosInf => true
  | PosInf, _ => false
  end.

End Double.

(** ** The host engine *)

(** The built-ins whose results the engine alone decides.  [JSON_roundtrip]
    is the contract of [JSON.stringify] followed by [JSON.parse] on a value
    that is not [undefined]; [JSON_parse_data] says that what [JSON.parse]
    returns holds no [undefined]; [JSON_parse_empty] that the empty string
    is not JSON text; [JSON_stringify_nonempty] that the text of a value is
    never the empty string; [ToNumber] is the numeric coercion applied by
    [-] and [<] ([None] stands for [NaN]). *)
Class Host : Type := {
  JSON_parse : string -> outcome value;
  JSON_stringify : value -> string;
  ToNumber : value -> option Q;
  (** the message of the error the engine raises at the described place *)
  engine_message : string -> string;
  (** the stack text the engine attaches to a new error object *)
  engine_stack : option string;
  (** [new Date().toISOString()] as evaluated, three times, when the storage
      service module was loaded *)
  load_time_iso : nat -> string;
  JSON_roundtrip : forall v,
    v <> VUndefined -> JSON_parse (JSON_stringify v) = Returned (to_json v);
  JSON_parse_data : forall s v, JSON_parse s = Returned v -> json_data v;
  JSON_parse_empty : forall v, JSON_parse "" <> Returned v;
  JSON_stringify_nonempty : forall v, JSON_stringify v <> "";
  ToNumber_num : forall n, ToNumber (VNum n) = Some n
}.

(** ** The browser *)

(** [localStorage]: the stored items, whether access is denied
    ([SecurityError] on every call) and whether the quota is exhausted
    ([QuotaExceededError] on [setItem]). *)
Record LocalStorage : Type := mkLocalStorage {
  ls_items : gmap string string;
  ls_denied : bool;
  ls_full : bool
}.

(** An event handed to [window.dispatchEvent]: its type and its [detail]
    ([undefined] for a plain [Event], [null] for a [CustomEvent] created
    without one). *)
Record DomEvent : Type := mkDomEvent {
  ev_type : string;
  ev_detail : value
}.

(** Everything outside the call that the code reads or writes:
    [localStorage], the module-level [memoryStorage] object of
    [safeStorage.ts], the events dispatched on [window] (newest first) and
    the URLs requested with [fetch] (newest first). *)
Record World : Type := mkWorld {
  localStorage : LocalStorage;
  memoryStorage : gmap string string;
  dispatched : list DomEvent;
  requests : list string
}.

Definition with_localStorage (ls : LocalStorage) (w : World) : World :=
  mkWorld ls (memoryStorage w) (dispatched w) (requests w).
Definition with_memoryStorage (m : gmap string string) (w : World) : World :=
  mkWorld (localStorage w) m (dispatched w) (requests w).

(** Effectful code: it may change the world and then return or throw. *)
Definition M (A : Type) : Type := World -> outcome A * World.

Global Instance M_ret : MRet M := fun A a w => (Returned a, w).
Global Instance M_bind : MBind M := fun A B f m w =>
  match m w with
  | (Returned a, w') => f a w'
  | (Thrown e, w') => (Thrown e, w')
  end.

(** [try { body } catch (e) { handler }]. *)
Definition try_catch {A : Type} (body : M A) (handler : JsError -> M A) : M A :=
  fun w =>
    match body w with
    | (Returned a, w') => (Returned a, w')
    | (Thrown e, w') => handler e w'
    end.

(** Pure code that may throw, run inside effectful code. *)
Definition lift {A : Type} (o : outcome A) : M A := fun w => (o, w).

(** [console.warn], [console.error]: no effect on the world. *)
Definition console (text : string) : M () := mret ().

Definition SecurityError : JsError :=
  mkJsError "SecurityError" "The operation is insecure." None.
Definition QuotaExceededError : JsError :=
  mkJsError "QuotaExceededError" "The quota has been exceeded." None.

Module Storage.

Definition getItem (key : string) : M (option string) := fun w =>
  let ls := localStorage w in
  if ls_denied ls then (Thrown SecurityError, w)
  else (Returned (ls_items ls !! key), w).

Definition setItem (key value : string) : M () := fun w =>
  let ls := localStorage w in
  if ls_denied ls then (Thrown SecurityError, w)
  else if ls_full ls then (Thrown QuotaExceededError, w)
  else (Returned (),
        with_localStorage
          (mkLocalStorage (<[key := value]> (ls_items ls))
                          (ls_denied ls) (ls_full ls)) w).

Definition removeItem (key : string) : M () := fun w =>
  let ls := localStorage w in
  if ls_denied ls then (Thrown SecurityError, w)
  else (Returned (),
        with_localStorage
          (mkLocalStorage (delete key (ls_items ls))
                          (ls_denied ls) (ls_full ls)) w).

Definition clear : M () := fun w =>
  let ls := localStorage w in
  if ls_denied ls then (Thrown SecurityError, w)
  else (Returned (),
        with_localStorage (mkLocalStorage ∅ (ls_denied ls) (ls_full ls)) w).

End Storage.

(** [window.dispatchEvent(ev)]. *)
Definition dispatchEvent (ev : DomEvent) : M () := fun w =>
  (Returned (),
   mkWorld (localStorage w) (memoryStorage w) (ev :: dispatched w) (requests w)).

(** ** [src/lib/safeStorage.ts] *)

Module safeStorage.

(** [memoryStorage] is a plain object: [World] holds its own properties,
    and it inherits the members of [Object.prototype], whose names are
    these. *)
Definition Object_prototype_names : list string :=
  ["__proto__"; "constructor"; "hasOwnProperty"; "isPrototypeOf";
   "propertyIsEnumerable"; "toLocaleString"; "toString"; "valueOf";
   "__defineGetter__"; "__defineSetter__"; "__lookupGetter__";
   "__lookupSetter__"].

Definition inherited (key : string) : bool :=
  existsb (String.eqb key) Object_prototype_names.

(** [memoryStorage[key] || null]: an own property that holds the empty
    string gives [null], and so does a key that is neither an own nor an
    inherited property.  For an inherited name without an own property
    the code returns the inherited member, a function or an object and
    not the [string | null] that [getItem] declares; this case is outside
    the result type, and the properties stated of reads through
    [memoryStorage] at an arbitrary key exclude it by [inherited]. *)
Definition memory_read (key : string) : M (option string) := fun w =>
  (Returned (match memoryStorage w !! key with
             | Some v => if is_empty_string v then None else Some v
             | None => None
             end), w).

(** [memoryStorage[key] = value].  An assignment to [__proto__] runs the
    setter inherited from [Object.prototype], which ignores a string; on
    every other key it creates or updates an own property. *)
Definition memory_write (key value : string) : M () := fun w =>
  (Returned (),
   if String.eqb key "__proto__" then w
   else with_memoryStorage (<[key := value]> (memoryStorage w)) w).

(** [delete memoryStorage[key]]. *)
Definition memory_delete (key : string) : M () := fun w =>
  (Returned (), with_memoryStorage (delete key (memoryStorage w)) w).

(** [for (const key in memoryStorage) delete memoryStorage[key]]. *)
Definition memory_clear : M () := fun w =>
  (Returned (), with_memoryStorage ∅ w).

Definition getItem (key : string) : M (option string) :=
  try_catch (Storage.getItem key)
    (fun e =>
       _ ← console "Storage Access Blocked: Falling back to memory";
       memory_read key).

Definition setItem (key value : string) : M () :=
  try_catch (Storage.setItem key value)
    (fun e =>
       _ ← console "Storage Write Blocked: Falling back to memory";
       memory_write key value).

Definition removeItem (key : string) : M () :=
  try_catch (Storage.removeItem key) (fun e => memory_delete key).

Definition clear : M () :=
  try_catch Storage.clear (fun e => memory_clear).

End safeStorage.

(** ** Operations that throw engine errors *)

Section engine.
Context `{!Host}.

Definition TypeError (what : string) : JsError :=
  mkJsError "TypeError" (engine_message what) engine_stack.

(** [new Error(message)]. *)
Definition new_Error (message : string) : JsError :=
  mkJsError "Error" message engine_stack.

(** [v.k]: reading a property of [null] or [undefined] throws. *)
Definition prop (v : value) (k : string) : outcome value :=
  match v with
  | VUndefined | VNull => Thrown (TypeError "cannot read properties of null")
  | _ => Returned (js_get v k)
  end.

(** The elements produced by [...v] inside an array literal: only arrays
    and strings are iterable among the values [JSON.parse] returns. *)
Definition iterate (v : value) : outcome (list value) :=
  match v with
  | VArr l => Returned l
  | VStr s => Returned (chars s)
  | _ => Thrown (TypeError "value is not iterable")
  end.

(** [arr.map(f)]: only an array has a callable [map]. *)
Definition array_map (f : value -> outcome value) (arr : value)
    : outcome value :=
  match arr with
  | VArr l => VArr <$> map_outcome f l
  | _ => Thrown (TypeError "map is not a function")
  end.

(** [now - ts < bound], with [ts] coerced to a number and the difference
    rounded to a double; a comparison with [NaN] is false. *)
Definition elapsed_lt (now : Q) (ts : value) (bound : Double.t) : bool :=
  match ToNumber ts with
  | Some t => Double.ltb (Double.sub now t) bound
  | None => false
  end.

End engine.

(** ** The system log service *)

Module logService.
Section with_host.
Context `{!Host}.

Definition LOG_STORAGE_KEY : string := "HARDY_SYSTEM_LOGS".
Definition MAX_LOGS : nat := 50.

Definition getLogs : M value :=
  try_catch
    (stored ← safeStorage.getItem LOG_STORAGE_KEY;
     match stored with
     | Some s =>
         if truthy (VStr s) then lift (JSON_parse s) else mret (VArr [])
     | None => mret (VArr [])
     end)
    (fun e => mret (VArr [])).

(** [{ ...log, id: ..., timestamp: ... }]. *)
Definition stamped (log : value) (id : string) (timestamp : Q) : value :=
  VObj (assoc_set "timestamp" (VNum timestamp)
          (assoc_set "id" (VStr id) (spread log))).

(** [addLog(log)].  [random_id] is the text drawn by
    [Math.random().toString(36).substr(2, 9)] and [now] the reading of
    [Date.now()] in this call. *)
Definition addLog (log : value) (random_id : string) (now : Q) : M () :=
  try_catch
    (logs ← getLogs;
     let newLog := stamped log random_id now in
     rest ← lift (iterate logs);
     let updatedLogs := take MAX_LOGS (newLog :: rest) in
     _ ← safeStorage.setItem LOG_STORAGE_KEY
           (JSON_stringify (VArr updatedLogs));
     dispatchEvent (mkDomEvent "hardy-log-update" newLog))
    (fun e => console "Failed to write to system logs").

Definition clearLogs : M () :=
  _ ← safeStorage.removeItem LOG_STORAGE_KEY;
  dispatchEvent (mkDomEvent "hardy-log-update" VNull).

(** The world after a sequence of [addLog] calls, first call first; each
    call comes with its log record and its two draws. *)
Fixpoint append_all (calls : list (value * string * Q)) (w : World) : World :=
  match calls with
  | [] => w
  | (log, random_id, now) :: calls' =>
      append_all calls' (snd (addLog log random_id now w))
  end.

End with_host.
End logService.

(** ** [src/services/storageService.ts] *)

Module storageService.
Section with_host.
Context `{!Host}.

Definition STORAGE_KEY : string := "HARDY_SIGNAGE_DATA".

Definition nl : string := String (ascii_of_nat 10) EmptyString.
Definition num (z : Z) : value := VNum (inject_Z z).

Definition DEFAULT_theme : value :=
  VObj [("id", VStr "default");
        ("name", VStr "Midnight Blue");
        ("gradientStart", VStr "#000000");
        ("gradientEnd", VStr "#1e1b4b");
        ("accentColor", VStr "#3b82f6");
        ("textColor", VStr "#ffffff");
        ("logoUrl", VStr "")].

Definition DEFAULT_announcements : value :=
  VArr [VObj [("id", VStr "1");
              ("type", VStr "text");
              ("title", VStr "Science Fair Registration");
              ("content", VStr "Registration for the annual Science Fair closes this Friday. Please visit the main office to sign up your team!");
              ("active", VBool true);
              ("priority", VStr "high")];
        VObj [("id", VStr "2");
              ("type", VStr "image");
              ("title", VStr "Student Art Showcase");
              ("content", VStr "Join us in the main hall.");
              ("imageUrl", VStr "https://images.unsplash.com/photo-1544531586-fde5298cdd40?q=80&w=2070&auto=format&fit=crop");
              ("active", VBool true);
              ("priority", VStr "normal")]].

Definition DEFAULT_events : value :=
  VArr [VObj [("id", VStr "1"); ("title", VStr "Parent Teacher Conf");
              ("time", VStr "16:00"); ("location", VStr "Auditorium");
              ("date", VStr (load_time_iso 0)); ("category", VStr "Academic")];
        VObj [("id", VStr "2"); ("title", VStr "Basketball Finals");
              ("time", VStr "15:30"); ("location", VStr "Gym");
              ("date", VStr (load_time_iso 1)); ("category", VStr "Sports")];
        VObj [("id", VStr "3"); ("title", VStr "Jazz Band");
              ("time", VStr "12:00"); ("location", VStr "Music Room");
              ("date", VStr (load_time_iso 2)); ("category", VStr "Arts")]].

Definition DEFAULT_eventCategories : value :=
  VArr [VObj [("id", VStr "cat-1"); ("name", VStr "Academic"); ("icon", VStr "BookOpen")];
        VObj [("id", VStr "cat-2"); ("name", VStr "Sports"); ("icon", VStr "Trophy")];
        VObj [("id", VStr "cat-3"); ("name", VStr "Arts"); ("icon", VStr "Palette")];
        VObj [("id", VStr "cat-4"); ("name", VStr "General"); ("icon", VStr "Users")]].

Definition DEFAULT_tickerItems : value :=
  VArr [VStr "REMINDER: Early dismissal this Friday at 1:00 PM.";
        VStr "Report cards will be distributed next Monday.";
        VStr "Yearbook sales end on May 30th!"].

Definition DEFAULT_liveCamUrls : value :=
  VArr [VStr "https://webcams.nyctmc.org/api/cameras/4c47eda8-a4a1-4e40-baea-578e0a99e1d8/image";
        VStr "https://webcams.nyctmc.org/api/cameras/9ca4e591-4ac8-471c-8e76-4710b52e6f9b/image";
        VStr "https://webcams.nyctmc.org/api/cameras/a01a8c98-d314-4eb4-bd7c-4a4f80d71c4b/image"].

Definition DEFAULT_pages : value :=
  VArr [VObj [("id", VStr "default-page");
              ("title", VStr "Core Values");
              ("type", VStr "standard");
              ("content",
               VStr ("## Our Mission" ++ nl ++ nl
                     ++ "* **Excellence**: We strive for the highest quality in everything we do." ++ nl
                     ++ "* **Integrity**: We act with honesty and strong moral principles." ++ nl
                     ++ "* **Community**: We foster a supportive and inclusive environment." ++ nl ++ nl
                     ++ "Visit our website **www.novaacademy.edu** for more information."));
              ("imageUrl", VStr "https://images.unsplash.com/photo-1513364776144-60967b0f800f?q=80&w=2071&auto=format&fit=crop")]].

Definition DEFAULT_socials : value :=
  VObj [("phone", VStr "(555) 123-4567");
        ("website", VStr "novaacademy.edu");
        ("instagram", VStr "@NovaAcademy");
        ("twitter", VStr "@NovaTweets")].

Definition DEFAULT_emergency : value :=
  VObj [("active", VBool false);
        ("message", VStr "EMERGENCY ALERT: PLEASE PROCEED TO THE NEAREST EXIT CALMLY.");
        ("timestamp", num 0);
        ("includeSiren", VBool false);
        ("audioData", VUndefined)].

Definition DEFAULT_weatherConfig : value :=
  VObj [("city", VStr "Far Rockaway");
        ("lat", VNum (40609 # 1000));
        ("lon", VNum (-73763 # 1000))].

Definition DEFAULT_customWidgets : value := VArr [].

Definition DEFAULT_DATA : value :=
  VObj [("schoolName", VStr "Nova Academy");
        ("theme", DEFAULT_theme);
        ("announcements", DEFAULT_announcements);
        ("events", DEFAULT_events);
        ("eventCategories", DEFAULT_eventCategories);
        ("tickerItems", DEFAULT_tickerItems);
        ("liveCamUrls", DEFAULT_liveCamUrls);
        ("enableLiveCam", VBool true);
        ("pageDuration", num 60);
        ("pages", DEFAULT_pages);
        ("socials", DEFAULT_socials);
        ("emergency", DEFAULT_emergency);
        ("weatherConfig", DEFAULT_weatherConfig);
        ("customWidgets", DEFAULT_customWidgets);
        ("isSafeMode", VBool false)].

(** The callback of [parsed.pages.map]:
    [p => ({ ...p, type: p.type || 'standard' })]. *)
Definition normalize_page (p : value) : outcome value :=
  let copied := spread p in
  type ← prop p "type";
  Returned (VObj (assoc_set "type" (js_or type (VStr "standard")) copied)).

(** [if (!parsed.k) parsed.k = d]. *)
Definition fill_falsy (k : string) (d : value) (parsed : value) : value :=
  if negb (truthy (js_get parsed k)) then js_set parsed k d else parsed.

(** [if (parsed.k === undefined) parsed.k = d]. *)
Definition fill_undefined (k : string) (d : value) (parsed : value) : value :=
  if is_undefined (js_get parsed k) then js_set parsed k d else parsed.

(** The block that fills [liveCamUrls] from the legacy [liveCamUrl]. *)
Definition migrate_liveCamUrls (parsed : value) : value :=
  if negb (truthy (js_get parsed "liveCamUrls"))
  then
    if truthy (js_get parsed "liveCamUrl")
    then js_set parsed "liveCamUrls" (VArr [js_get parsed "liveCamUrl"])
    else js_set parsed "liveCamUrls" DEFAULT_liveCamUrls
  else parsed.

(** The block that fills or normalises [pages]. *)
Definition migrate_pages (parsed : value) : outcome value :=
  if negb (truthy (js_get parsed "pages"))
  then Returned (js_set parsed "pages" DEFAULT_pages)
  else js_set parsed "pages"
         <$> array_map normalize_page (js_get parsed "pages").

(** The statements of [getStoredData] between [JSON.parse] and
    [return parsed]: the safety check and the migrations, on the local
    object [parsed]. *)
Definition check_and_migrate (parsed : value) : outcome value :=
  pages ← prop parsed "pages";
  if negb (truthy pages)
     || negb (truthy (js_get parsed "theme"))
     || negb (truthy (js_get parsed "schoolName"))
  then Thrown (new_Error "Configuration structure is incomplete or corrupted.")
  else
    let parsed := fill_falsy "theme" DEFAULT_theme parsed in
    let parsed := fill_falsy "tickerItems" DEFAULT_tickerItems parsed in
    let parsed := fill_undefined "enableLiveCam" (VBool false) parsed in
    let parsed := fill_undefined "pageDuration" (num 60) parsed in
    let parsed := migrate_liveCamUrls parsed in
    let parsed := js_delete parsed "liveCamUrl" in
    let parsed := js_delete parsed "homeLayout" in
    let parsed := js_delete parsed "homeWidgets" in
    parsed ← migrate_pages parsed;
    let parsed := fill_undefined "socials" DEFAULT_socials parsed in
    let parsed := fill_undefined "emergency" DEFAULT_emergency parsed in
    let parsed := fill_undefined "weatherConfig" DEFAULT_weatherConfig parsed in
    let parsed := fill_falsy "eventCategories" DEFAULT_eventCategories parsed in
    let parsed := fill_falsy "customWidgets" DEFAULT_customWidgets parsed in
    Returned (js_set parsed "isSafeMode" (VBool false)).

(** The log entry written by the [catch] block of [getStoredData]. *)
Definition load_failure_log (error : JsError) : value :=
  VObj [("level", VStr "error");
        ("source", VStr "StorageService");
        ("message", VStr ("Failed to load data: " ++ err_message error
                          ++ ". System recovered with defaults."));
        ("stack", match err_stack error with
                  | Some s => VStr s
                  | None => VUndefined
                  end)].

(** [{ ...DEFAULT_DATA, isSafeMode: true }]. *)
Definition SAFE_MODE_DATA : value :=
  VObj (assoc_set "isSafeMode" (VBool true) (spread DEFAULT_DATA)).

(** [getStoredData()].  [random_id] and [now] are the draws of
    [Math.random] and [Date.now] made by [addLog] when the [catch] block
    runs. *)
Definition getStoredData (random_id : string) (now : Q) : M value :=
  try_catch
    (stored ← safeStorage.getItem STORAGE_KEY;
     match stored with
     | Some s =>
         if negb (truthy (VStr s)) then mret (VObj (spread DEFAULT_DATA))
         else
           parsed ← lift (JSON_parse s);
           lift (check_and_migrate parsed)
     | None => mret (VObj (spread DEFAULT_DATA))
     end)
    (fun error =>
       _ ← console "Critical Storage Failure - Booting in Safe Mode";
       _ ← logService.addLog (load_failure_log error) random_id now;
       mret SAFE_MODE_DATA).

(** [const { isSafeMode, ...toSave } = data]: destructuring [null] or
    [undefined] throws, anything else yields its own properties but
    [isSafeMode]. *)
Definition rest_without_isSafeMode (data : value) : outcome value :=
  match data with
  | VUndefined | VNull => Thrown (TypeError "cannot destructure null")
  | _ => Returned (VObj (assoc_delete "isSafeMode" (spread data)))
  end.

Definition saveStoredData (data : value) : M () :=
  try_catch
    (toSave ← lift (rest_without_isSafeMode data);
     _ ← safeStorage.setItem STORAGE_KEY (JSON_stringify toSave);
     dispatchEvent (mkDomEvent "hardy-storage-update" VUndefined))
    (fun error => console "Failed to save data").

End with_host.
End storageService.

(** ** The cache service *)

(** What the network does with one request: [fetch] rejects (no connection,
    or the abort fired by the 8 second timer), or it resolves with a
    response whose [ok] flag, status code and [json()] result are given. *)
Inductive NetworkResult : Type :=
| Rejected (e : JsError)
| Response (ok : bool) (status : nat) (json : outcome value).

Module cacheService.
Section with_host.
Context `{!Host}.

Definition CACHE_PREFIX : string := "hardy_cache_".

(** [await fetch(url, ...)] followed by the status check and
    [await res.json()]; the request is recorded in the world. *)
Definition fetch_json (url : string) (net : NetworkResult) : M value :=
  fun w =>
    let w' := mkWorld (localStorage w) (memoryStorage w) (dispatched w)
                      (url :: requests w) in
    match net with
    | Rejected e => (Thrown e, w')
    | Response ok status json =>
        if negb ok then (Thrown (new_Error ("HTTP " ++ pretty status)), w')
        else (json, w')
    end.

(** Step 1 of [safeFetch]: [Some data] when the function returns from
    inside the first [try] block. *)
Definition read_fresh (cacheKey : string) (now ttlSeconds : Q)
    : M (option value) :=
  try_catch
    (cachedStr ← safeStorage.getItem cacheKey;
     match cachedStr with
     | Some s =>
         if truthy (VStr s) then
           entry ← lift (JSON_parse s);
           timestamp ← lift (prop entry "timestamp");
           if elapsed_lt now timestamp (Double.mul ttlSeconds 1000)
           then mret (Some (js_get entry "data"))
           else mret None
         else mret None
     | None => mret None
     end)
    (fun e => _ ← console "Cache read error"; mret None).

(** Step 4 of [safeFetch]: [Some data] when the function returns from
    inside the inner [try] block of the [catch] block. *)
Definition read_stale (cacheKey : string) : M (option value) :=
  try_catch
    (cachedStr ← safeStorage.getItem cacheKey;
     match cachedStr with
     | Some s =>
         if truthy (VStr s) then
           entry ← lift (JSON_parse s);
           _ ← console "Returning stale data";
           data ← lift (prop entry "data");
           mret (Some data)
         else mret None
     | None => mret None
     end)
    (fun e => mret None).

(** [safeFetch(key, url, ttlSeconds, fallbackData)].  An omitted
    [ttlSeconds] is [None] (the default 300 applies), an omitted
    [fallbackData] is [VUndefined]; [now] is the reading of [Date.now()]
    and [net] what the network does if it is asked. *)
Definition safeFetch (key url : string) (ttlSeconds : option Q)
    (fallbackData : value) (now : Q) (net : NetworkResult) : M value :=
  let ttlSeconds := default 300%Q ttlSeconds in
  let cacheKey := String.append CACHE_PREFIX key in
  hit ← read_fresh cacheKey now ttlSeconds;
  match hit with
  | Some data => mret data
  | None =>
      try_catch
        (data ← fetch_json url net;
         _ ← try_catch
               (safeStorage.setItem cacheKey
                  (JSON_stringify
                     (VObj [("data", data); ("timestamp", VNum now)])))
               (fun e => console "Cache write error");
         mret data)
        (fun error =>
           _ ← console "Fetch failed";
           stale ← read_stale cacheKey;
           match stale with
           | Some data => mret data
           | None => mret (js_or fallbackData VNull)
           end)
  end.

End with_host.
End cacheService.

(** ** [src/types.ts]: the typed configuration

    Each interface is a record, for the values of the interface that are
    JSON data: a [number] is a finite one, and an optional property is
    either absent or holds a value, never [undefined].  [to_value] is the
    object such a value is at run time, with its properties in the order
    of the
    interface and an absent optional property left out. *)

Definition opt_field {A : Type} (k : string) (f : A -> value) (o : option A)
    : list (string * value) :=
  match o with
  | Some a => [(k, f a)]
  | None => []
  end.

Module Theme.
Record t : Type := mk {
  id : string; name : string; gradientStart : string; gradientEnd : string;
  accentColor : string; textColor : string; logoUrl : option string
}.
Definition to_value (x : t) : value :=
  VObj ([("id", VStr (id x)); ("name", VStr (name x));
         ("gradientStart", VStr (gradientStart x));
         ("gradientEnd", VStr (gradientEnd x));
         ("accentColor", VStr (accentColor x));
         ("textColor", VStr (textColor x))]
        ++ opt_field "logoUrl" VStr (logoUrl x)).
End Theme.

Module Announcement.
Inductive kind : Type := text | image.
Inductive level : Type := low | normal | high.
Record t : Type := mk {
  id : string; type : kind; title : string; content : string;
  imageUrl : option string; active : bool; priority : level
}.
Definition kind_to_value (k : kind) : value :=
  VStr match k with text => "text" | image => "image" end.
Definition level_to_value (l : level) : value :=
  VStr match l with low => "low" | normal => "normal" | high => "high" end.
Definition to_value (x : t) : value :=
  VObj ([("id", VStr (id x)); ("type", kind_to_value (type x));
         ("title", VStr (title x)); ("content", VStr (content x))]
        ++ opt_field "imageUrl" VStr (imageUrl x)
        ++ [("active", VBool (active x));
            ("priority", level_to_value (priority x))]).
End Announcement.

Module CategoryDefinition.
Record t : Type := mk { id : string; name : string; icon : string }.
Definition to_value (x : t) : value :=
  VObj [("id", VStr (id x)); ("name", VStr (name x)); ("icon", VStr (icon x))].
End CategoryDefinition.

Module Event.
Record t : Type := mk {
  id : string; title : string; time : string; location : string;
  date : string; category : string
}.
Definition to_value (x : t) : value :=
  VObj [("id", VStr (id x)); ("title", VStr (title x));
        ("time", VStr (time x)); ("location", VStr (location x));
        ("date", VStr (date x)); ("category", VStr (category x))].
End Event.

Module WidgetConfig.
Inductive WidgetType : Type :=
| clock | weather | announcements | events | nasa | quote | news | text
| image | custom_api.
(** [settings] has the type [any]: it holds an arbitrary value. *)
Record t : Type := mk {
  id : string; type : WidgetType; title : option string;
  refreshSeconds : Q; settings : option value
}.
Definition type_to_value (k : WidgetType) : value :=
  VStr match k with
       | clock => "clock" | weather => "weather"
       | announcements => "announcements" | events => "events"
       | nasa => "nasa" | quote => "quote" | news => "news" | text => "text"
       | image => "image" | custom_api => "custom_api"
       end.
Definition to_value (x : t) : value :=
  VObj ([("id", VStr (id x)); ("type", type_to_value (type x))]
        ++ opt_field "title" VStr (title x)
        ++ [("refreshSeconds", VNum (refreshSeconds x))]
        ++ opt_field "settings" (fun v => v) (settings x)).
End WidgetConfig.

Module GridItemConfig.
Record t : Type := mk { i : string; x : Q; y : Q; w : Q; h : Q }.
Definition to_value (g : t) : value :=
  VObj [("i", VStr (i g)); ("x", VNum (x g)); ("y", VNum (y g));
        ("w", VNum (w g)); ("h", VNum (h g))].
End GridItemConfig.

Module CustomWidgetDefinition.
Record t : Type := mk {
  id : string; name : string; endpoint : string; jsonPath : string;
  refreshSeconds : Q; prefix : option string; suffix : option string
}.
Definition to_value (x : t) : value :=
  VObj ([("id", VStr (id x)); ("name", VStr (name x));
         ("endpoint", VStr (endpoint x)); ("jsonPath", VStr (jsonPath x));
         ("refreshSeconds", VNum (refreshSeconds x))]
        ++ opt_field "prefix" VStr (prefix x)
        ++ opt_field "suffix" VStr (suffix x)).
End CustomWidgetDefinition.

Module Page.
Inductive kind : Type := standard | grid.
(** [widgets] is a [Record<string, WidgetConfig>]: the widgets by key. *)
Record t : Type := mk {
  id : string; title : string; type : kind; content : option string;
  imageUrl : option string; layout : option (list GridItemConfig.t);
  widgets : option (list (string * WidgetConfig.t));
  duration : option Q; enabled : option bool
}.
Definition kind_to_value (k : kind) : value :=
  VStr match k with standard => "standard" | grid => "grid" end.
Definition to_value (x : t) : value :=
  VObj ([("id", VStr (id x)); ("title", VStr (title x));
         ("type", kind_to_value (type x))]
        ++ opt_field "content" VStr (content x)
        ++ opt_field "imageUrl" VStr (imageUrl x)
        ++ opt_field "layout"
             (fun l => VArr (List.map GridItemConfig.to_value l)) (layout x)
        ++ opt_field "widgets"
             (fun ws => VObj (List.map (fun kw => (fst kw, WidgetConfig.to_value (snd kw))) ws))
             (widgets x)
        ++ opt_field "duration" VNum (duration x)
        ++ opt_field "enabled" VBool (enabled x)).
End Page.

Module WeatherConfig.
Record t : Type := mk { city : string; lat : Q; lon : Q }.
Definition to_value (x : t) : value :=
  VObj [("city", VStr (city x)); ("lat", VNum (lat x)); ("lon", VNum (lon x))].
End WeatherConfig.

Module Socials.
Record t : Type := mk {
  phone : string; website : string; instagram : string; twitter : string
}.
Definition to_value (x : t) : value :=
  VObj [("phone", VStr (phone x)); ("website", VStr (website x));
        ("instagram", VStr (instagram x)); ("twitter", VStr (twitter x))].
End Socials.

Module EmergencyAlert.
Record t : Type := mk {
  active : bool; message : string; timestamp : Q; includeSiren : bool;
  audioData : option string
}.
Definition to_value (x : t) : value :=
  VObj ([("active", VBool (active x)); ("message", VStr (message x));
         ("timestamp", VNum (timestamp x));
         ("includeSiren", VBool (includeSiren x))]
        ++ opt_field "audioData" VStr (audioData x)).
End EmergencyAlert.

Module AppData.
Record t : Type := mk {
  schoolName : string;
  theme : Theme.t;
  announcements : list Announcement.t;
  events : list Event.t;
  eventCategories : list CategoryDefinition.t;
  tickerItems : list string;
  liveCamUrls : list string;
  enableLiveCam : bool;
  pageDuration : Q;
  pages : list Page.t;
  socials : Socials.t;
  emergency : EmergencyAlert.t;
  weatherConfig : WeatherConfig.t;
  customWidgets : list CustomWidgetDefinition.t;
  isSafeMode : option bool
}.

(** The durable properties, that is all but [isSafeMode]. *)
Definition durable (c : t) : list (string * value) :=
  [("schoolName", VStr (schoolName c));
   ("theme", Theme.to_value (theme c));
   ("announcements", VArr (List.map Announcement.to_value (announcements c)));
   ("events", VArr (List.map Event.to_value (events c)));
   ("eventCategories",
    VArr (List.map CategoryDefinition.to_value (eventCategories c)));
   ("tickerItems", VArr (List.map VStr (tickerItems c)));
   ("liveCamUrls", VArr (List.map VStr (liveCamUrls c)));
   ("enableLiveCam", VBool (enableLiveCam c));
   ("pageDuration", VNum (pageDuration c));
   ("pages", VArr (List.map Page.to_value (pages c)));
   ("socials", Socials.to_value (socials c));
   ("emergency", EmergencyAlert.to_value (emergency c));
   ("weatherConfig", WeatherConfig.to_value (weatherConfig c));
   ("customWidgets",
    VArr (List.map CustomWidgetDefinition.to_value (customWidgets c)))].

Definition to_value (c : t) : value :=
  VObj (durable c ++ opt_field "isSafeMode" VBool (isSafeMode c)).

(** [c] with its [isSafeMode] property set to [b]. *)
Definition with_isSafeMode (b : bool) (c : t) : t :=
  mk (schoolName c) (theme c) (announcements c) (events c)
     (eventCategories c) (tickerItems c) (liveCamUrls c) (enableLiveCam c)
     (pageDuration c) (pages c) (socials c) (emergency c) (weatherConfig c)
     (customWidgets c) (Some b).
End AppData.

(** The free-form [settings] of every widget of every page hold JSON data. *)
Definition settings_are_json (c : AppData.t) : Prop :=
  Forall (fun p =>
    forall ws, Page.widgets p = Some ws ->
      Forall (fun kw =>
        forall s, WidgetConfig.settings (snd kw) = Some s -> json_data s) ws)
    (AppData.pages c).

(** A write to [safeStorage] is seen by the next read of the same key:
    either [localStorage] takes the write, or it refuses reads as well.  It
    fails when only writes are refused (quota exhausted): the write lands in
    [memoryStorage] and the read is answered by [localStorage]. *)
Definition reads_own_writes (w : World) : Prop :=
  ls_denied (localStorage w) = true \/ ls_full (localStorage w) = false.

(** ** Environment changes and sample worlds *)

(** The host starts refusing every access to [localStorage] (the user
    blocks site data in the middle of a session). *)
Definition revoke_access (w : World) : World :=
  with_localStorage
    (mkLocalStorage (ls_items (localStorage w)) true (ls_full (localStorage w)))
    w.

(** A browser with a working, empty [localStorage]. *)
Definition fresh_world : World :=
  mkWorld (mkLocalStorage ∅ false false) ∅ [] [].

(** A browser that refuses access to a [localStorage] holding one item. *)
Definition blocked_world : World :=
  mkWorld (mkLocalStorage {["greeting" := "hello"]} true false) ∅ [] [].

(** * Properties *)

(** ** Values *)

Section value_facts.
Implicit Types (v x : value) (k : string) (ps : list (string * value)).

Lemma assoc_set_eq k x ps : assoc k (assoc_set k x ps) = Some x.
Proof.
  induction ps as [|[k' v] ps IH]; simpl.
  - by rewrite String.eqb_refl.
  - destruct (String.eqb k k') eqn:E; simpl; rewrite E; done.
Qed.

Lemma assoc_set_ne k k' x ps :
  String.eqb k' k = false -> assoc k' (assoc_set k x ps) = assoc k' ps.
Proof.
  intros Hne. induction ps as [|[k0 v] ps IH]; simpl.
  - by rewrite Hne.
  - destruct (String.eqb k k0) eqn:E; simpl.
    + apply String.eqb_eq in E as <-. by rewrite Hne.
    + by rewrite IH.
Qed.

Lemma assoc_delete_ne k k' ps :
  String.eqb k' k = false -> assoc k' (assoc_delete k ps) = assoc k' ps.
Proof.
  intros Hne. induction ps as [|[k0 v] ps IH]; simpl; [done|].
  destruct (String.eqb k k0) eqn:E; simpl.
  - apply String.eqb_eq in E as <-. by rewrite Hne.
  - by rewrite IH.
Qed.

Definition is_object v : bool :=
  match v with
  | VObj _ => true
  | _ => false
  end.

Lemma js_get_set_eq v k x :
  is_object v = true -> js_get (js_set v k x) k = x.
Proof. destruct v; try done. intros _. simpl. by rewrite assoc_set_eq. Qed.

Lemma js_get_set_ne v k k' x :
  String.eqb k' k = false -> js_get (js_set v k x) k' = js_get v k'.
Proof. intros Hne. destruct v; try done. simpl. by rewrite assoc_set_ne. Qed.

Lemma js_get_delete_ne v k k' :
  String.eqb k' k = false -> js_get (js_delete v k) k' = js_get v k'.
Proof. intros Hne. destruct v; try done. simpl. by rewrite assoc_delete_ne. Qed.

Lemma is_object_set v k x : is_object (js_set v k x) = is_object v.
Proof. by destruct v. Qed.

Lemma is_object_delete v k : is_object (js_delete v k) = is_object v.
Proof. by destruct v. Qed.

(** A value with a property that is not [undefined] is an object. *)
Lemma js_get_object v k : js_get v k <> VUndefined -> is_object v = true.
Proof. by destruct v. Qed.

Lemma to_json_defined v : v <> VUndefined -> to_json v <> VUndefined.
Proof. by destruct v. Qed.

Lemma to_json_idem v : to_json (to_json v) = to_json v.
Proof.
  induction v as [| | b | n | s | l IH | ps IH] using value_ind'; simpl; try done.
  - f_equal. rewrite List.map_map. apply List.map_ext_Forall.
    induction IH as [|x l Hx _ IHl]; constructor; [|done].
    destruct x; simpl in *; try done.
  - f_equal. induction IH as [|[k x] ps Hx _ IHps]; simpl; [done|].
    simpl in Hx. rewrite List.flat_map_app, IHps. f_equal.
    destruct x; simpl in *; try done; by rewrite ?Hx.
Qed.

Lemma json_data_to_json v : v <> VUndefined -> json_data (to_json v).
Proof.
  intros Hv. split; [by apply to_json_defined|apply to_json_idem].
Qed.

(** Serialising the elements of an array of JSON data changes none. *)
Lemma to_json_elements (l : list value) :
  Forall json_data l ->
  List.map (fun x => match x with
                     | VUndefined => VNull
                     | _ => to_json x
                     end) l = l.
Proof.
  intros Hl. induction Hl as [|x l [Hx Hj] _ IH]; simpl; [done|].
  rewrite IH. f_equal. destruct x; try done.
Qed.

Lemma json_data_array (l : list value) :
  Forall json_data l -> json_data (VArr l).
Proof.
  intros Hl. split; [done|]. simpl. f_equal. by apply to_json_elements.
Qed.

Lemma json_data_object ps :
  Forall (fun kv => json_data (snd kv)) ps -> json_data (VObj ps).
Proof.
  intros Hl. split; [done|]. simpl. f_equal.
  induction Hl as [|[k x] ps [Hx Hj] _ IH]; simpl; [done|].
  rewrite IH. simpl in *. destruct x; try done; by rewrite ?Hj.
Qed.

(** The elements of an array of JSON data are JSON data. *)
Lemma json_data_elements (l : list value) :
  json_data (VArr l) -> Forall json_data l.
Proof.
  intros [_ Hj]. simpl in Hj. injection Hj as Hj.
  induction l as [|x l IH]; [done|].
  simpl in Hj. injection Hj as Hx Hl. constructor; [|by apply IH].
  destruct x; try done; split; done.
Qed.

End value_facts.

(** ** A reference host

    One implementation of [Host], so that the model can be run on concrete
    inputs.  Its serialisation is not JSON text: a value is numbered through
    stdpp's [gen_tree] and the number is written in binary after a marker
    character.  It satisfies the contract of [Host], which is all the
    services rely on. *)

Module RefHost.

Definition leaf : Type := bool + (Z * positive) + string.

Fixpoint to_tree (v : value) : gen_tree leaf :=
  match v with
  | VUndefined => GenNode 0 []
  | VNull => GenNode 1 []
  | VBool b => GenLeaf (inl (inl b))
  | VNum n => GenLeaf (inl (inr (Qnum n, Qden n)))
  | VStr s => GenLeaf (inr s)
  | VArr l => GenNode 2 (List.map to_tree l)
  | VObj ps =>
      GenNode 3 (List.map (fun '(k, x) => GenNode 4 [GenLeaf (inr k); to_tree x]) ps)
  end.

Fixpoint of_tree (t : gen_tree leaf) : option value :=
  match t with
  | GenLeaf (inl (inl b)) => Some (VBool b)
  | GenLeaf (inl (inr (a, b))) => Some (VNum (Qmake a b))
  | GenLeaf (inr s) => Some (VStr s)
  | GenNode 0 [] => Some VUndefined
  | GenNode 1 [] => Some VNull
  | GenNode 2 ts => VArr <$> mapM of_tree ts
  | GenNode 3 ts =>
      VObj <$> mapM (fun t => match t with
                              | GenNode 4 [GenLeaf (inr k); t'] =>
                                  x ← of_tree t'; Some (k, x)
                              | _ => None
                              end) ts
  | _ => None
  end.

Lemma of_to_tree (v : value) : of_tree (to_tree v) = Some v.
Proof.
  induction v as [| | b | n | s | l IH | ps IH] using value_ind'; simpl; try done.
  - by destruct n.
  - assert (mapM of_tree (List.map to_tree l) = Some l) as ->; [|done].
    induction IH as [|x l Hx _ IHl]; simpl; [done|].
    rewrite Hx; simpl. by rewrite IHl.
  - match goal with |- VObj <$> ?m = _ => assert (m = Some ps) as ->; [|done] end.
    induction IH as [|[k x] ps Hx _ IHps]; simpl; [done|].
    simpl in Hx. rewrite Hx; simpl. by rewrite IHps.
Qed.

Global Instance value_eq_dec : EqDecision value.
Proof.
  intros x y.
  destruct (decide (to_tree x = to_tree y)) as [Heq|Hne].
  - left. apply (f_equal of_tree) in Heq.
    rewrite !of_to_tree in Heq. congruence.
  - right. congruence.
Defined.

Global Instance value_countable : Countable value :=
  inj_countable to_tree of_tree of_to_tree.

Fixpoint bits (p : positive) : string :=
  match p with
  | xH => EmptyString
  | xO p' => String "0"%char (bits p')
  | xI p' => String "1"%char (bits p')
  end.

Fixpoint of_bits (s : string) : option positive :=
  match s with
  | EmptyString => Some xH
  | String c s' =>
      if Ascii.eqb c "0"%char then xO <$> of_bits s'
      else if Ascii.eqb c "1"%char then xI <$> of_bits s'
      else None
  end.

Lemma of_bits_bits (p : positive) : of_bits (bits p) = Some p.
Proof. induction p as [p IH|p IH|]; simpl; [by rewrite IH..|done]. Qed.

Definition SyntaxError : JsError :=
  mkJsError "SyntaxError" "Unexpected token" None.

Definition stringify (v : value) : string :=
  String "J"%char (bits (encode (to_json v))).

Definition parse (s : string) : outcome value :=
  match s with
  | String c s' =>
      if Ascii.eqb c "J"%char then
        match of_bits s' ≫= decode with
        | Some VUndefined | None => Thrown SyntaxError
        | Some v => Returned (to_json v)
        end
      else Thrown SyntaxError
  | EmptyString => Thrown SyntaxError
  end.

(** Numbers, booleans and [null] are coerced as the language prescribes;
    every other value is taken to [NaN]. *)
Definition to_number (v : value) : option Q :=
  match v with
  | VNum n => Some n
  | VNull => Some 0%Q
  | VBool b => Some (if b then 1%Q else 0%Q)
  | _ => None
  end.

Lemma parse_stringify (v : value) :
  v <> VUndefined -> parse (stringify v) = Returned (to_json v).
Proof.
  intros Hv. unfold parse, stringify. simpl.
  rewrite of_bits_bits. simpl. rewrite decode_encode.
  pose proof (to_json_defined v Hv) as Hd.
  rewrite to_json_idem. by destruct (to_json v).
Qed.

Lemma parse_data (s : string) (v : value) :
  parse s = Returned v -> json_data v.
Proof.
  unfold parse. destruct s as [|c s']; [done|].
  destruct (Ascii.eqb c "J"%char); [|done].
  destruct (of_bits s' ≫= decode) as [x|]; [|done].
  destruct x as [| | b | n | t | l | ps]; try done; intros [= <-].
  - by apply (json_data_to_json VNull).
  - by apply (json_data_to_json (VBool b)).
  - by apply (json_data_to_json (VNum n)).
  - by apply (json_data_to_json (VStr t)).
  - by apply (json_data_to_json (VArr l)).
  - by apply (json_data_to_json (VObj ps)).
Qed.

Lemma stringify_nonempty (v : value) : stringify v <> "".
Proof. done. Qed.

End RefHost.

Definition ref_host : Host := {|
  JSON_parse := RefHost.parse;
  JSON_stringify := RefHost.stringify;
  ToNumber := RefHost.to_number;
  engine_message := fun what => what;
  engine_stack := None;
  load_time_iso := fun _ => "2024-09-02T08:00:00.000Z";
  JSON_roundtrip := RefHost.parse_stringify;
  JSON_parse_data := RefHost.parse_data;
  JSON_parse_empty := fun v => ltac:(discriminate);
  JSON_stringify_nonempty := RefHost.stringify_nonempty;
  ToNumber_num := fun n => eq_refl
|}.

(** ** The durable key-value store *)

Section safeStorage_facts.
Implicit Types (w : World) (k v : string).

Lemma getItem_granted w k :
  ls_denied (localStorage w) = false ->
  safeStorage.getItem k w = (Returned (ls_items (localStorage w) !! k), w).
Proof.
  intros Hd. unfold safeStorage.getItem, try_catch, Storage.getItem.
  by rewrite Hd.
Qed.

Lemma getItem_denied w k :
  ls_denied (localStorage w) = true ->
  safeStorage.getItem k w = safeStorage.memory_read k w.
Proof.
  intros Hd. unfold safeStorage.getItem, try_catch, Storage.getItem.
  by rewrite Hd.
Qed.

Lemma getItem_returns w k :
  exists r, safeStorage.getItem k w = (Returned r, w).
Proof.
  destruct (ls_denied (localStorage w)) eqn:Hd.
  - rewrite getItem_denied by done. eexists. reflexivity.
  - rewrite getItem_granted by done. eexists. reflexivity.
Qed.

(** A read depends on the two stores only. *)
Lemma getItem_stores w w' k :
  localStorage w = localStorage w' ->
  memoryStorage w = memoryStorage w' ->
  fst (safeStorage.getItem k w) = fst (safeStorage.getItem k w').
Proof.
  intros Hl Hm. unfold safeStorage.getItem, try_catch, Storage.getItem.
  rewrite Hl. destruct (ls_denied (localStorage w')); [|done].
  simpl. unfold safeStorage.memory_read. by rewrite Hm.
Qed.

Lemma not_proto_eqb k : k <> "__proto__" -> String.eqb k "__proto__" = false.
Proof. intros Hk. by apply String.eqb_neq. Qed.

Lemma setItem_denied w k v :
  ls_denied (localStorage w) = true -> k <> "__proto__" ->
  safeStorage.setItem k v w
  = (Returned (), with_memoryStorage (<[k := v]> (memoryStorage w)) w).
Proof.
  intros Hd Hk.
  unfold safeStorage.setItem, try_catch, Storage.setItem,
    safeStorage.memory_write.
  rewrite Hd. simpl. by rewrite not_proto_eqb.
Qed.

Lemma setItem_full w k v :
  ls_denied (localStorage w) = false -> ls_full (localStorage w) = true ->
  k <> "__proto__" ->
  safeStorage.setItem k v w
  = (Returned (), with_memoryStorage (<[k := v]> (memoryStorage w)) w).
Proof.
  intros Hd Hf Hk.
  unfold safeStorage.setItem, try_catch, Storage.setItem,
    safeStorage.memory_write.
  rewrite Hd, Hf. simpl. by rewrite not_proto_eqb.
Qed.

(** When [localStorage] refuses the write, a write to [__proto__] changes
    nothing. *)
Lemma setItem_proto w v :
  ls_denied (localStorage w) = true \/ ls_full (localStorage w) = true ->
  safeStorage.setItem "__proto__" v w = (Returned (), w).
Proof.
  intros Hrefused.
  unfold safeStorage.setItem, try_catch, Storage.setItem,
    safeStorage.memory_write.
  destruct (ls_denied (localStorage w)); [done|].
  destruct Hrefused as [?|Hf]; [done|]. by rewrite Hf.
Qed.

(** The three ways a write can go. *)
Lemma setItem_cases w k v :
  safeStorage.setItem k v w
  = (Returned (),
     if ls_denied (localStorage w) || ls_full (localStorage w) then
       if String.eqb k "__proto__" then w
       else with_memoryStorage (<[k := v]> (memoryStorage w)) w
     else
       with_localStorage
         (mkLocalStorage (<[k := v]> (ls_items (localStorage w))) false false)
         w).
Proof.
  unfold safeStorage.setItem, try_catch, Storage.setItem,
    safeStorage.memory_write.
  destruct (ls_denied (localStorage w)); [done|].
  by destruct (ls_full (localStorage w)).
Qed.

Lemma setItem_granted w k v :
  ls_denied (localStorage w) = false -> ls_full (localStorage w) = false ->
  safeStorage.setItem k v w
  = (Returned (),
     with_localStorage
       (mkLocalStorage (<[k := v]> (ls_items (localStorage w))) false false) w).
Proof.
  intros Hd Hf. unfold safeStorage.setItem, try_catch, Storage.setItem.
  by rewrite Hd, Hf.
Qed.

Lemma setItem_returns w k v :
  exists w', safeStorage.setItem k v w = (Returned (), w').
Proof. rewrite setItem_cases. by eexists. Qed.

(** A write changes neither the access flags nor the traces. *)
Lemma setItem_frame w k v :
  let w' := snd (safeStorage.setItem k v w) in
  ls_denied (localStorage w') = ls_denied (localStorage w)
  /\ ls_full (localStorage w') = ls_full (localStorage w)
  /\ dispatched w' = dispatched w /\ requests w' = requests w.
Proof.
  rewrite setItem_cases. cbn [snd].
  destruct (ls_denied (localStorage w)) eqn:Hd;
    destruct (ls_full (localStorage w)) eqn:Hf; cbn [orb];
    try (destruct (String.eqb k "__proto__")); simpl; by rewrite ?Hd, ?Hf.
Qed.

(** Under [reads_own_writes], a non-empty text that was written is the
    text that is read. *)
Lemma getItem_setItem w k v :
  reads_own_writes w -> v <> "" -> k <> "__proto__" ->
  fst (safeStorage.getItem k (snd (safeStorage.setItem k v w)))
  = Returned (Some v).
Proof.
  intros Hrw Hv Hk.
  destruct (ls_denied (localStorage w)) eqn:Hd.
  - rewrite setItem_denied by done. cbn [snd].
    rewrite getItem_denied by (simpl; done).
    unfold safeStorage.memory_read. simpl. rewrite lookup_insert_eq.
    by destruct v.
  - destruct Hrw as [Hrw|Hf]; [congruence|].
    rewrite setItem_granted by done. cbn [snd].
    rewrite getItem_granted by done. simpl. by rewrite lookup_insert_eq.
Qed.

Lemma getItem_setItem_ne w k k' v :
  k <> k' ->
  fst (safeStorage.getItem k' (snd (safeStorage.setItem k v w)))
  = fst (safeStorage.getItem k' w).
Proof.
  intros Hne. rewrite setItem_cases. cbn [snd].
  destruct (ls_denied (localStorage w)) eqn:Hd;
    [|destruct (ls_full (localStorage w)) eqn:Hf]; cbn [orb].
  - destruct (String.eqb k "__proto__"); [done|].
    rewrite !getItem_denied by (simpl; done).
    unfold safeStorage.memory_read. simpl. by rewrite lookup_insert_ne.
  - destruct (String.eqb k "__proto__"); [done|].
    rewrite !getItem_granted by (simpl; done). done.
  - rewrite !getItem_granted by (simpl; done). simpl.
    by rewrite lookup_insert_ne.
Qed.

(** A key that [removeItem] took away reads as [null]; when the read goes
    through [memoryStorage], provided the key names no member of
    [Object.prototype]. *)
Lemma getItem_removeItem w k :
  ls_denied (localStorage w) = false \/ safeStorage.inherited k = false ->
  fst (safeStorage.getItem k (snd (safeStorage.removeItem k w)))
  = Returned None.
Proof.
  intros _. unfold safeStorage.removeItem, try_catch, Storage.removeItem.
  destruct (ls_denied (localStorage w)) eqn:Hd; cbn [snd].
  - rewrite getItem_denied by done.
    unfold safeStorage.memory_read, safeStorage.memory_delete. simpl.
    by rewrite lookup_delete_eq.
  - rewrite getItem_granted by done. simpl. by rewrite lookup_delete_eq.
Qed.

Lemma getItem_removeItem_ne w k k' :
  k' <> k ->
  fst (safeStorage.getItem k' (snd (safeStorage.removeItem k w)))
  = fst (safeStorage.getItem k' w).
Proof.
  intros Hne. unfold safeStorage.removeItem, try_catch, Storage.removeItem.
  destruct (ls_denied (localStorage w)) eqn:Hd; cbn [snd].
  - rewrite !getItem_denied by done.
    unfold safeStorage.memory_read, safeStorage.memory_delete. simpl.
    by rewrite lookup_delete_ne.
  - rewrite !getItem_granted by done. simpl. by rewrite lookup_delete_ne.
Qed.

(** After [clear] a key reads as [null], with the same proviso. *)
Lemma getItem_clear w k :
  ls_denied (localStorage w) = false \/ safeStorage.inherited k = false ->
  fst (safeStorage.getItem k (snd (safeStorage.clear w))) = Returned None.
Proof.
  intros _. unfold safeStorage.clear, try_catch, Storage.clear.
  destruct (ls_denied (localStorage w)) eqn:Hd; cbn [snd].
  - rewrite getItem_denied by done.
    unfold safeStorage.memory_read, safeStorage.memory_clear. simpl.
    by rewrite lookup_empty.
  - rewrite getItem_granted by done. simpl. by rewrite lookup_empty.
Qed.

End safeStorage_facts.

(** C4, as stated, fails on the code.  With access to [localStorage]
    denied, writing the empty string and reading it back gives [null];
    a write under [__proto__] is not kept, so the value is not read back;
    and [clear] leaves the item held by [localStorage] where it is. *)
Lemma safeStorage_denied_counterexample :
  ls_denied (localStorage blocked_world) = true
  /\ fst (safeStorage.getItem "k" (snd (safeStorage.setItem "k" "" blocked_world)))
     = Returned None
  /\ snd (safeStorage.setItem "__proto__" "v" blocked_world) = blocked_world
  /\ fst (safeStorage.getItem "__proto__"
            (snd (safeStorage.setItem "__proto__" "v" blocked_world)))
     <> Returned (Some "v")
  /\ ls_items (localStorage (snd (safeStorage.clear blocked_world))) !! "greeting"
     = Some "hello".
Proof. vm_compute. done. Qed.

(** C4 (amended): while [localStorage] throws on every access, a non-empty
    value written under a key other than [__proto__] is the value read
    under it, served by [memoryStorage]; [clear] empties [memoryStorage],
    so that every read made while access stays denied, of a key that names
    no member of [Object.prototype], gives [null]; and it leaves the
    content of [localStorage] untouched. *)
Theorem safeStorage_denied_fallback (w : World) (k v : string) :
  ls_denied (localStorage w) = true ->
  v <> "" ->
  k <> "__proto__" ->
  (let w1 := snd (safeStorage.setItem k v w) in
   fst (safeStorage.getItem k w1) = Returned (Some v)
   /\ memoryStorage w1 !! k = Some v
   /\ localStorage w1 = localStorage w)
  /\
  (let w2 := snd (safeStorage.clear w) in
   memoryStorage w2 = ∅
   /\ localStorage w2 = localStorage w
   /\ forall k', safeStorage.inherited k' = false ->
        fst (safeStorage.getItem k' w2) = Returned None).
Proof.
  intros Hd Hv Hk. split.
  - cbv zeta. split; [apply getItem_setItem; [by left|done..]|].
    rewrite setItem_denied by done. simpl. by rewrite lookup_insert_eq.
  - cbv zeta. split; [|split].
    + unfold safeStorage.clear, try_catch, Storage.clear. by rewrite Hd.
    + unfold safeStorage.clear, try_catch, Storage.clear. by rewrite Hd.
    + intros k' Hk'. apply getItem_clear. by right.
Qed.

Lemma safeStorage_denied_fallback_witness :
  (let w1 := snd (safeStorage.setItem "k" "v" blocked_world) in
   fst (safeStorage.getItem "k" w1) = Returned (Some "v")
   /\ memoryStorage w1 !! "k" = Some "v"
   /\ localStorage w1 = localStorage blocked_world)
  /\
  (let w2 := snd (safeStorage.clear blocked_world) in
   memoryStorage w2 = ∅
   /\ localStorage w2 = localStorage blocked_world
   /\ forall k', safeStorage.inherited k' = false ->
        fst (safeStorage.getItem k' w2) = Returned None).
Proof.
  apply (safeStorage_denied_fallback blocked_world "k" "v").
  - reflexivity.
  - discriminate.
  - discriminate.
Defined.

(** A store in which [memoryStorage] kept a value from an earlier refusal
    while [localStorage] works again. *)
Definition recovered_world : World :=
  mkWorld (mkLocalStorage ∅ false false) {["k" := "v"]} [] [].

(** C10: [removeItem] and [clear] touch [memoryStorage] only when
    [localStorage] throws.  When it throws, [removeItem] deletes the key
    from [memoryStorage] and [clear] empties it; when it does not, both
    leave [memoryStorage] as it is, and a value it holds under the key is
    what [getItem] returns once access to [localStorage] is refused. *)
Theorem safeStorage_fallback_retained (w : World) (k v : string) :
  (ls_denied (localStorage w) = true ->
   memoryStorage (snd (safeStorage.removeItem k w)) = delete k (memoryStorage w)
   /\ memoryStorage (snd (safeStorage.clear w)) = ∅)
  /\
  (ls_denied (localStorage w) = false ->
   memoryStorage (snd (safeStorage.removeItem k w)) = memoryStorage w
   /\ memoryStorage (snd (safeStorage.clear w)) = memoryStorage w
   /\ (memoryStorage w !! k = Some v -> v <> "" ->
       fst (safeStorage.getItem k
              (revoke_access (snd (safeStorage.removeItem k w))))
       = Returned (Some v)
       /\ fst (safeStorage.getItem k
                 (revoke_access (snd (safeStorage.clear w))))
          = Returned (Some v))).
Proof.
  unfold safeStorage.removeItem, safeStorage.clear, try_catch,
    Storage.removeItem, Storage.clear.
  split; intros Hd; rewrite Hd; simpl; [done|].
  split; [done|]. split; [done|]. intros Hm Hv.
  unfold safeStorage.getItem, try_catch, Storage.getItem,
    safeStorage.memory_read. simpl. rewrite Hm.
  by destruct v.
Qed.

Lemma safeStorage_fallback_retained_witness :
  memoryStorage (snd (safeStorage.removeItem "k" recovered_world))
  = memoryStorage recovered_world
  /\ fst (safeStorage.getItem "k"
            (revoke_access (snd (safeStorage.removeItem "k" recovered_world))))
     = Returned (Some "v")
  /\ memoryStorage (snd (safeStorage.removeItem "k" (revoke_access recovered_world)))
     = delete "k" (memoryStorage recovered_world).
Proof.
  destruct (safeStorage_fallback_retained recovered_world "k" "v")
    as [_ Hgranted].
  destruct (Hgranted eq_refl) as (Hkeep & _ & Hread).
  destruct (Hread eq_refl ltac:(discriminate)) as [Hget _].
  destruct (safeStorage_fallback_retained (revoke_access recovered_world) "k" "v")
    as [Hdenied _].
  destruct (Hdenied eq_refl) as [Hdel _].
  repeat split; assumption.
Defined.

(** ** The system log *)

Section logService_facts.
Context `{!Host}.
Implicit Types (w : World) (log : value) (logs : list value).

(** What [getLogs] makes of the text read under the log key. *)
Definition logs_of_stored (stored : option string) : value :=
  match stored with
  | Some s =>
      if is_empty_string s then VArr []
      else match JSON_parse s with
           | Returned v => v
           | Thrown _ => VArr []
           end
  | None => VArr []
  end.

Lemma getLogs_read w r :
  fst (safeStorage.getItem logService.LOG_STORAGE_KEY w) = Returned r ->
  logService.getLogs w = (Returned (logs_of_stored r), w).
Proof.
  intros Hr. destruct (getItem_returns w logService.LOG_STORAGE_KEY) as [r' Hg].
  rewrite Hg in Hr. injection Hr as ->.
  unfold logService.getLogs, try_catch, mbind, M_bind. rewrite Hg.
  destruct r as [s|]; [|done]. simpl.
  destruct s as [|c s]; [done|]. simpl. unfold lift.
  by destruct (JSON_parse (String c s)).
Qed.

Lemma getLogs_returns w : exists v, logService.getLogs w = (Returned v, w).
Proof.
  destruct (getItem_returns w logService.LOG_STORAGE_KEY) as [r Hg].
  exists (logs_of_stored r). apply getLogs_read. by rewrite Hg.
Qed.

(** [addLog] returns, whatever the store holds. *)
Lemma addLog_returns w log id now :
  exists w', logService.addLog log id now w = (Returned (), w').
Proof.
  unfold logService.addLog, try_catch, mbind, M_bind.
  destruct (getLogs_returns w) as [v ->].
  unfold lift. destruct (iterate v) as [rest|e]; [|by eexists].
  match goal with
  | |- context [safeStorage.setItem ?k ?s w] =>
      destruct (setItem_returns w k s) as [w1 ->]
  end.
  by eexists.
Qed.

(** [addLog] changes neither the access flags nor the request trace, and
    leaves every key but the log key as it was. *)
Lemma addLog_frame w log id now :
  let w' := snd (logService.addLog log id now w) in
  ls_denied (localStorage w') = ls_denied (localStorage w)
  /\ ls_full (localStorage w') = ls_full (localStorage w)
  /\ requests w' = requests w
  /\ forall k, k <> logService.LOG_STORAGE_KEY ->
       fst (safeStorage.getItem k w') = fst (safeStorage.getItem k w).
Proof.
  unfold logService.addLog, try_catch, mbind, M_bind.
  destruct (getLogs_returns w) as [v ->].
  unfold lift. destruct (iterate v) as [rest|e]; [|done].
  match goal with
  | |- context [safeStorage.setItem ?k ?s w] =>
      pose proof (setItem_frame w k s) as (Hd & Hf & _ & Hq);
      pose proof (fun k' Hne => getItem_setItem_ne w k k' s Hne) as Hother;
      destruct (setItem_returns w k s) as [w1 Hw1]
  end.
  rewrite Hw1 in *. simpl in *. repeat split; try done.
  intros k Hk. rewrite <- Hother by done. by apply getItem_stores.
Qed.

Lemma addLog_reads_own_writes w log id now :
  reads_own_writes w ->
  reads_own_writes (snd (logService.addLog log id now w)).
Proof.
  unfold reads_own_writes.
  destruct (addLog_frame w log id now) as (-> & -> & _). done.
Qed.

(** One [addLog] on a log that holds an array: the stamped record, as
    serialised, goes to the head and the array is cut at [MAX_LOGS]. *)
Lemma addLog_prepends w log id now logs :
  reads_own_writes w ->
  fst (logService.getLogs w) = Returned (VArr logs) ->
  Forall json_data logs ->
  fst (logService.getLogs (snd (logService.addLog log id now w)))
  = Returned (VArr (take logService.MAX_LOGS
                      (to_json (logService.stamped log id now) :: logs))).
Proof.
  intros Hrw Hlogs Hdata.
  destruct (getLogs_returns w) as [v Hv]. rewrite Hv in Hlogs.
  injection Hlogs as ->.
  unfold logService.addLog, try_catch, mbind, M_bind. rewrite Hv.
  unfold lift. cbn [iterate].
  set (text := JSON_stringify _).
  pose proof (getItem_setItem w logService.LOG_STORAGE_KEY text Hrw
                (JSON_stringify_nonempty _) ltac:(discriminate)) as Hget.
  destruct (setItem_returns w logService.LOG_STORAGE_KEY text) as [w1 Hw1].
  rewrite Hw1 in *. cbn [snd fst] in *.
  erewrite getLogs_read; cycle 1.
  { erewrite getItem_stores; [exact Hget|done..]. }
  cbn [fst]. unfold logs_of_stored.
  destruct (is_empty_string text) eqn:Hnonempty.
  { destruct text eqn:Htext; [|done].
    by destruct (JSON_stringify_nonempty _ Htext). }
  subst text. rewrite JSON_roundtrip by done. f_equal.
  change (to_json (VArr ?l)) with
    (VArr (List.map (fun x => match x with
                              | VUndefined => VNull
                              | _ => to_json x
                              end) l)).
  f_equal. rewrite <- (firstn_map _ _ (_ :: _)).
  f_equal. cbn [List.map]. f_equal. by apply to_json_elements.
Qed.

(** A log that [JSON.parse] produced holds JSON data. *)
Lemma getLogs_data w logs :
  fst (logService.getLogs w) = Returned (VArr logs) -> Forall json_data logs.
Proof.
  destruct (getItem_returns w logService.LOG_STORAGE_KEY) as [r Hg].
  erewrite getLogs_read by (by rewrite Hg). cbn [fst].
  unfold logs_of_stored. intros Hlogs. apply json_data_elements.
  destruct r as [s|]; [|injection Hlogs as <-; by apply json_data_array].
  destruct (is_empty_string s);
    [injection Hlogs as <-; by apply json_data_array|].
  destruct (JSON_parse s) as [v|e] eqn:Hp;
    [|injection Hlogs as <-; by apply json_data_array].
  injection Hlogs as ->. by apply (JSON_parse_data s).
Qed.

End logService_facts.

Section system_log.
Context `{!Host}.

(** The record that an [addLog] call leaves in the store. *)
Definition stored_entry (call : value * string * Q) : value :=
  to_json (logService.stamped call.1.1 call.1.2 call.2).

Lemma assoc_to_json k x (ps : list (string * value)) :
  assoc k ps = Some x -> x <> VUndefined ->
  js_get (to_json (VObj ps)) k = to_json x.
Proof.
  intros Hk Hx. simpl.
  induction ps as [|[k' y] ps IH]; [done|].
  simpl in Hk. cbn [List.flat_map].
  destruct (String.eqb k k') eqn:E.
  - injection Hk as ->. apply String.eqb_eq in E as <-.
    destruct x; try done; simpl; by rewrite String.eqb_refl.
  - destruct y; simpl; rewrite ?E; by apply IH.
Qed.

(** The stored record carries the id and the timestamp drawn by its call. *)
Lemma stored_entry_stamp log id now :
  js_get (stored_entry (log, id, now)) "id" = VStr id
  /\ js_get (stored_entry (log, id, now)) "timestamp" = VNum now.
Proof.
  unfold stored_entry, logService.stamped. cbn [fst snd]. split.
  - rewrite (assoc_to_json "id" (VStr id)); [done| |done].
    rewrite assoc_set_ne by done. apply assoc_set_eq.
  - rewrite (assoc_to_json "timestamp" (VNum now)); [done| |done].
    apply assoc_set_eq.
Qed.

Lemma take_app_take {A : Type} (n : nat) (l k : list A) :
  take n (l ++ take n k) = take n (l ++ k).
Proof.
  rewrite !take_app, take_take. do 2 f_equal. lia.
Qed.

(** Appending to a log that holds at most [MAX_LOGS] records. *)
Lemma append_all_spec (calls : list (value * string * Q)) :
  forall (w : World) (logs : list value),
    reads_own_writes w ->
    fst (logService.getLogs w) = Returned (VArr logs) ->
    length logs <= logService.MAX_LOGS ->
    fst (logService.getLogs (logService.append_all calls w))
    = Returned (VArr (take logService.MAX_LOGS
                        (reverse (stored_entry <$> calls) ++ logs))).
Proof.
  induction calls as [|[[log id] now] calls IH]; intros w logs Hrw Hlogs Hlen.
  - simpl. by rewrite take_ge.
  - cbn [logService.append_all]. erewrite IH; cycle 1.
    + by apply addLog_reads_own_writes.
    + apply addLog_prepends; [done..|]. by apply (getLogs_data w).
    + rewrite length_take. lia.
    + f_equal. f_equal. rewrite fmap_cons, reverse_cons, <- app_assoc.
      by rewrite take_app_take.
Qed.

(** C8 (amended): in a store that reads its own writes, starting from an
    empty system log, after any number of [addLog] calls the log holds the
    serialised records of the most recent calls, newest first, and never
    more than 50 of them; each record carries the id and the timestamp
    drawn by its call.  After 60 calls exactly 50 records are left: those
    of the last 50 calls, the first 10 gone. *)
Theorem system_log_bounded_newest_first
    (w : World) (calls : list (value * string * Q)) :
  reads_own_writes w ->
  fst (safeStorage.getItem logService.LOG_STORAGE_KEY w) = Returned None ->
  exists kept,
    fst (logService.getLogs (logService.append_all calls w))
    = Returned (VArr kept)
    /\ kept = take logService.MAX_LOGS (reverse (stored_entry <$> calls))
    /\ length kept <= 50
    /\ (length calls = 60 ->
        length kept = 50
        /\ kept = reverse (stored_entry <$> drop 10 calls))
    /\ Forall (fun call =>
                 js_get (stored_entry call) "id" = VStr call.1.2
                 /\ js_get (stored_entry call) "timestamp" = VNum call.2)
              calls.
Proof.
  intros Hrw Hempty.
  eexists. split; [|split; [reflexivity|]].
  - erewrite append_all_spec with (logs := []); [|done| |simpl; lia].
    + by rewrite app_nil_r.
    + erewrite getLogs_read by done. done.
  - split; [rewrite length_take; unfold logService.MAX_LOGS; lia|].
    split.
    + intros Hlen. unfold logService.MAX_LOGS.
      rewrite take_reverse, length_fmap, Hlen, <- fmap_drop.
      split; [|done].
      rewrite length_reverse, length_fmap, length_drop. lia.
    + apply Forall_forall. intros [[log id] now] _. apply stored_entry_stamp.
Qed.

End system_log.

(** Sixty calls, numbered in the order they are made. *)
Definition sixty_calls : list (value * string * Q) :=
  (fun i : nat =>
     (VObj [("level", VStr "info"); ("source", VStr "test");
            ("message", VStr (pretty i))],
      pretty i, inject_Z (Z.of_nat i))) <$> seq 0 60.

(** A browser whose [localStorage] is empty but takes no more writes. *)
Definition full_world : World :=
  mkWorld (mkLocalStorage ∅ false true) ∅ [] [].

(** C8, as stated, fails on the code: when [localStorage] refuses writes
    only, each record goes to [memoryStorage] while [getLogs] keeps reading
    [localStorage]; after 60 calls on an empty log the log still reads as
    empty. *)
Lemma quota_exhausted_log_counterexample :
  fst (safeStorage.getItem logService.LOG_STORAGE_KEY full_world)
  = Returned None
  /\ length sixty_calls = 60
  /\ fst (@logService.getLogs ref_host
            (@logService.append_all ref_host sixty_calls full_world))
     = Returned (VArr []).
Proof. vm_compute. done. Qed.

Lemma system_log_bounded_newest_first_witness :
  exists kept,
    fst (@logService.getLogs ref_host
           (@logService.append_all ref_host sixty_calls fresh_world))
    = Returned (VArr kept)
    /\ length kept = 50
    /\ kept = reverse (stored_entry <$> drop 10 sixty_calls).
Proof.
  destruct (@system_log_bounded_newest_first ref_host fresh_world sixty_calls)
    as (kept & Hget & _ & _ & Hsixty & _).
  - right. reflexivity.
  - reflexivity.
  - destruct (Hsixty eq_refl) as [Hlen Hkept].
    exists kept. exact (conj Hget (conj Hlen Hkept)).
Defined.

(** ** Loading and saving the configuration *)

Import storageService.

Section migration_facts.
Context `{!Host}.
Implicit Types (p v d : value) (k : string).

Lemma fill_falsy_get_ne k k' d p :
  String.eqb k' k = false -> js_get (fill_falsy k d p) k' = js_get p k'.
Proof.
  intros Hne. unfold fill_falsy.
  destruct (negb (truthy (js_get p k))); [by apply js_get_set_ne|done].
Qed.

Lemma fill_undefined_get_ne k k' d p :
  String.eqb k' k = false -> js_get (fill_undefined k d p) k' = js_get p k'.
Proof.
  intros Hne. unfold fill_undefined.
  destruct (is_undefined (js_get p k)); [by apply js_get_set_ne|done].
Qed.

Lemma migrate_liveCamUrls_get_ne k' p :
  String.eqb k' "liveCamUrls" = false ->
  js_get (migrate_liveCamUrls p) k' = js_get p k'.
Proof.
  intros Hne. unfold migrate_liveCamUrls.
  destruct (negb (truthy (js_get p "liveCamUrls"))); [|done].
  destruct (truthy (js_get p "liveCamUrl")); by apply js_get_set_ne.
Qed.

Lemma is_object_fill_falsy k d p : is_object (fill_falsy k d p) = is_object p.
Proof.
  unfold fill_falsy.
  destruct (negb (truthy (js_get p k))); [apply is_object_set|done].
Qed.

Lemma is_object_fill_undefined k d p :
  is_object (fill_undefined k d p) = is_object p.
Proof.
  unfold fill_undefined.
  destruct (is_undefined (js_get p k)); [apply is_object_set|done].
Qed.

Lemma is_object_migrate_liveCamUrls p :
  is_object (migrate_liveCamUrls p) = is_object p.
Proof.
  unfold migrate_liveCamUrls.
  destruct (negb (truthy (js_get p "liveCamUrls"))); [|done].
  destruct (truthy (js_get p "liveCamUrl")); apply is_object_set.
Qed.

(** A step that finds its property in place changes nothing. *)
Lemma fill_falsy_present k d p :
  truthy (js_get p k) = true -> fill_falsy k d p = p.
Proof. intros Ht. unfold fill_falsy. by rewrite Ht. Qed.

Lemma fill_undefined_present k d p :
  is_undefined (js_get p k) = false -> fill_undefined k d p = p.
Proof. intros Ht. unfold fill_undefined. by rewrite Ht. Qed.

Lemma migrate_liveCamUrls_present p :
  truthy (js_get p "liveCamUrls") = true -> migrate_liveCamUrls p = p.
Proof. intros Ht. unfold migrate_liveCamUrls. by rewrite Ht. Qed.

(** The safety check refuses any value whose [pages], [theme] or
    [schoolName] is falsy. *)
Lemma check_and_migrate_incomplete p :
  p <> VNull -> p <> VUndefined ->
  truthy (js_get p "pages") && truthy (js_get p "theme")
    && truthy (js_get p "schoolName") = false ->
  check_and_migrate p
  = Thrown (new_Error "Configuration structure is incomplete or corrupted.").
Proof.
  intros Hn Hu Hguard. unfold check_and_migrate.
  assert (prop p "pages" = Returned (js_get p "pages")) as ->
    by (by destruct p).
  cbn [mbind outcome_bind].
  destruct (truthy (js_get p "pages")), (truthy (js_get p "theme")),
    (truthy (js_get p "schoolName")); done.
Qed.

(** What [migrate_pages] does to an object whose [pages] is truthy. *)
Lemma migrate_pages_ok p v :
  truthy (js_get p "pages") = true ->
  migrate_pages p = Returned v ->
  is_object v = true
  /\ array_map normalize_page (js_get p "pages") = Returned (js_get v "pages")
  /\ forall k, String.eqb k "pages" = false -> js_get v k = js_get p k.
Proof.
  intros Ht. unfold migrate_pages. rewrite Ht. cbn [negb].
  destruct (array_map normalize_page (js_get p "pages")) as [x|e] eqn:Hmap;
    [|done].
  intros [= <-].
  assert (is_object p = true) as Hobj.
  { apply (js_get_object p "pages"). by destruct (js_get p "pages"). }
  split; [by rewrite is_object_set|].
  split; [by rewrite js_get_set_eq|].
  intros k Hk. by apply js_get_set_ne.
Qed.

End migration_facts.

Create Rewrite HintDb js.
#[local] Hint Rewrite
  js_get_set_ne js_get_delete_ne fill_falsy_get_ne fill_undefined_get_ne
  migrate_liveCamUrls_get_ne using reflexivity : js.
#[local] Hint Rewrite
  is_object_set is_object_delete is_object_fill_falsy is_object_fill_undefined
  is_object_migrate_liveCamUrls : js.

Section load_facts.
Context `{!Host}.
Implicit Types (p v : value) (w : World).

(** A configuration that passes the check comes out as an object that
    keeps its [theme] and [schoolName], has its pages normalised and has
    [isSafeMode] set to [false]. *)
Lemma check_and_migrate_ok p v :
  check_and_migrate p = Returned v ->
  is_object v = true
  /\ js_get v "isSafeMode" = VBool false
  /\ js_get v "theme" = js_get p "theme"
  /\ js_get v "schoolName" = js_get p "schoolName"
  /\ truthy (js_get p "theme") = true
  /\ truthy (js_get p "schoolName") = true
  /\ truthy (js_get p "pages") = true
  /\ array_map normalize_page (js_get p "pages") = Returned (js_get v "pages").
Proof.
  unfold check_and_migrate.
  destruct (prop p "pages") as [pages|e] eqn:Hprop; [|done].
  assert (pages = js_get p "pages") as ->
    by (destruct p; simpl in *; congruence).
  cbn [mbind outcome_bind].
  destruct (truthy (js_get p "pages")) eqn:Hpages; [|done].
  destruct (truthy (js_get p "theme")) eqn:Htheme; [|done].
  destruct (truthy (js_get p "schoolName")) eqn:Hname; [|done].
  cbn [negb orb]. cbv zeta.
  rewrite (fill_falsy_present "theme" _ p Htheme).
  destruct (migrate_pages _) as [q|e] eqn:Hmig; [|done].
  cbn [mbind outcome_bind]. intros [= <-].
  apply migrate_pages_ok in Hmig as (Hobj & Hmap & Hother);
    [|by autorewrite with js].
  autorewrite with js in Hmap.
  repeat split; try done.
  - by autorewrite with js.
  - rewrite js_get_set_eq; [done|]. by autorewrite with js.
  - autorewrite with js. rewrite Hother by done. by autorewrite with js.
  - autorewrite with js. rewrite Hother by done. by autorewrite with js.
  - autorewrite with js. by rewrite <- Hmap.
Qed.

(** Conversely, it passes when the three properties are truthy and each
    page can be normalised. *)
Lemma check_and_migrate_returns p pages' :
  truthy (js_get p "pages") = true ->
  truthy (js_get p "theme") = true ->
  truthy (js_get p "schoolName") = true ->
  array_map normalize_page (js_get p "pages") = Returned pages' ->
  exists v, check_and_migrate p = Returned v.
Proof.
  intros Hpages Htheme Hname Hmap. unfold check_and_migrate.
  assert (prop p "pages" = Returned (js_get p "pages")) as ->
    by (by destruct p).
  cbn [mbind outcome_bind]. rewrite Hpages, Htheme, Hname.
  cbn [negb orb]. cbv zeta.
  rewrite (fill_falsy_present "theme" _ p Htheme).
  unfold migrate_pages at 1. autorewrite with js.
  rewrite Hpages, Hmap. cbn [negb fmap outcome_fmap mbind outcome_bind].
  by eexists.
Qed.

(** What the [try] block of [getStoredData] computes from the text read
    under the storage key. *)
Definition load_outcome (stored : option string) : outcome value :=
  match stored with
  | Some s =>
      if is_empty_string s then Returned DEFAULT_DATA
      else JSON_parse s ≫= check_and_migrate
  | None => Returned DEFAULT_DATA
  end.

Lemma getStoredData_spec w random_id now r :
  fst (safeStorage.getItem STORAGE_KEY w) = Returned r ->
  getStoredData random_id now w
  = match load_outcome r with
    | Returned v => (Returned v, w)
    | Thrown e =>
        (Returned SAFE_MODE_DATA,
         snd (logService.addLog (load_failure_log e) random_id now w))
    end.
Proof.
  intros Hr. destruct (getItem_returns w STORAGE_KEY) as [r' Hg].
  rewrite Hg in Hr. injection Hr as ->.
  assert (forall e w0,
    (_ ← console "Critical Storage Failure - Booting in Safe Mode";
     _ ← logService.addLog (load_failure_log e) random_id now;
     mret SAFE_MODE_DATA) w0
    = (Returned SAFE_MODE_DATA,
       snd (logService.addLog (load_failure_log e) random_id now w0)))
    as Hhandler.
  { intros e w0. unfold mbind, M_bind, console, mret, M_ret.
    by destruct (addLog_returns w0 (load_failure_log e) random_id now)
      as [w1 ->]. }
  unfold getStoredData, try_catch. unfold mbind at 1. unfold M_bind at 1.
  rewrite Hg. destruct r as [s|]; [|done].
  destruct s as [|c s]; [done|].
  cbn [load_outcome is_empty_string truthy negb].
  unfold mbind at 1. unfold M_bind at 1. unfold lift.
  destruct (JSON_parse (String c s)) as [p|e]; [|apply Hhandler].
  cbn [mbind outcome_bind].
  destruct (check_and_migrate p) as [v|e]; [done|apply Hhandler].
Qed.

End load_facts.

Section load_properties.
Context `{!Host}.
Implicit Types (p v : value) (w : World).

(** Text that [JSON.parse] accepts is not empty. *)
Lemma parsed_nonempty (s : string) v :
  JSON_parse s = Returned v -> is_empty_string s = false.
Proof.
  destruct s; [|done]. intros Hp. by destruct (JSON_parse_empty v).
Qed.

(** A configuration that can be handed to the views: an object with an
    array of pages, a theme, a school name and a boolean safe-mode flag. *)
Definition usable v : Prop :=
  is_object v = true
  /\ (exists pages, js_get v "pages" = VArr pages)
  /\ truthy (js_get v "theme") = true
  /\ truthy (js_get v "schoolName") = true
  /\ (exists b, js_get v "isSafeMode" = VBool b).

Lemma usable_DEFAULT_DATA : usable DEFAULT_DATA.
Proof. repeat split; try reflexivity; eexists; reflexivity. Qed.

Lemma usable_SAFE_MODE_DATA : usable SAFE_MODE_DATA.
Proof. repeat split; try reflexivity; eexists; reflexivity. Qed.

Lemma array_map_array f arr x :
  array_map f arr = Returned x -> exists l, x = VArr l.
Proof.
  destruct arr; try done. simpl.
  destruct (map_outcome f elems); [|done]. intros [= <-]. by eexists.
Qed.

Lemma usable_migrated p v : check_and_migrate p = Returned v -> usable v.
Proof.
  intros (Hobj & Hsafe & Htheme & Hname & Ht & Hn & _ & Hmap)%check_and_migrate_ok.
  apply array_map_array in Hmap as [l Hl].
  repeat split; [done|by exists l|by rewrite Htheme|by rewrite Hname|by eexists].
Qed.

(** [getStoredData] returns a usable configuration from every world. *)
Lemma getStoredData_total w random_id now :
  exists v w', getStoredData random_id now w = (Returned v, w') /\ usable v.
Proof.
  destruct (getItem_returns w STORAGE_KEY) as [r Hg].
  rewrite (getStoredData_spec w random_id now r) by (by rewrite Hg).
  destruct (load_outcome r) as [v|e] eqn:Hload.
  - exists v, w. split; [done|].
    unfold load_outcome in Hload. destruct r as [s|].
    + destruct (is_empty_string s);
        [injection Hload as <-; apply usable_DEFAULT_DATA|].
      destruct (JSON_parse s) as [p|]; [|done].
      by apply (usable_migrated p).
    + injection Hload as <-. apply usable_DEFAULT_DATA.
  - eexists _, _. split; [done|apply usable_SAFE_MODE_DATA].
Qed.

(** A value without [pages] does not pass the safety check. *)
Lemma check_and_migrate_no_pages p :
  js_get p "pages" = VUndefined -> exists e, check_and_migrate p = Thrown e.
Proof.
  intros Hpages.
  destruct p; try (by eexists);
    (eexists; apply check_and_migrate_incomplete; [done..|]; by rewrite Hpages).
Qed.

(** A stored text is malformed when it is not JSON, when it is the JSON
    text of [null], or when the value it denotes has no [pages]. *)
Definition malformed (s : string) : Prop :=
  (exists e, JSON_parse s = Thrown e)
  \/ JSON_parse s = Returned VNull
  \/ (exists p, JSON_parse s = Returned p /\ js_get p "pages" = VUndefined).

Lemma malformed_load_outcome (s : string) :
  s <> "" -> malformed s -> exists e, load_outcome (Some s) = Thrown e.
Proof.
  intros Hs Hbad. unfold load_outcome.
  destruct s as [|c s]; [done|]. cbn [is_empty_string].
  destruct Hbad as [[e ->]|[->|(p & -> & Hpages)]].
  - by exists e.
  - by eexists.
  - cbn [mbind outcome_bind]. by apply check_and_migrate_no_pages.
Qed.

(** C2 (amended): when the text stored under the configuration key is not
    empty and is malformed, [getStoredData] returns the default
    configuration with [isSafeMode] set to [true]; and when the store reads
    its own writes and the system log holds an array, the log afterwards is
    that array with exactly one record, the failure report stamped with the
    draws of the call, put at its head (and cut at 50 records). *)
Theorem malformed_blob_boots_safe_mode
    (w : World) (random_id : string) (now : Q) (s : string) :
  fst (safeStorage.getItem STORAGE_KEY w) = Returned (Some s) ->
  s <> "" ->
  malformed s ->
  fst (getStoredData random_id now w)
  = Returned (js_set DEFAULT_DATA "isSafeMode" (VBool true))
  /\ (reads_own_writes w ->
      forall logs,
        fst (logService.getLogs w) = Returned (VArr logs) ->
        exists e,
          fst (logService.getLogs (snd (getStoredData random_id now w)))
          = Returned
              (VArr (take logService.MAX_LOGS
                       (stored_entry (load_failure_log e, random_id, now)
                          :: logs)))).
Proof.
  intros Hget Hs Hbad.
  rewrite (getStoredData_spec w random_id now (Some s)) by done.
  destruct (malformed_load_outcome s Hs Hbad) as [e ->].
  split; [done|]. intros Hrw logs Hlogs. exists e. cbn [snd].
  apply addLog_prepends; [done..|]. by apply (getLogs_data w).
Qed.

(** C9: a stored configuration whose [pages] is an empty array, and whose
    [theme] and [schoolName] are in place, is loaded as it is, with its
    empty [pages] and [isSafeMode] set to [false], and the world is left
    untouched; a stored configuration without a [pages] key is answered by
    the default configuration with [isSafeMode] set to [true]. *)
Theorem empty_pages_valid_absent_pages_corrupt
    (w : World) (random_id : string) (now : Q) (s : string)
    (props : list (string * value)) :
  fst (safeStorage.getItem STORAGE_KEY w) = Returned (Some s) ->
  JSON_parse s = Returned (VObj props) ->
  truthy (js_get (VObj props) "theme") = true ->
  truthy (js_get (VObj props) "schoolName") = true ->
  (assoc "pages" props = Some (VArr []) ->
   exists v,
     getStoredData random_id now w = (Returned v, w)
     /\ js_get v "pages" = VArr []
     /\ js_get v "isSafeMode" = VBool false
     /\ js_get v "theme" = js_get (VObj props) "theme"
     /\ js_get v "schoolName" = js_get (VObj props) "schoolName")
  /\
  (assoc "pages" props = None ->
   fst (getStoredData random_id now w) = Returned SAFE_MODE_DATA
   /\ js_get SAFE_MODE_DATA "isSafeMode" = VBool true
   /\ js_get SAFE_MODE_DATA "pages" = DEFAULT_pages).
Proof.
  intros Hget Hparse Htheme Hname.
  rewrite (getStoredData_spec w random_id now (Some s)) by done.
  unfold load_outcome. rewrite (parsed_nonempty s _ Hparse), Hparse.
  cbn [mbind outcome_bind]. split; intros Hpages.
  - assert (js_get (VObj props) "pages" = VArr []) as Hp
      by (simpl; by rewrite Hpages).
    destruct (check_and_migrate_returns (VObj props) (VArr []))
      as [v Hv]; [by rewrite Hp|done|done|by rewrite Hp|].
    rewrite Hv. exists v. split; [done|].
    apply check_and_migrate_ok in Hv
      as (_ & Hsafe & Hth & Hsn & _ & _ & _ & Hmap).
    rewrite Hp in Hmap. simpl in Hmap. injection Hmap as <-. done.
  - destruct (check_and_migrate_no_pages (VObj props)) as [e ->];
      [simpl; by rewrite Hpages|done].
Qed.

End load_properties.

(** A browser whose [localStorage] holds [blob] under the configuration
    key. *)
Definition world_with_blob (blob : string) : World :=
  mkWorld (mkLocalStorage {[STORAGE_KEY := blob]} false false) ∅ [] [].

(** C2, as stated, fails on the code: the empty string is stored, it is
    not JSON, and yet [getStoredData] answers with the default
    configuration, [isSafeMode] being [false], and writes nothing to the
    system log. *)
Lemma empty_blob_counterexample :
  fst (safeStorage.getItem STORAGE_KEY (world_with_blob "")) = Returned (Some "")
  /\ @JSON_parse ref_host "" = Thrown RefHost.SyntaxError
  /\ @getStoredData ref_host "id1" 0 (world_with_blob "")
     = (Returned (@DEFAULT_DATA ref_host), world_with_blob "")
  /\ js_get (@DEFAULT_DATA ref_host) "isSafeMode" = VBool false
  /\ fst (@logService.getLogs ref_host
            (snd (@getStoredData ref_host "id1" 0 (world_with_blob ""))))
     = Returned (VArr []).
Proof. vm_compute. done. Qed.

Lemma malformed_blob_boots_safe_mode_witness :
  fst (@getStoredData ref_host "id1" 1700000000000 (world_with_blob "{oops"))
  = Returned (js_set (@DEFAULT_DATA ref_host) "isSafeMode" (VBool true))
  /\ exists e,
       fst (@logService.getLogs ref_host
              (snd (@getStoredData ref_host "id1" 1700000000000
                      (world_with_blob "{oops"))))
       = Returned
           (VArr [stored_entry (@load_failure_log e, "id1", 1700000000000%Q)]).
Proof.
  destruct (@malformed_blob_boots_safe_mode ref_host (world_with_blob "{oops")
              "id1" 1700000000000 "{oops") as [Hload Hlog].
  - reflexivity.
  - discriminate.
  - left. eexists. reflexivity.
  - split; [exact Hload|].
    destruct (Hlog ltac:(by right) [] eq_refl) as [e He].
    exists e. exact He.
Defined.

(** The two provisos of the log part are needed.  With the quota
    exhausted the failure report goes to [memoryStorage] and the log still
    reads as empty; with a log text that denotes an object, [addLog] throws
    on [...logs] and writes nothing. *)
Lemma quota_exhausted_failure_is_not_logged :
  let w := mkWorld (mkLocalStorage {[STORAGE_KEY := "{oops"]} false true)
                   ∅ [] [] in
  fst (@getStoredData ref_host "id1" 0 w) = Returned (@SAFE_MODE_DATA ref_host)
  /\ fst (@logService.getLogs ref_host (snd (@getStoredData ref_host "id1" 0 w)))
     = Returned (VArr []).
Proof. vm_compute. done. Qed.

Lemma object_log_failure_is_not_logged :
  let w := mkWorld
             (mkLocalStorage
                {[STORAGE_KEY := "{oops";
                  logService.LOG_STORAGE_KEY := @JSON_stringify ref_host (VObj [])]}
                false false)
             ∅ [] [] in
  fst (@logService.getLogs ref_host w) = Returned (VObj [])
  /\ fst (@getStoredData ref_host "id1" 0 w) = Returned (@SAFE_MODE_DATA ref_host)
  /\ fst (@logService.getLogs ref_host (snd (@getStoredData ref_host "id1" 0 w)))
     = Returned (VObj []).
Proof. vm_compute. done. Qed.

(** A stored configuration with an empty [pages] array, and one without. *)
Definition sparse_config (pages : list (string * value)) : value :=
  VObj ([("schoolName", VStr "Hill School"); ("theme", VObj [("id", VStr "t")])]
        ++ pages).

Lemma empty_pages_valid_absent_pages_corrupt_witness :
  (exists v,
     @getStoredData ref_host "id1" 5
       (world_with_blob (@JSON_stringify ref_host (sparse_config [("pages", VArr [])])))
     = (Returned v,
        world_with_blob (@JSON_stringify ref_host (sparse_config [("pages", VArr [])])))
     /\ js_get v "pages" = VArr []
     /\ js_get v "isSafeMode" = VBool false)
  /\ fst (@getStoredData ref_host "id1" 5
            (world_with_blob (@JSON_stringify ref_host (sparse_config []))))
     = Returned (@SAFE_MODE_DATA ref_host).
Proof.
  split.
  - destruct (@empty_pages_valid_absent_pages_corrupt ref_host
                (world_with_blob (@JSON_stringify ref_host
                                    (sparse_config [("pages", VArr [])])))
                "id1" 5 _ _ eq_refl
                ltac:(vm_compute; reflexivity) eq_refl eq_refl)
      as [Hvalid _].
    destruct (Hvalid eq_refl) as (v & Hv & Hpages & Hsafe & _).
    exists v. repeat split; assumption.
  - destruct (@empty_pages_valid_absent_pages_corrupt ref_host
                (world_with_blob (@JSON_stringify ref_host (sparse_config [])))
                "id1" 5 _ _ eq_refl
                ltac:(vm_compute; reflexivity) eq_refl eq_refl)
      as [_ Habsent].
    destruct (Habsent eq_refl) as [Hload _]. exact Hload.
Defined.

(** ** The remote-data cache *)

Import cacheService.

Section cache_facts.
Context `{!Host}.
Implicit Types (w : World) (k s : string) (r : option string).

(** The world after a request to [url] has been issued. *)
Definition requested (url : string) (w : World) : World :=
  mkWorld (localStorage w) (memoryStorage w) (dispatched w) (url :: requests w).

(** What one request yields: the parsed body, or the error thrown by
    [fetch], by the status check or by [res.json()]. *)
Definition network_outcome (net : NetworkResult) : outcome value :=
  match net with
  | Rejected e => Thrown e
  | Response ok status json =>
      if negb ok then Thrown (new_Error ("HTTP " ++ pretty status)) else json
  end.

(** The network call fails: network error or timeout, a status that is
    not 2xx, or a body that is not JSON. *)
Definition network_fails (net : NetworkResult) : Prop :=
  match net with
  | Rejected _ => True
  | Response ok _ json => ok = false \/ exists e, json = Thrown e
  end.

Lemma network_fails_outcome net :
  network_fails net -> exists e, network_outcome net = Thrown e.
Proof.
  destruct net as [e|ok status json]; simpl; [by eexists|].
  intros [->|[e ->]]; [by eexists|]. destruct ok; by eexists.
Qed.

Lemma fetch_json_spec url net w :
  fetch_json url net w = (network_outcome net, requested url w).
Proof.
  unfold fetch_json, network_outcome, requested.
  destruct net as [e|ok status json]; [done|]. by destruct ok.
Qed.

(** What step 1 makes of the text read under the cache key. *)
Definition fresh_of (now ttlSeconds : Q) r : option value :=
  match r with
  | Some s =>
      if is_empty_string s then None
      else match JSON_parse s with
           | Returned entry =>
               match prop entry "timestamp" with
               | Returned timestamp =>
                   if elapsed_lt now timestamp (Double.mul ttlSeconds 1000)
                   then Some (js_get entry "data") else None
               | Thrown _ => None
               end
           | Thrown _ => None
           end
  | None => None
  end.

(** What step 4 makes of it. *)
Definition stale_of r : option value :=
  match r with
  | Some s =>
      if is_empty_string s then None
      else match JSON_parse s with
           | Returned entry =>
               match prop entry "data" with
               | Returned data => Some data
               | Thrown _ => None
               end
           | Thrown _ => None
           end
  | None => None
  end.

Lemma read_fresh_spec w k now ttlSeconds r :
  fst (safeStorage.getItem k w) = Returned r ->
  read_fresh k now ttlSeconds w = (Returned (fresh_of now ttlSeconds r), w).
Proof.
  intros Hr. destruct (getItem_returns w k) as [r' Hg].
  rewrite Hg in Hr. injection Hr as ->.
  unfold read_fresh, try_catch. unfold mbind at 1. unfold M_bind at 1.
  rewrite Hg. destruct r as [s|]; [|done].
  destruct s as [|c s]; [done|].
  cbn [fresh_of is_empty_string truthy negb].
  unfold mbind at 1. unfold M_bind at 1. unfold lift.
  destruct (JSON_parse (String c s)) as [entry|e]; [|done].
  unfold mbind at 1. unfold M_bind at 1.
  destruct (prop entry "timestamp") as [timestamp|e]; [|done].
  by destruct (elapsed_lt now timestamp (Double.mul ttlSeconds 1000)).
Qed.

Lemma read_stale_spec w k r :
  fst (safeStorage.getItem k w) = Returned r ->
  read_stale k w = (Returned (stale_of r), w).
Proof.
  intros Hr. destruct (getItem_returns w k) as [r' Hg].
  rewrite Hg in Hr. injection Hr as ->.
  unfold read_stale, try_catch. unfold mbind at 1. unfold M_bind at 1.
  rewrite Hg. destruct r as [s|]; [|done].
  destruct s as [|c s]; [done|].
  cbn [stale_of is_empty_string truthy negb].
  unfold mbind at 1. unfold M_bind at 1. unfold lift.
  destruct (JSON_parse (String c s)) as [entry|e]; [|done].
  unfold mbind, M_bind, console, mret, M_ret.
  by destruct (prop entry "data").
Qed.

(** [safeFetch], by cases on the cache and on the network. *)
Lemma safeFetch_spec w key url ttlSeconds fallbackData now net r :
  fst (safeStorage.getItem (String.append CACHE_PREFIX key) w) = Returned r ->
  safeFetch key url ttlSeconds fallbackData now net w
  = match fresh_of now (default 300%Q ttlSeconds) r with
    | Some data => (Returned data, w)
    | None =>
        match network_outcome net with
        | Returned data =>
            (Returned data,
             snd (safeStorage.setItem (String.append CACHE_PREFIX key)
                    (JSON_stringify
                       (VObj [("data", data); ("timestamp", VNum now)]))
                    (requested url w)))
        | Thrown _ =>
            (Returned (match stale_of r with
                       | Some data => data
                       | None => js_or fallbackData VNull
                       end),
             requested url w)
        end
    end.
Proof.
  intros Hr. unfold safeFetch. cbv zeta.
  unfold mbind at 1. unfold M_bind at 1.
  rewrite (read_fresh_spec w _ now _ r Hr).
  destruct (fresh_of now (default 300%Q ttlSeconds) r) as [data|]; [done|].
  unfold try_catch at 1. unfold mbind at 1. unfold M_bind at 1.
  rewrite fetch_json_spec.
  destruct (network_outcome net) as [data|e].
  - unfold mbind at 1. unfold M_bind at 1. unfold try_catch.
    match goal with
    | |- context [safeStorage.setItem ?k ?s ?w0] =>
        destruct (setItem_returns w0 k s) as [w1 ->]
    end.
    done.
  - unfold mbind, M_bind, console, mret, M_ret.
    rewrite (read_stale_spec (requested url w) _ r);
      [by destruct (stale_of r)|].
    rewrite <- Hr. by apply getItem_stores.
Qed.

(** [safeFetch] returns from every world, whatever the network does. *)
Lemma safeFetch_total w key url ttlSeconds fallbackData now net :
  exists v w',
    safeFetch key url ttlSeconds fallbackData now net w = (Returned v, w').
Proof.
  destruct (getItem_returns w (String.append CACHE_PREFIX key)) as [r Hg].
  rewrite (safeFetch_spec w key url ttlSeconds fallbackData now net r)
    by (by rewrite Hg).
  destruct (fresh_of _ _ r); [by eexists _, _|].
  destruct (network_outcome net); by eexists _, _.
Qed.

End cache_facts.

(** ** Rounding on whole numbers *)

Section double_facts.

Lemma Qltb_lt (x y : Q) : Qltb x y = true <-> (x < y)%Q.
Proof.
  unfold Qltb. rewrite negb_true_iff, <- not_true_iff_false, Qle_bool_iff.
  split; [apply Qnot_le_lt|apply Qlt_not_le].
Qed.

Lemma nearest_even_exact (z : Z) : Double.nearest_even z 1 = z.
Proof.
  unfold Double.nearest_even. rewrite Z.mod_1_r, Z.div_1_r. reflexivity.
Qed.

(** A positive integer below [2 ^ 53] is a double. *)
Lemma round_pos_integer (n : positive) :
  (Zpos n < 2 ^ 53)%Z ->
  exists q, Double.round_pos n 1 = Some q /\ q == inject_Z (Zpos n).
Proof.
  intros Hn. unfold Double.round_pos, Double.exponent.
  change (Z.log2 1) with 0%Z. rewrite Z.sub_0_r.
  assert (0 <= Z.log2 (Zpos n) < 53)%Z as [Hlo Hhi].
  { split; [apply Z.log2_nonneg|]. apply Z.log2_lt_pow2; lia. }
  assert (2 ^ Z.log2 (Zpos n) <= Zpos n)%Z as Hpow
    by (apply Z.log2_spec; lia).
  assert (Double.ge_pow2 n 1 (Z.log2 (Zpos n)) = true) as ->.
  { unfold Double.ge_pow2.
    destruct (Z.leb_spec 0 (Z.log2 (Zpos n))) as [_|?]; [|lia].
    apply Z.leb_le. lia. }
  cbv zeta.
  rewrite Z.max_l by lia.
  destruct (Z.leb_spec 0 (Z.log2 (Zpos n) - 52)) as [Hq|Hq].
  - assert (Z.log2 (Zpos n) - 52 = 0)%Z as -> by lia.
    change (1 * 2 ^ 0)%Z with 1%Z. rewrite nearest_even_exact.
    change (2 ^ 0)%Z with 1%Z. rewrite Z.mul_1_r.
    destruct (Z.leb_spec (2 ^ 1024) (Zpos n)) as [Hbig|_].
    + assert (2 ^ 53 < 2 ^ 1024)%Z by (apply Z.pow_lt_mono_r; lia). lia.
    + eexists. split; reflexivity.
  - rewrite nearest_even_exact. eexists. split; [reflexivity|].
    unfold Qeq. simpl Qnum. simpl Qden.
    assert (0 < 2 ^ (- (Z.log2 (Zpos n) - 52)))%Z as Hpos
      by (apply Z.pow_pos_nonneg; lia).
    rewrite Z2Pos.id by exact Hpos. lia.
Qed.

(** An integer of magnitude below [2 ^ 53] is a double. *)
Lemma round_integer (z : Z) :
  (Z.abs z < 2 ^ 53)%Z ->
  exists q, Double.round (Qmake z 1) = Double.Finite q /\ q == inject_Z z.
Proof.
  intros Hz. unfold Double.round. simpl Qnum. simpl Qden.
  destruct z as [|n|n].
  - eexists. split; reflexivity.
  - destruct (round_pos_integer n) as (q & -> & Hq); [lia|]. by exists q.
  - destruct (round_pos_integer n) as (q & -> & Hq); [lia|].
    exists (- q)%Q. split; [done|]. rewrite Hq. reflexivity.
Qed.

(** On integers of magnitude below [2 ^ 53], the comparison of the
    rounded values is the comparison of the integers. *)
Lemma ltb_round_integers (a b : Z) :
  (Z.abs a < 2 ^ 53)%Z -> (Z.abs b < 2 ^ 53)%Z ->
  Double.ltb (Double.round (Qmake a 1)) (Double.round (Qmake b 1))
  = (a <? b)%Z.
Proof.
  intros Ha Hb.
  destruct (round_integer a Ha) as (x & -> & Hx).
  destruct (round_integer b Hb) as (y & -> & Hy).
  simpl. apply eq_true_iff_eq. rewrite Qltb_lt, Hx, Hy, <- Zlt_Qlt.
  symmetry. apply Z.ltb_lt.
Qed.

(** The freshness test on whole numbers: with the two times and the time
    to live integers, the difference and the product below [2 ^ 53] in
    magnitude, the test in doubles is the test on the integers. *)
Lemma freshness_test_exact (now t ttl : Z) :
  (Z.abs (now - t) < 2 ^ 53)%Z -> (Z.abs (ttl * 1000) < 2 ^ 53)%Z ->
  Double.ltb (Double.sub (inject_Z now) (inject_Z t))
             (Double.mul (inject_Z ttl) 1000)
  = (now - t <? ttl * 1000)%Z.
Proof.
  intros Ha Hb. unfold Double.sub, Double.mul.
  assert (inject_Z now - inject_Z t = Qmake (now - t) 1)%Q as ->.
  { unfold Qminus, Qplus, Qopp, inject_Z. simpl. f_equal. lia. }
  assert (inject_Z ttl * 1000 = Qmake (ttl * 1000) 1)%Q as ->.
  { unfold Qmult, inject_Z. simpl. reflexivity. }
  by apply ltb_round_integers.
Qed.

End double_facts.

Section cache_properties.
Context `{!Host}.
Implicit Types (w : World) (s : string).

Lemma elapsed_lt_num (now t : Q) (bound : Double.t) :
  elapsed_lt now (VNum t) bound = Double.ltb (Double.sub now t) bound.
Proof. unfold elapsed_lt. by rewrite ToNumber_num. Qed.

(** An entry as it is read from the store: the text, the value it denotes
    and its timestamp. *)
Lemma cached_entry_read s entry t :
  JSON_parse s = Returned entry ->
  js_get entry "timestamp" = VNum t ->
  is_empty_string s = false
  /\ prop entry "timestamp" = Returned (VNum t)
  /\ prop entry "data" = Returned (js_get entry "data").
Proof.
  intros Hparse Hts. split; [by apply (parsed_nonempty s entry)|].
  destruct entry; try done. simpl in *. by rewrite Hts.
Qed.

(** What step 1 makes of an entry with a number as timestamp: its data,
    when the test of the code holds. *)
Lemma fresh_of_entry s entry t now ttlSeconds :
  JSON_parse s = Returned entry ->
  js_get entry "timestamp" = VNum t ->
  fresh_of now ttlSeconds (Some s)
  = if Double.ltb (Double.sub now t) (Double.mul ttlSeconds 1000)
    then Some (js_get entry "data") else None.
Proof.
  intros Hparse Hts.
  destruct (cached_entry_read s entry t Hparse Hts) as (Hs & Hprop & _).
  unfold fresh_of. by rewrite Hs, Hparse, Hprop, elapsed_lt_num.
Qed.

(** C7 (amended): when the entry stored for the key passes the test
    [now - timestamp < ttlSeconds * 1000] as the code evaluates it, in
    double-precision arithmetic, [safeFetch] returns its data and leaves
    the world as it was; in particular no request is issued. *)
Theorem fresh_entry_served_without_network
    w key url ttlSeconds fallbackData now net s entry t :
  fst (safeStorage.getItem (String.append CACHE_PREFIX key) w)
  = Returned (Some s) ->
  JSON_parse s = Returned entry ->
  js_get entry "timestamp" = VNum t ->
  Double.ltb (Double.sub now t) (Double.mul (default 300%Q ttlSeconds) 1000)
  = true ->
  safeFetch key url ttlSeconds fallbackData now net w
  = (Returned (js_get entry "data"), w)
  /\ requests (snd (safeFetch key url ttlSeconds fallbackData now net w))
     = requests w.
Proof.
  intros Hget Hparse Hts Hfresh.
  rewrite (safeFetch_spec w key url ttlSeconds fallbackData now net (Some s))
    by done.
  by rewrite (fresh_of_entry s entry t) by done; rewrite Hfresh.
Qed.

(** C5: when the entry stored for the key has outlived the time to live
    and the network call fails, [safeFetch] returns the data of that
    entry, whatever fallback was supplied. *)
Theorem stale_entry_served_on_failure
    w key url ttlSeconds fallbackData now net s entry t :
  fst (safeStorage.getItem (String.append CACHE_PREFIX key) w)
  = Returned (Some s) ->
  JSON_parse s = Returned entry ->
  js_get entry "timestamp" = VNum t ->
  (default 300 ttlSeconds * 1000 <= now - t)%Q ->
  network_fails net ->
  fst (safeFetch key url ttlSeconds fallbackData now net w)
  = Returned (js_get entry "data").
Proof.
  intros Hget Hparse Hts Hold Hnet.
  destruct (cached_entry_read s entry t Hparse Hts) as (Hs & Hprop & Hdata).
  rewrite (safeFetch_spec w key url ttlSeconds fallbackData now net (Some s))
    by done.
  rewrite (fresh_of_entry s entry t) by done.
  destruct (Double.ltb _ _); [done|].
  unfold stale_of. rewrite Hs, Hparse, Hdata.
  by destruct (network_fails_outcome net Hnet) as [e ->].
Qed.

(** C6: with nothing stored for the key and a failing network call,
    [safeFetch] returns [fallbackData || null]: the fallback when it is
    truthy, and [null] when it is omitted, but also when it is a falsy
    value such as [0], [""] or [false]. *)
Theorem no_entry_failure_returns_fallback_or_null
    w key url ttlSeconds fallbackData now net :
  fst (safeStorage.getItem (String.append CACHE_PREFIX key) w)
  = Returned None ->
  network_fails net ->
  fst (safeFetch key url ttlSeconds fallbackData now net w)
  = Returned (if truthy fallbackData then fallbackData else VNull).
Proof.
  intros Hget Hnet.
  rewrite (safeFetch_spec w key url ttlSeconds fallbackData now net None)
    by done.
  cbn [fresh_of stale_of].
  by destruct (network_fails_outcome net Hnet) as [e ->].
Qed.

(** C3: [getStoredData] and [safeFetch] return a value from every world:
    the former a usable configuration whatever is stored, the latter
    whatever the cache holds and whatever the network does. *)
Theorem load_and_fetch_never_throw
    w random_id now key url ttlSeconds fallbackData net :
  (exists v w',
     getStoredData random_id now w = (Returned v, w') /\ usable v)
  /\ (exists v w',
        safeFetch key url ttlSeconds fallbackData now net w = (Returned v, w')).
Proof.
  split; [apply getStoredData_total|apply safeFetch_total].
Qed.

End cache_properties.

(** A browser whose [localStorage] holds a cache entry for [key]. *)
Definition cached_world (key : string) (data : value) (timestamp : Q) : World :=
  mkWorld
    (mkLocalStorage
       {[String.append CACHE_PREFIX key :=
           @JSON_stringify ref_host
             (VObj [("data", data); ("timestamp", VNum timestamp)])]}
       false false)
    ∅ [] [].

(** An entry written 100 seconds before the call, with a time to live of
    300 seconds. *)
Lemma fresh_entry_served_without_network_witness :
  @safeFetch ref_host "weather" "https://example.org/weather" (Some 300%Q)
    VUndefined 1700000100000 (Rejected SecurityError)
    (cached_world "weather" (VStr "sunny") 1700000000000)
  = (Returned (VStr "sunny"), cached_world "weather" (VStr "sunny") 1700000000000).
Proof.
  refine (proj1 (@fresh_entry_served_without_network ref_host
                   (cached_world "weather" (VStr "sunny") 1700000000000)
                   "weather" "https://example.org/weather" (Some 300%Q)
                   VUndefined 1700000100000 (Rejected SecurityError)
                   _ (VObj [("data", VStr "sunny");
                            ("timestamp", VNum 1700000000000)])
                   1700000000000 _ _ _ _)).
  - reflexivity.
  - vm_compute. reflexivity.
  - reflexivity.
  - reflexivity.
Defined.

(** The double nearest to [0.1]. *)
Definition tenth : Q := 7205759403792794 # 72057594037927936.

(** C7, with its test read over the reals, fails on the code.  With a time
    to live of [0.1] seconds and an entry written 100 milliseconds before
    the call, [now - timestamp] is 100 and [ttlSeconds * 1000] is more
    than 100; but the product is rounded to 100, the test of the code is
    [100 < 100], and the call goes to the network. *)
Lemma inexact_time_to_live_counterexample :
  let w := cached_world "weather" (VStr "sunny") 1700000000000 in
  let run := @safeFetch ref_host "weather" "https://example.org/weather"
               (Some tenth) VUndefined 1700000000100
               (Response true 200 (Returned (VStr "rainy"))) w in
  Double.round tenth = Double.Finite tenth
  /\ (1700000000100 - 1700000000000 < tenth * 1000)%Q
  /\ Double.mul tenth 1000 = Double.round 100
  /\ fst run = Returned (VStr "rainy")
  /\ requests (snd run) = ["https://example.org/weather"].
Proof. vm_compute. done. Qed.

(** An entry written 1000 seconds before the call, a time to live of 300
    seconds and a server that answers 500. *)
Lemma stale_entry_served_on_failure_witness :
  fst (@safeFetch ref_host "weather" "https://example.org/weather" (Some 300%Q)
         (VStr "fallback") 1700001000000 (Response false 500 (Returned VNull))
         (cached_world "weather" (VStr "sunny") 1700000000000))
  = Returned (VStr "sunny").
Proof.
  refine (@stale_entry_served_on_failure ref_host
            (cached_world "weather" (VStr "sunny") 1700000000000)
            "weather" "https://example.org/weather" (Some 300%Q)
            (VStr "fallback") 1700001000000 (Response false 500 (Returned VNull))
            _ (VObj [("data", VStr "sunny");
                     ("timestamp", VNum 1700000000000)])
            1700000000000 _ _ _ _ _).
  - reflexivity.
  - vm_compute. reflexivity.
  - reflexivity.
  - vm_compute. discriminate.
  - left. reflexivity.
Defined.

(** Nothing cached, a server that answers 500 and the fallback [0]: the
    call returns [null], not [0]. *)
Lemma no_entry_failure_returns_fallback_or_null_witness :
  fst (@safeFetch ref_host "visitors" "https://example.org/count" (Some 300%Q)
         (VNum 0) 1700000000000 (Response false 500 (Returned VNull))
         fresh_world)
  = Returned VNull.
Proof.
  refine (@no_entry_failure_returns_fallback_or_null ref_host fresh_world
            "visitors" "https://example.org/count" (Some 300%Q) (VNum 0)
            1700000000000 (Response false 500 (Returned VNull)) _ _).
  - reflexivity.
  - left. reflexivity.
Defined.

(** ** Typed configurations are JSON data *)

Definition fields_data (ps : list (string * value)) : Prop :=
  Forall (fun kv => json_data (snd kv)) ps.

Lemma json_data_str s : json_data (VStr s).
Proof. done. Qed.
Lemma fields_data_nil : fields_data [].
Proof. constructor. Qed.

Lemma fields_data_cons k x ps :
  json_data x -> fields_data ps -> fields_data ((k, x) :: ps).
Proof. intros. by constructor. Qed.

Lemma fields_data_app ps qs :
  fields_data ps -> fields_data qs -> fields_data (ps ++ qs).
Proof. apply Forall_app_2. Qed.

Lemma fields_data_opt {A : Type} k (f : A -> value) (o : option A) :
  (forall a, o = Some a -> json_data (f a)) -> fields_data (opt_field k f o).
Proof.
  intros Hf. destruct o as [a|]; [|constructor].
  apply fields_data_cons; [by apply Hf|constructor].
Qed.

Lemma json_data_map {A : Type} (f : A -> value) (l : list A) :
  Forall (fun a => json_data (f a)) l -> json_data (VArr (List.map f l)).
Proof. intros Hl. apply json_data_array. by apply Forall_map. Qed.

(** The fields of a record, one after the other; optional fields are left
    to the caller when their content is not a scalar. *)
Ltac json_record :=
  apply json_data_object;
  repeat first
    [ apply fields_data_nil
    | apply fields_data_cons; [try done|]
    | apply fields_data_app
    | apply fields_data_opt; intros ? ?; try done ].

Lemma Theme_data x : json_data (Theme.to_value x).
Proof. unfold Theme.to_value. json_record. Qed.

Lemma Announcement_data x : json_data (Announcement.to_value x).
Proof. unfold Announcement.to_value. json_record. Qed.

Lemma CategoryDefinition_data x : json_data (CategoryDefinition.to_value x).
Proof. unfold CategoryDefinition.to_value. json_record. Qed.

Lemma Event_data x : json_data (Event.to_value x).
Proof. unfold Event.to_value. json_record. Qed.

Lemma GridItemConfig_data x : json_data (GridItemConfig.to_value x).
Proof. unfold GridItemConfig.to_value. json_record. Qed.

Lemma CustomWidgetDefinition_data x :
  json_data (CustomWidgetDefinition.to_value x).
Proof. unfold CustomWidgetDefinition.to_value. json_record. Qed.

Lemma WeatherConfig_data x : json_data (WeatherConfig.to_value x).
Proof. unfold WeatherConfig.to_value. json_record. Qed.

Lemma Socials_data x : json_data (Socials.to_value x).
Proof. unfold Socials.to_value. json_record. Qed.

Lemma EmergencyAlert_data x : json_data (EmergencyAlert.to_value x).
Proof. unfold EmergencyAlert.to_value. json_record. Qed.

Lemma WidgetConfig_data x :
  (forall s, WidgetConfig.settings x = Some s -> json_data s) ->
  json_data (WidgetConfig.to_value x).
Proof. intros Hs. unfold WidgetConfig.to_value. json_record. by apply Hs. Qed.

Lemma Page_data x :
  (forall ws, Page.widgets x = Some ws ->
     Forall (fun kw =>
       forall s, WidgetConfig.settings (snd kw) = Some s -> json_data s) ws) ->
  json_data (Page.to_value x).
Proof.
  intros Hws. unfold Page.to_value. json_record.
  - apply json_data_map, Forall_forall. intros g _.
    apply GridItemConfig_data.
  - apply json_data_object, Forall_map.
    eapply Forall_impl; [by apply Hws|].
    intros [k wc] Hwc. by apply WidgetConfig_data.
Qed.

Lemma AppData_durable_data c :
  settings_are_json c -> json_data (VObj (AppData.durable c)).
Proof.
  intros Hs. unfold AppData.durable. json_record;
    first
      [ apply Theme_data | apply Socials_data | apply EmergencyAlert_data
      | apply WeatherConfig_data
      | apply json_data_map; eapply Forall_impl; [exact Hs|];
        intros p Hp; by apply Page_data
      | apply json_data_map, Forall_forall; intros x _;
        first [ apply Announcement_data | apply Event_data
              | apply CategoryDefinition_data
              | apply CustomWidgetDefinition_data | apply json_data_str ] ].
Qed.

(** * Further properties of the services *)

(** ** The migrations of [getStoredData] *)

(** The object has no own property named [k]. *)
Definition lacks (k : string) (v : value) : bool :=
  match v with
  | VObj ps => forallb (fun kv => negb (String.eqb k (fst kv))) ps
  | _ => true
  end.

Section object_facts.
Implicit Types (v x d p : value) (k : string) (ps : list (string * value)).

Lemma assoc_lacks k ps :
  forallb (fun kv => negb (String.eqb k (fst kv))) ps = true -> assoc k ps = None.
Proof.
  induction ps as [|[k' y] ps IH]; simpl; [done|].
  destruct (String.eqb k k'); [done|]. apply IH.
Qed.

Lemma lacks_get k v : lacks k v = true -> js_get v k = VUndefined.
Proof. destruct v; try done. simpl. intros Hl. by rewrite assoc_lacks. Qed.

Lemma lacks_delete_eq k v : lacks k (js_delete v k) = true.
Proof.
  destruct v as [| | | | | |ps]; try done. simpl.
  induction ps as [|[k' y] ps IH]; simpl; [done|].
  destruct (String.eqb k k') eqn:E; simpl; [done|]. by rewrite E.
Qed.

Lemma lacks_delete_ne k k' v :
  String.eqb k k' = false -> lacks k (js_delete v k') = lacks k v.
Proof.
  intros Hne. destruct v as [| | | | | |ps]; try done. simpl.
  induction ps as [|[k0 y] ps IH]; simpl; [done|].
  destruct (String.eqb k' k0) eqn:E; simpl.
  - apply String.eqb_eq in E as <-. by rewrite Hne.
  - by rewrite IH.
Qed.

Lemma lacks_set_ne k k' x v :
  String.eqb k k' = false -> lacks k (js_set v k' x) = lacks k v.
Proof.
  intros Hne. destruct v as [| | | | | |ps]; try done. simpl.
  induction ps as [|[k0 y] ps IH]; simpl.
  - by rewrite Hne.
  - destruct (String.eqb k' k0) eqn:E; simpl; [done|]. by rewrite IH.
Qed.

(** Deleting a property that the object lacks changes nothing. *)
Lemma js_delete_lacks k v : lacks k v = true -> js_delete v k = v.
Proof.
  destruct v as [| | | | | |ps]; try done. simpl. intros Hl. f_equal.
  induction ps as [|[k0 y] ps IH]; simpl in *; [done|].
  apply andb_prop in Hl as [Hk Hl]. rewrite Hk. by rewrite IH.
Qed.

(** Writing to a property the value it already has changes nothing. *)
Lemma js_set_same k x v :
  js_get v k = x -> x <> VUndefined -> js_set v k x = v.
Proof.
  destruct v as [| | | | | |ps]; try done. simpl. intros Hg Hx. f_equal.
  induction ps as [|[k0 y] ps IH]; simpl in *; [congruence|].
  destruct (String.eqb k k0); [by subst|]. by rewrite IH.
Qed.

Lemma assoc_set_twice k x y ps :
  assoc_set k x (assoc_set k y ps) = assoc_set k x ps.
Proof.
  induction ps as [|[k0 z] ps IH]; simpl.
  - by rewrite String.eqb_refl.
  - destruct (String.eqb k k0) eqn:E; simpl; rewrite E; [done|]. by rewrite IH.
Qed.

Lemma truthy_defined x : truthy x = true -> is_undefined x = false.
Proof. by destruct x. Qed.

Lemma truthy_object_get v k : truthy (js_get v k) = true -> is_object v = true.
Proof. intros Ht. apply (js_get_object v k). by destruct (js_get v k). Qed.

Lemma fill_falsy_truthy k d p :
  is_object p = true -> truthy d = true ->
  truthy (js_get (fill_falsy k d p) k) = true.
Proof.
  intros Hobj Hd. unfold fill_falsy.
  destruct (truthy (js_get p k)) eqn:Ht; simpl; [done|].
  by rewrite js_get_set_eq.
Qed.

Lemma fill_undefined_defined k d p :
  is_object p = true -> is_undefined d = false ->
  is_undefined (js_get (fill_undefined k d p) k) = false.
Proof.
  intros Hobj Hd. unfold fill_undefined.
  destruct (is_undefined (js_get p k)) eqn:Ht; [|done].
  by rewrite js_get_set_eq.
Qed.

Lemma migrate_liveCamUrls_truthy p :
  is_object p = true ->
  truthy (js_get (migrate_liveCamUrls p) "liveCamUrls") = true.
Proof.
  intros Hobj. unfold migrate_liveCamUrls.
  destruct (truthy (js_get p "liveCamUrls")) eqn:Ht; simpl; [done|].
  destruct (truthy (js_get p "liveCamUrl")); by rewrite js_get_set_eq.
Qed.

Lemma lacks_fill_falsy_ne k k' d p :
  String.eqb k k' = false -> lacks k (fill_falsy k' d p) = lacks k p.
Proof.
  intros Hne. unfold fill_falsy.
  destruct (negb (truthy (js_get p k'))); [by apply lacks_set_ne|done].
Qed.

Lemma lacks_fill_undefined_ne k k' d p :
  String.eqb k k' = false -> lacks k (fill_undefined k' d p) = lacks k p.
Proof.
  intros Hne. unfold fill_undefined.
  destruct (is_undefined (js_get p k')); [by apply lacks_set_ne|done].
Qed.

(** A property with a truthy value is left alone by every filling step,
    whatever the step fills. *)
Lemma fill_falsy_keeps k k' d p :
  truthy (js_get p k) = true -> js_get (fill_falsy k' d p) k = js_get p k.
Proof.
  intros Ht. unfold fill_falsy.
  destruct (truthy (js_get p k')) eqn:Ht'; simpl; [done|].
  apply js_get_set_ne. destruct (String.eqb_spec k k') as [->|]; congruence.
Qed.

Lemma fill_undefined_keeps k k' d p :
  is_undefined (js_get p k) = false ->
  js_get (fill_undefined k' d p) k = js_get p k.
Proof.
  intros Ht. unfold fill_undefined.
  destruct (is_undefined (js_get p k')) eqn:Ht'; [|done].
  apply js_get_set_ne. destruct (String.eqb_spec k k') as [->|]; congruence.
Qed.

Lemma migrate_liveCamUrls_keeps k p :
  truthy (js_get p k) = true -> js_get (migrate_liveCamUrls p) k = js_get p k.
Proof.
  intros Ht. unfold migrate_liveCamUrls.
  destruct (truthy (js_get p "liveCamUrls")) eqn:Ht'; simpl; [done|].
  assert (String.eqb k "liveCamUrls" = false) as Hne
    by (destruct (String.eqb_spec k "liveCamUrls") as [->|]; congruence).
  destruct (truthy (js_get p "liveCamUrl")); by apply js_get_set_ne.
Qed.

End object_facts.

#[local] Hint Rewrite
  lacks_delete_ne lacks_set_ne lacks_fill_falsy_ne lacks_fill_undefined_ne
  using reflexivity : js.

Lemma lacks_migrate_liveCamUrls_ne k p :
  String.eqb k "liveCamUrls" = false ->
  lacks k (migrate_liveCamUrls p) = lacks k p.
Proof.
  intros Hne. unfold migrate_liveCamUrls.
  destruct (negb (truthy (js_get p "liveCamUrls"))); [|done].
  destruct (truthy (js_get p "liveCamUrl")); by apply lacks_set_ne.
Qed.

#[local] Hint Rewrite lacks_migrate_liveCamUrls_ne using reflexivity : js.

Section migration_shape.
Context `{!Host}.
Implicit Types (p q v : value) (k : string).

(** The migrations that run before the pages are handled, and those that
    run after. *)
Definition migrate_before p : value :=
  js_delete
    (js_delete
       (js_delete
          (migrate_liveCamUrls
             (fill_undefined "pageDuration" (num 60)
                (fill_undefined "enableLiveCam" (VBool false)
                   (fill_falsy "tickerItems" DEFAULT_tickerItems
                      (fill_falsy "theme" DEFAULT_theme p)))))
          "liveCamUrl")
       "homeLayout")
    "homeWidgets".

Definition migrate_after q : value :=
  js_set
    (fill_falsy "customWidgets" DEFAULT_customWidgets
       (fill_falsy "eventCategories" DEFAULT_eventCategories
          (fill_undefined "weatherConfig" DEFAULT_weatherConfig
             (fill_undefined "emergency" DEFAULT_emergency
                (fill_undefined "socials" DEFAULT_socials q)))))
    "isSafeMode" (VBool false).

(** [check_and_migrate], with its two runs of migrations named. *)
Lemma check_and_migrate_eq p :
  check_and_migrate p
  = (pages ← prop p "pages";
     if negb (truthy pages)
        || negb (truthy (js_get p "theme"))
        || negb (truthy (js_get p "schoolName"))
     then Thrown (new_Error "Configuration structure is incomplete or corrupted.")
     else q ← migrate_pages (migrate_before p); Returned (migrate_after q)).
Proof. reflexivity. Qed.

Lemma migrate_before_pages p :
  js_get (migrate_before p) "pages" = js_get p "pages".
Proof. unfold migrate_before. by autorewrite with js. Qed.

(** [check_and_migrate] succeeds exactly when the three checked properties
    are truthy and every page can be normalised; its result is then the
    value with the normalised pages between the two runs of migrations. *)
Lemma check_and_migrate_shape p v :
  check_and_migrate p = Returned v <->
  truthy (js_get p "pages") = true
  /\ truthy (js_get p "theme") = true
  /\ truthy (js_get p "schoolName") = true
  /\ exists pages,
       array_map normalize_page (js_get p "pages") = Returned pages
       /\ v = migrate_after (js_set (migrate_before p) "pages" pages).
Proof.
  rewrite check_and_migrate_eq. unfold migrate_pages.
  rewrite migrate_before_pages. split.
  - destruct (prop p "pages") as [pages|e] eqn:Hprop; [|done].
    assert (pages = js_get p "pages") as ->
      by (destruct p; simpl in *; congruence).
    cbn [mbind outcome_bind].
    destruct (truthy (js_get p "pages")) eqn:Hpages; [|done].
    destruct (truthy (js_get p "theme")) eqn:Htheme; [|done].
    destruct (truthy (js_get p "schoolName")) eqn:Hname; [|done].
    cbn [negb orb].
    destruct (array_map normalize_page (js_get p "pages")) as [pages|e]; [|done].
    cbn [fmap outcome_fmap mbind outcome_bind]. intros Heq.
    split; [done|]. split; [done|]. split; [done|].
    exists pages. split; [done|]. congruence.
  - intros (Hpages & Htheme & Hname & pages & Hmap & ->).
    assert (prop p "pages" = Returned (js_get p "pages")) as ->
      by (apply truthy_object_get in Hpages; by destruct p).
    cbn [mbind outcome_bind]. rewrite Hpages, Htheme, Hname, Hmap.
    reflexivity.
Qed.

Lemma is_object_migrate_before p :
  is_object (migrate_before p) = is_object p.
Proof. unfold migrate_before. by autorewrite with js. Qed.

Lemma is_object_migrate_after q : is_object (migrate_after q) = is_object q.
Proof. unfold migrate_after. by autorewrite with js. Qed.

End migration_shape.

#[local] Hint Rewrite lacks_delete_eq : js.

Section migration_properties.
Context `{!Host}.
Implicit Types (p q v x : value) (k : string).

Lemma js_or_truthy a b : truthy b = true -> truthy (js_or a b) = true.
Proof. intros Hb. unfold js_or. by destruct (truthy a) eqn:Ha. Qed.

(** The page callback leaves its own results alone. *)
Lemma normalize_page_idempotent x y :
  normalize_page x = Returned y -> normalize_page y = Returned y.
Proof.
  unfold normalize_page.
  destruct (prop x "type") as [t|e]; [|done].
  cbn [mbind outcome_bind]. intros [= <-].
  remember (js_or t (VStr "standard")) as t' eqn:Et.
  assert (truthy t' = true) as Ht by (subst t'; by apply js_or_truthy).
  clear Et.
  cbn [prop spread js_get mbind outcome_bind].
  rewrite assoc_set_eq. cbn [default].
  unfold id, js_or. rewrite Ht. by rewrite assoc_set_twice.
Qed.

Lemma map_normalize_page_idempotent (l l' : list value) :
  map_outcome normalize_page l = Returned l' ->
  map_outcome normalize_page l' = Returned l'.
Proof.
  revert l'. induction l as [|x l IH]; intros l'; simpl.
  - by intros [= <-].
  - destruct (normalize_page x) as [y|e] eqn:Hx; [|done].
    destruct (map_outcome normalize_page l) as [ys|e]; [|done].
    intros [= <-]. simpl.
    by rewrite (normalize_page_idempotent x y Hx), (IH ys eq_refl).
Qed.

(** What holds of every configuration that [check_and_migrate] returns. *)
Record Migrated v : Prop := {
  mig_object : is_object v = true;
  mig_theme : truthy (js_get v "theme") = true;
  mig_schoolName : truthy (js_get v "schoolName") = true;
  mig_tickerItems : truthy (js_get v "tickerItems") = true;
  mig_enableLiveCam : is_undefined (js_get v "enableLiveCam") = false;
  mig_pageDuration : is_undefined (js_get v "pageDuration") = false;
  mig_liveCamUrls : truthy (js_get v "liveCamUrls") = true;
  mig_liveCamUrl : lacks "liveCamUrl" v = true;
  mig_homeLayout : lacks "homeLayout" v = true;
  mig_homeWidgets : lacks "homeWidgets" v = true;
  mig_pages : exists l,
    js_get v "pages" = VArr l /\ map_outcome normalize_page l = Returned l;
  mig_socials : is_undefined (js_get v "socials") = false;
  mig_emergency : is_undefined (js_get v "emergency") = false;
  mig_weatherConfig : is_undefined (js_get v "weatherConfig") = false;
  mig_eventCategories : truthy (js_get v "eventCategories") = true;
  mig_customWidgets : truthy (js_get v "customWidgets") = true;
  mig_isSafeMode : js_get v "isSafeMode" = VBool false
}.

Ltac peel := unfold migrate_after, migrate_before; autorewrite with js.

Lemma check_and_migrate_migrated p v :
  check_and_migrate p = Returned v -> Migrated v.
Proof.
  intros (Hpages & Htheme & Hname & pages & Hmap & ->)%check_and_migrate_shape.
  assert (is_object p = true) as Hobj by (by apply (truthy_object_get p "pages")).
  assert (is_object (migrate_before p) = true) as Hb
    by (by rewrite is_object_migrate_before).
  split.
  - by rewrite is_object_migrate_after, is_object_set.
  - peel. by rewrite fill_falsy_present.
  - by peel.
  - peel. apply fill_falsy_truthy; [by autorewrite with js|done].
  - peel. apply fill_undefined_defined; [by autorewrite with js|done].
  - peel. apply fill_undefined_defined; [by autorewrite with js|done].
  - peel. apply migrate_liveCamUrls_truthy. by autorewrite with js.
  - by peel.
  - by peel.
  - by peel.
  - destruct (js_get p "pages") as [| | | | |l|] eqn:Hp; try done.
    simpl in Hmap.
    destruct (map_outcome normalize_page l) as [l'|e] eqn:Hl; [|done].
    injection Hmap as <-. exists l'. split.
    + unfold migrate_after. autorewrite with js. by rewrite js_get_set_eq.
    + by apply (map_normalize_page_idempotent l).
  - unfold migrate_after. autorewrite with js.
    apply fill_undefined_defined; [by autorewrite with js|done].
  - unfold migrate_after. autorewrite with js.
    apply fill_undefined_defined; [by autorewrite with js|done].
  - unfold migrate_after. autorewrite with js.
    apply fill_undefined_defined; [by autorewrite with js|done].
  - unfold migrate_after. autorewrite with js.
    apply fill_falsy_truthy; [by autorewrite with js|done].
  - unfold migrate_after. autorewrite with js.
    apply fill_falsy_truthy; [by autorewrite with js|done].
  - unfold migrate_after. rewrite js_get_set_eq; [done|].
    by autorewrite with js.
Qed.

Lemma migrated_fixed v : Migrated v -> check_and_migrate v = Returned v.
Proof.
  intros [Hobj Hth Hsn Hti Hel Hpd Hlc Hl1 Hl2 Hl3 (l & Hpages & Hmap)
            Hso Hem Hwc Hec Hcw Hsafe].
  apply check_and_migrate_shape.
  split; [by rewrite Hpages|]. split; [done|]. split; [done|].
  exists (VArr l). split.
  - rewrite Hpages. simpl. by rewrite Hmap.
  - assert (migrate_before v = v) as ->.
    { unfold migrate_before.
      rewrite (fill_falsy_present "theme") by done.
      rewrite (fill_falsy_present "tickerItems") by done.
      rewrite (fill_undefined_present "enableLiveCam") by done.
      rewrite (fill_undefined_present "pageDuration") by done.
      rewrite migrate_liveCamUrls_present by done.
      rewrite (js_delete_lacks "liveCamUrl" v) by done.
      rewrite (js_delete_lacks "homeLayout" v) by done.
      by rewrite (js_delete_lacks "homeWidgets" v). }
    rewrite (js_set_same "pages" (VArr l) v) by done.
    unfold migrate_after.
    rewrite (fill_undefined_present "socials") by done.
    rewrite (fill_undefined_present "emergency") by done.
    rewrite (fill_undefined_present "weatherConfig") by done.
    rewrite (fill_falsy_present "eventCategories") by done.
    rewrite (fill_falsy_present "customWidgets") by done.
    by rewrite (js_set_same "isSafeMode" (VBool false) v).
Qed.

(** X1: the migrations are idempotent: checking and migrating a
    configuration that came out of [check_and_migrate] returns it
    unchanged. *)
Theorem check_and_migrate_idempotent p v :
  check_and_migrate p = Returned v -> check_and_migrate v = Returned v.
Proof. intros Hv. by apply migrated_fixed, (check_and_migrate_migrated p). Qed.

End migration_properties.

Lemma check_and_migrate_idempotent_witness :
  exists v,
    @check_and_migrate ref_host
      (VObj [("schoolName", VStr "Hill School"); ("theme", VObj []);
             ("liveCamUrl", VStr "https://cam.example/1");
             ("pages", VArr [VObj [("id", VStr "p1")]])])
    = Returned v
    /\ @check_and_migrate ref_host v = Returned v.
Proof.
  eexists. split; [vm_compute; reflexivity|].
  apply (@check_and_migrate_idempotent ref_host
           (VObj [("schoolName", VStr "Hill School"); ("theme", VObj []);
                  ("liveCamUrl", VStr "https://cam.example/1");
                  ("pages", VArr [VObj [("id", VStr "p1")]])])).
  vm_compute. reflexivity.
Defined.

Section migration_results.
Context `{!Host}.
Implicit Types (p q v x d : value) (k : string).

Lemma fill_falsy_get_eq k d p :
  is_object p = true ->
  js_get (fill_falsy k d p) k = if truthy (js_get p k) then js_get p k else d.
Proof.
  intros Hobj. unfold fill_falsy.
  destruct (truthy (js_get p k)); simpl; [done|]. by rewrite js_get_set_eq.
Qed.

Lemma fill_undefined_get_eq k d p :
  is_object p = true ->
  js_get (fill_undefined k d p) k
  = if is_undefined (js_get p k) then d else js_get p k.
Proof.
  intros Hobj. unfold fill_undefined.
  destruct (is_undefined (js_get p k)); [|done]. by rewrite js_get_set_eq.
Qed.

Lemma migrate_liveCamUrls_get_eq p :
  is_object p = true ->
  js_get (migrate_liveCamUrls p) "liveCamUrls"
  = if truthy (js_get p "liveCamUrls") then js_get p "liveCamUrls"
    else if truthy (js_get p "liveCamUrl") then VArr [js_get p "liveCamUrl"]
    else DEFAULT_liveCamUrls.
Proof.
  intros Hobj. unfold migrate_liveCamUrls.
  destruct (truthy (js_get p "liveCamUrls")); simpl; [done|].
  destruct (truthy (js_get p "liveCamUrl")); by rewrite js_get_set_eq.
Qed.

(** X2: the legacy properties are migrated on read.  A loaded
    configuration has no [liveCamUrl], [homeLayout] or [homeWidgets]; its
    [liveCamUrls] is the stored list when there is one, else the one-element
    list made of the stored legacy [liveCamUrl], else the default list. *)
Theorem legacy_properties_migrated p v :
  check_and_migrate p = Returned v ->
  js_get v "liveCamUrl" = VUndefined
  /\ js_get v "homeLayout" = VUndefined
  /\ js_get v "homeWidgets" = VUndefined
  /\ js_get v "liveCamUrls"
     = (if truthy (js_get p "liveCamUrls") then js_get p "liveCamUrls"
        else if truthy (js_get p "liveCamUrl")
             then VArr [js_get p "liveCamUrl"]
             else DEFAULT_liveCamUrls).
Proof.
  intros Hv. pose proof (check_and_migrate_migrated p v Hv) as Hm.
  split; [apply lacks_get, Hm|]. split; [apply lacks_get, Hm|].
  split; [apply lacks_get, Hm|].
  apply check_and_migrate_shape in Hv
    as (Hpages & Htheme & Hname & pages & Hmap & ->).
  assert (is_object p = true) as Hobj by (by apply (truthy_object_get p "pages")).
  unfold migrate_after, migrate_before. autorewrite with js.
  rewrite migrate_liveCamUrls_get_eq by (by autorewrite with js).
  by autorewrite with js.
Qed.

(** X3: each optional property that is missing from the stored
    configuration is filled with its default, and each that is there is
    kept: [tickerItems], [eventCategories] and [customWidgets] are replaced
    when falsy, [enableLiveCam], [pageDuration], [socials], [emergency] and
    [weatherConfig] only when [undefined]. *)
Theorem missing_properties_get_defaults p v :
  check_and_migrate p = Returned v ->
  js_get v "tickerItems"
  = (if truthy (js_get p "tickerItems") then js_get p "tickerItems"
     else DEFAULT_tickerItems)
  /\ js_get v "eventCategories"
     = (if truthy (js_get p "eventCategories") then js_get p "eventCategories"
        else DEFAULT_eventCategories)
  /\ js_get v "customWidgets"
     = (if truthy (js_get p "customWidgets") then js_get p "customWidgets"
        else DEFAULT_customWidgets)
  /\ js_get v "enableLiveCam"
     = (if is_undefined (js_get p "enableLiveCam") then VBool false
        else js_get p "enableLiveCam")
  /\ js_get v "pageDuration"
     = (if is_undefined (js_get p "pageDuration") then num 60
        else js_get p "pageDuration")
  /\ js_get v "socials"
     = (if is_undefined (js_get p "socials") then DEFAULT_socials
        else js_get p "socials")
  /\ js_get v "emergency"
     = (if is_undefined (js_get p "emergency") then DEFAULT_emergency
        else js_get p "emergency")
  /\ js_get v "weatherConfig"
     = (if is_undefined (js_get p "weatherConfig") then DEFAULT_weatherConfig
        else js_get p "weatherConfig").
Proof.
  intros (Hpages & Htheme & Hname & pages & Hmap & ->)%check_and_migrate_shape.
  assert (is_object p = true) as Hobj by (by apply (truthy_object_get p "pages")).
  assert (is_object (migrate_before p) = true) as Hb
    by (by rewrite is_object_migrate_before).
  unfold migrate_after.
  repeat split; autorewrite with js.
  - unfold migrate_before. autorewrite with js.
    rewrite fill_falsy_get_eq by (by autorewrite with js).
    by autorewrite with js.
  - rewrite fill_falsy_get_eq by (by autorewrite with js).
    unfold migrate_before. by autorewrite with js.
  - rewrite fill_falsy_get_eq by (by autorewrite with js).
    unfold migrate_before. by autorewrite with js.
  - unfold migrate_before. autorewrite with js.
    rewrite fill_undefined_get_eq by (by autorewrite with js).
    by autorewrite with js.
  - unfold migrate_before. autorewrite with js.
    rewrite fill_undefined_get_eq by (by autorewrite with js).
    by autorewrite with js.
  - rewrite fill_undefined_get_eq by (by autorewrite with js).
    unfold migrate_before. by autorewrite with js.
  - rewrite fill_undefined_get_eq by (by autorewrite with js).
    unfold migrate_before. by autorewrite with js.
  - rewrite fill_undefined_get_eq by (by autorewrite with js).
    unfold migrate_before. by autorewrite with js.
Qed.

End migration_results.

Section migration_frame.
Context `{!Host}.
Implicit Types (p q v x d : value) (k : string).

Lemma migrate_before_keeps k p :
  truthy (js_get p k) = true ->
  String.eqb k "liveCamUrl" = false ->
  String.eqb k "homeLayout" = false ->
  String.eqb k "homeWidgets" = false ->
  js_get (migrate_before p) k = js_get p k.
Proof.
  intros Ht H1 H2 H3. unfold migrate_before.
  rewrite !js_get_delete_ne by done.
  set (p1 := fill_falsy "theme" DEFAULT_theme p).
  set (p2 := fill_falsy "tickerItems" DEFAULT_tickerItems p1).
  set (p3 := fill_undefined "enableLiveCam" (VBool false) p2).
  set (p4 := fill_undefined "pageDuration" (num 60) p3).
  assert (js_get p1 k = js_get p k) as E1 by (by apply fill_falsy_keeps).
  assert (js_get p2 k = js_get p k) as E2
    by (rewrite <- E1; apply fill_falsy_keeps; by rewrite E1).
  assert (js_get p3 k = js_get p k) as E3
    by (rewrite <- E2; apply fill_undefined_keeps, truthy_defined; by rewrite E2).
  assert (js_get p4 k = js_get p k) as E4
    by (rewrite <- E3; apply fill_undefined_keeps, truthy_defined; by rewrite E3).
  rewrite <- E4. apply migrate_liveCamUrls_keeps. by rewrite E4.
Qed.

Lemma migrate_after_keeps k q :
  truthy (js_get q k) = true ->
  String.eqb k "isSafeMode" = false ->
  js_get (migrate_after q) k = js_get q k.
Proof.
  intros Ht H1. unfold migrate_after. rewrite js_get_set_ne by done.
  set (q1 := fill_undefined "socials" DEFAULT_socials q).
  set (q2 := fill_undefined "emergency" DEFAULT_emergency q1).
  set (q3 := fill_undefined "weatherConfig" DEFAULT_weatherConfig q2).
  set (q4 := fill_falsy "eventCategories" DEFAULT_eventCategories q3).
  assert (js_get q1 k = js_get q k) as E1
    by (by apply fill_undefined_keeps, truthy_defined).
  assert (js_get q2 k = js_get q k) as E2
    by (rewrite <- E1; apply fill_undefined_keeps, truthy_defined; by rewrite E1).
  assert (js_get q3 k = js_get q k) as E3
    by (rewrite <- E2; apply fill_undefined_keeps, truthy_defined; by rewrite E2).
  assert (js_get q4 k = js_get q k) as E4
    by (rewrite <- E3; apply fill_falsy_keeps; by rewrite E3).
  rewrite <- E4. apply fill_falsy_keeps. by rewrite E4.
Qed.

(** X4: loading keeps what it does not migrate.  Whatever the name of a
    property, other than [pages], [isSafeMode] and the three legacy names,
    a truthy value stored under it is the value the loaded configuration
    has under it. *)
Theorem stored_properties_kept p v k :
  check_and_migrate p = Returned v ->
  k ∉ ["pages"; "isSafeMode"; "liveCamUrl"; "homeLayout"; "homeWidgets"] ->
  truthy (js_get p k) = true ->
  js_get v k = js_get p k.
Proof.
  intros (Hpages & Htheme & Hname & pages & Hmap & ->)%check_and_migrate_shape
    Hk Ht.
  repeat (apply not_elem_of_cons in Hk as [?%String.eqb_neq Hk]).
  assert (js_get (js_set (migrate_before p) "pages" pages) k = js_get p k) as E.
  { rewrite js_get_set_ne by done. by apply migrate_before_keeps. }
  rewrite <- E. apply migrate_after_keeps; [by rewrite E|done].
Qed.

(** The page callback on an object: a page with a truthy [type] is
    returned as it is, any other gets the type ["standard"]. *)
Lemma normalize_page_object x :
  is_object x = true ->
  normalize_page x
  = Returned (if truthy (js_get x "type") then x
              else js_set x "type" (VStr "standard")).
Proof.
  destruct x as [| | | | | |ps]; try done. intros _.
  unfold normalize_page. cbn [prop mbind outcome_bind spread]. unfold js_or.
  destruct (truthy (js_get (VObj ps) "type")) eqn:Ht; [|done].
  f_equal. apply (js_set_same "type" _ (VObj ps)); [done|].
  by destruct (js_get (VObj ps) "type").
Qed.

(** X5: the pages of a loaded configuration are the stored pages, in
    order, each with a type: a stored page that is an object with a truthy
    [type] is kept as it is, one without gets the type ["standard"]. *)
Theorem pages_get_a_type p v (l : list value) :
  check_and_migrate p = Returned v ->
  js_get p "pages" = VArr l ->
  Forall (fun x => is_object x = true) l ->
  js_get v "pages"
  = VArr ((fun x => if truthy (js_get x "type") then x
                    else js_set x "type" (VStr "standard")) <$> l).
Proof.
  intros (Hpages & Htheme & Hname & pages & Hmap & ->)%check_and_migrate_shape
    Hl Hobjs.
  assert (is_object p = true) as Hobj by (by apply (truthy_object_get p "pages")).
  unfold migrate_after. autorewrite with js.
  rewrite js_get_set_eq by (by rewrite is_object_migrate_before).
  rewrite Hl in Hmap. simpl in Hmap.
  destruct (map_outcome normalize_page l) as [l'|e] eqn:Hmo; [|done].
  injection Hmap as <-. f_equal. clear Hl.
  revert l' Hmo. induction Hobjs as [|x l Hx _ IH]; intros l'; simpl.
  - by intros [= <-].
  - rewrite normalize_page_object by done.
    destruct (map_outcome normalize_page l) as [ys|e]; [|done].
    intros [= <-]. by rewrite (IH ys eq_refl).
Qed.

Lemma map_normalize_page_no_null (l l' : list value) :
  map_outcome normalize_page l = Returned l' -> VNull ∉ l.
Proof.
  revert l'. induction l as [|x l IH]; intros l'; simpl.
  - intros _. apply not_elem_of_nil.
  - destruct (normalize_page x) as [y|e] eqn:Hx; [|done].
    destruct (map_outcome normalize_page l) as [ys|e]; [|done].
    intros _. apply not_elem_of_cons. split; [|by apply (IH ys)].
    intros <-. done.
Qed.

(** X6: a stored configuration whose [pages] is not an array, or is an
    array with a [null] element, is not loaded: [getStoredData] returns the
    default configuration in safe mode. *)
Theorem bad_pages_boot_safe_mode
    (w : World) (random_id : string) (now : Q) (s : string) p :
  fst (safeStorage.getItem STORAGE_KEY w) = Returned (Some s) ->
  JSON_parse s = Returned p ->
  match js_get p "pages" with
  | VArr l => VNull ∈ l
  | _ => True
  end ->
  fst (getStoredData random_id now w) = Returned SAFE_MODE_DATA.
Proof.
  intros Hget Hparse Hbad.
  rewrite (getStoredData_spec w random_id now (Some s)) by done.
  unfold load_outcome. rewrite (parsed_nonempty s p Hparse), Hparse.
  cbn [mbind outcome_bind].
  destruct (check_and_migrate p) as [v|e] eqn:Hv; [|done].
  apply check_and_migrate_shape in Hv as (Hpages & _ & _ & pages & Hmap & _).
  destruct (js_get p "pages") as [| | | | |l|]; try done.
  simpl in Hmap. destruct (map_outcome normalize_page l) as [l'|] eqn:Hl; [|done].
  by destruct (map_normalize_page_no_null l l' Hl).
Qed.

End migration_frame.

(** ** Saving, loading and resetting *)

(** [handleFactoryReset] of the admin dashboard: after confirmation,
    [safeStorage.clear()] and [window.location.reload()].  Reloading the
    page starts the modules afresh, so the module-level [memoryStorage]
    object is empty again. *)
Module AdminDashboard.

Definition reload : M () := fun w => (Returned (), with_memoryStorage ∅ w).

(** [confirmed] is the answer given to [window.confirm]. *)
Definition handleFactoryReset (confirmed : bool) : M () :=
  if confirmed then _ ← safeStorage.clear; reload else mret ().

End AdminDashboard.

Section save_load_reset.
Context `{!Host}.
Implicit Types (w : World) (data v : value).

Lemma flat_map_length_le {A B : Type} (g : A -> list B) (l : list A) :
  (forall a, length (g a) <= 1) -> length (List.flat_map g l) <= length l.
Proof.
  intros Hg. induction l as [|a l IH]; simpl; [done|].
  rewrite length_app. specialize (Hg a). lia.
Qed.

(** The properties of an object of JSON data, one of them removed, are
    JSON data still. *)
Lemma json_data_delete k (ps : list (string * value)) :
  json_data (VObj ps) -> json_data (VObj (assoc_delete k ps)).
Proof.
  intros [_ Hj]. split; [done|]. simpl in *. injection Hj as Hj. f_equal.
  induction ps as [|[k' x] ps IH]; [done|].
  cbn [List.flat_map] in Hj.
  assert (x <> VUndefined) as Hx.
  { intros ->. simpl in Hj. apply (f_equal length) in Hj. simpl in Hj.
    pose proof (flat_map_length_le
      (fun '(k, x) => match x with
                      | VUndefined => []
                      | _ => [(k, to_json x)]
                      end) ps) as Hle.
    assert (forall a : string * value,
              length (let '(k, x) := a in
                      match x with
                      | VUndefined => []
                      | _ => [(k, to_json x)]
                      end) <= 1) as Hone
      by (intros [? []]; simpl; lia).
    specialize (Hle Hone). lia. }
  assert (to_json x = x /\
          List.flat_map (fun '(k, x) => match x with
                                        | VUndefined => []
                                        | _ => [(k, to_json x)]
                                        end) ps = ps) as [Hjx Hps].
  { destruct x; try done; simpl in Hj; injection Hj; intros;
      split; simpl; congruence. }
  unfold assoc_delete. cbn [List.filter fst].
  destruct (negb (String.eqb k k')); [|by apply IH].
  cbn [List.flat_map]. fold (assoc_delete k ps). rewrite (IH Hps).
  destruct x; try done; simpl in *; by rewrite ?Hjx.
Qed.

(** X7: [saveStoredData] never stores the safe-mode flag.  For an object
    of JSON data it dispatches one storage-update event and, in a store
    that reads its own writes, the text it leaves under the storage key
    denotes the object without its [isSafeMode] property; for [null] it
    stores nothing and dispatches nothing.  It returns in both cases. *)
Theorem saveStoredData_strips_isSafeMode w (props : list (string * value)) :
  json_data (VObj props) ->
  (let w' := snd (saveStoredData (VObj props) w) in
   fst (saveStoredData (VObj props) w) = Returned ()
   /\ dispatched w'
      = mkDomEvent "hardy-storage-update" VUndefined :: dispatched w
   /\ (reads_own_writes w ->
       exists s,
         fst (safeStorage.getItem STORAGE_KEY w') = Returned (Some s)
         /\ JSON_parse s = Returned (js_delete (VObj props) "isSafeMode")
         /\ js_get (js_delete (VObj props) "isSafeMode") "isSafeMode"
            = VUndefined))
  /\ saveStoredData VNull w = (Returned (), w).
Proof.
  intros Hdata. split; [|done]. cbv zeta.
  unfold saveStoredData, try_catch, mbind, M_bind, lift.
  cbn [rest_without_isSafeMode spread].
  set (text := JSON_stringify (VObj (assoc_delete "isSafeMode" props))).
  pose proof (setItem_frame w STORAGE_KEY text) as (_ & _ & Hdisp & _).
  pose proof (fun Hrw Hne => getItem_setItem w STORAGE_KEY text Hrw Hne
                               ltac:(discriminate)) as Hget.
  destruct (setItem_returns w STORAGE_KEY text) as [w1 Hw1].
  rewrite Hw1 in *. cbn [fst snd dispatchEvent dispatched] in *.
  split; [done|]. split; [by rewrite Hdisp|].
  intros Hrw. exists text. split.
  - erewrite getItem_stores; [apply Hget; [done|]|done..].
    apply JSON_stringify_nonempty.
  - split.
    + subst text. rewrite JSON_roundtrip by done.
      by destruct (json_data_delete "isSafeMode" props Hdata) as [_ ->].
    + apply lacks_get, (lacks_delete_eq "isSafeMode" (VObj props)).
Qed.

(** X8: [getStoredData] writes only when it boots in safe mode.  A load
    whose result has [isSafeMode] set to [false] leaves the world as it
    was: nothing logged, nothing dispatched, nothing stored; and with
    nothing stored the result is the default configuration. *)
Theorem load_without_failure_changes_nothing w random_id now :
  (forall v w',
     getStoredData random_id now w = (Returned v, w') ->
     js_get v "isSafeMode" = VBool false -> w' = w)
  /\ (fst (safeStorage.getItem STORAGE_KEY w) = Returned None ->
      getStoredData random_id now w = (Returned DEFAULT_DATA, w)).
Proof.
  split.
  - intros v w' Hload Hsafe.
    destruct (getItem_returns w STORAGE_KEY) as [r Hg].
    rewrite (getStoredData_spec w random_id now r) in Hload by (by rewrite Hg).
    destruct (load_outcome r); [congruence|].
    injection Hload as <- <-. done.
  - intros Hnone. by rewrite (getStoredData_spec w random_id now None).
Qed.

(** X9: a confirmed factory reset erases everything the application can
    read: afterwards no key has a value (when access to [localStorage] is
    refused: no key but the names of the members of [Object.prototype]),
    [getStoredData] returns the default configuration, not in safe mode,
    and the system log is empty.  A declined one changes nothing. *)
Theorem factory_reset_restores_defaults w random_id now :
  (let w' := snd (AdminDashboard.handleFactoryReset true w) in
   (forall k,
      ls_denied (localStorage w) = false \/ safeStorage.inherited k = false ->
      fst (safeStorage.getItem k w') = Returned None)
   /\ getStoredData random_id now w' = (Returned DEFAULT_DATA, w')
   /\ fst (logService.getLogs w') = Returned (VArr []))
  /\ AdminDashboard.handleFactoryReset false w = (Returned (), w).
Proof.
  split; [|done]. cbv zeta.
  assert (forall k,
    ls_denied (localStorage w) = false \/ safeStorage.inherited k = false ->
    fst (safeStorage.getItem k
           (snd (AdminDashboard.handleFactoryReset true w))) = Returned None)
    as Hnone.
  { intros k Hk. unfold AdminDashboard.handleFactoryReset, mbind, M_bind.
    unfold safeStorage.clear, try_catch, Storage.clear in *.
    destruct (ls_denied (localStorage w)) eqn:Hd; cbn [snd] in *.
    - rewrite getItem_denied in * by done.
      unfold safeStorage.memory_read. simpl. by rewrite lookup_empty.
    - rewrite getItem_granted in * by done. done. }
  split; [done|]. split.
  - rewrite (getStoredData_spec _ random_id now None); [done|].
    apply Hnone. by right.
  - rewrite (getLogs_read _ None); [done|]. apply Hnone. by right.
Qed.

End save_load_reset.

(** ** Saving, then loading *)

Section round_trip.
Context `{!Host}.
Implicit Types (w : World) (v : value).

(** A configuration of the current shape: an object whose [pages], [theme]
    and [schoolName] pass the check, which has every property that a
    migration would supply and none that a migration would remove, and
    whose pages are left as they are by the page callback (each is an
    object with a truthy [type]). *)
Record current_shape v : Prop := {
  cur_object : is_object v = true;
  cur_theme : truthy (js_get v "theme") = true;
  cur_schoolName : truthy (js_get v "schoolName") = true;
  cur_tickerItems : truthy (js_get v "tickerItems") = true;
  cur_enableLiveCam : is_undefined (js_get v "enableLiveCam") = false;
  cur_pageDuration : is_undefined (js_get v "pageDuration") = false;
  cur_liveCamUrls : truthy (js_get v "liveCamUrls") = true;
  cur_liveCamUrl : lacks "liveCamUrl" v = true;
  cur_homeLayout : lacks "homeLayout" v = true;
  cur_homeWidgets : lacks "homeWidgets" v = true;
  cur_pages : exists l,
    js_get v "pages" = VArr l /\ map_outcome normalize_page l = Returned l;
  cur_socials : is_undefined (js_get v "socials") = false;
  cur_emergency : is_undefined (js_get v "emergency") = false;
  cur_weatherConfig : is_undefined (js_get v "weatherConfig") = false;
  cur_eventCategories : truthy (js_get v "eventCategories") = true;
  cur_customWidgets : truthy (js_get v "customWidgets") = true
}.

(** Loading a configuration of the current shape only sets its
    [isSafeMode] property. *)
Lemma current_shape_loaded v :
  current_shape v ->
  check_and_migrate v = Returned (js_set v "isSafeMode" (VBool false)).
Proof.
  intros [Hobj Hth Hsn Hti Hel Hpd Hlc Hl1 Hl2 Hl3 (l & Hpages & Hmap)
            Hso Hem Hwc Hec Hcw].
  apply check_and_migrate_shape.
  split; [by rewrite Hpages|]. split; [done|]. split; [done|].
  exists (VArr l). split.
  - rewrite Hpages. simpl. by rewrite Hmap.
  - assert (migrate_before v = v) as ->.
    { unfold migrate_before.
      rewrite (fill_falsy_present "theme") by done.
      rewrite (fill_falsy_present "tickerItems") by done.
      rewrite (fill_undefined_present "enableLiveCam") by done.
      rewrite (fill_undefined_present "pageDuration") by done.
      rewrite migrate_liveCamUrls_present by done.
      rewrite (js_delete_lacks "liveCamUrl" v) by done.
      rewrite (js_delete_lacks "homeLayout" v) by done.
      by rewrite (js_delete_lacks "homeWidgets" v). }
    rewrite (js_set_same "pages" (VArr l) v) by done.
    unfold migrate_after.
    rewrite (fill_undefined_present "socials") by done.
    rewrite (fill_undefined_present "emergency") by done.
    rewrite (fill_undefined_present "weatherConfig") by done.
    rewrite (fill_falsy_present "eventCategories") by done.
    by rewrite (fill_falsy_present "customWidgets").
Qed.

(** The shape does not depend on the [isSafeMode] property. *)
Lemma current_shape_without_isSafeMode v :
  current_shape v -> current_shape (js_delete v "isSafeMode").
Proof.
  intros [Hobj Hth Hsn Hti Hel Hpd Hlc Hl1 Hl2 Hl3 (l & Hpages & Hmap)
            Hso Hem Hwc Hec Hcw].
  split;
    rewrite ?is_object_delete, ?js_get_delete_ne, ?lacks_delete_ne by done;
    try done.
  by exists l.
Qed.

(** C1 (amended): for every configuration object of the current shape
    that, its [isSafeMode] property apart, is JSON data (every number
    finite, no property and no array element [undefined]), in a store
    that reads its own writes: [saveStoredData] stores a text without the
    [isSafeMode] property, and [getStoredData] afterwards returns the
    configuration with [isSafeMode] set to [false], every other property
    as it was given. *)
Theorem save_then_load_round_trip
    w (props : list (string * value)) random_id now :
  current_shape (VObj props) ->
  json_data (js_delete (VObj props) "isSafeMode") ->
  reads_own_writes w ->
  let c := VObj props in
  let w1 := snd (saveStoredData c w) in
  fst (getStoredData random_id now w1)
  = Returned (js_set (js_delete c "isSafeMode") "isSafeMode" (VBool false))
  /\ exists s,
       fst (safeStorage.getItem STORAGE_KEY w1) = Returned (Some s)
       /\ JSON_parse s = Returned (js_delete c "isSafeMode")
       /\ js_get (js_delete c "isSafeMode") "isSafeMode" = VUndefined.
Proof.
  intros Hshape Hdata Hrw. cbv zeta.
  set (rest := js_delete (VObj props) "isSafeMode") in *.
  set (text := JSON_stringify rest).
  assert (saveStoredData (VObj props) w
          = dispatchEvent (mkDomEvent "hardy-storage-update" VUndefined)
              (snd (safeStorage.setItem STORAGE_KEY text w))) as ->.
  { unfold saveStoredData, try_catch, mbind, M_bind, lift.
    cbn [rest_without_isSafeMode spread].
    fold (js_delete (VObj props) "isSafeMode"). fold rest. fold text.
    by destruct (setItem_returns w STORAGE_KEY text) as [w1 ->]. }
  assert (fst (safeStorage.getItem STORAGE_KEY
                 (snd (dispatchEvent
                         (mkDomEvent "hardy-storage-update" VUndefined)
                         (snd (safeStorage.setItem STORAGE_KEY text w)))))
          = Returned (Some text)) as Hget.
  { erewrite getItem_stores;
      [apply (getItem_setItem w STORAGE_KEY text Hrw)|done..];
      [apply JSON_stringify_nonempty|discriminate]. }
  assert (JSON_parse text = Returned rest) as Hparse.
  { subst text. rewrite JSON_roundtrip by apply Hdata.
    by destruct Hdata as [_ ->]. }
  split.
  - rewrite (getStoredData_spec _ random_id now (Some text) Hget).
    unfold load_outcome.
    rewrite (parsed_nonempty text rest Hparse), Hparse.
    cbn [mbind outcome_bind].
    by rewrite (current_shape_loaded rest
                  (current_shape_without_isSafeMode _ Hshape)).
  - exists text. split; [done|]. split; [done|].
    apply lacks_get, (lacks_delete_eq "isSafeMode" (VObj props)).
Qed.

(** *** Typed configurations

    Every value of the type [AppData] of [types.ts], as [AppData.t]
    renders it, is of the current shape as soon as its school name is not
    empty, and is JSON data as soon as its free-form widget settings
    are. *)

(** A page of the current shape is left as it is by the page callback. *)
Lemma normalize_page_typed (x : Page.t) :
  normalize_page (Page.to_value x) = Returned (Page.to_value x).
Proof.
  unfold normalize_page, Page.to_value.
  destruct x as [id title type content imageUrl layout widgets duration enabled].
  by destruct type.
Qed.

Lemma array_map_pages_typed (pages : list Page.t) :
  array_map normalize_page (VArr (List.map Page.to_value pages))
  = Returned (VArr (List.map Page.to_value pages)).
Proof.
  simpl.
  assert (map_outcome normalize_page (List.map Page.to_value pages)
          = Returned (List.map Page.to_value pages)) as ->; [|done].
  induction pages as [|x pages IH]; [done|].
  cbn [List.map map_outcome]. by rewrite normalize_page_typed, IH.
Qed.

Lemma AppData_current_shape (c : AppData.t) :
  AppData.schoolName c <> "" -> current_shape (AppData.to_value c).
Proof.
  intros Hname.
  destruct c as [sn th an ev ec ti lc el pd pg so em wc cw safe].
  simpl in Hname. split; try done; try (by destruct safe).
  - simpl. by destruct sn.
  - exists (List.map Page.to_value pg). split; [done|].
    pose proof (array_map_pages_typed pg) as Hmap. simpl in Hmap.
    destruct (map_outcome normalize_page (List.map Page.to_value pg));
      simpl in Hmap; congruence.
Qed.

Lemma AppData_without_isSafeMode (c : AppData.t) :
  js_delete (AppData.to_value c) "isSafeMode" = VObj (AppData.durable c).
Proof. unfold AppData.to_value. by destruct (AppData.isSafeMode c). Qed.

Lemma AppData_json (c : AppData.t) :
  settings_are_json c ->
  json_data (js_delete (AppData.to_value c) "isSafeMode").
Proof.
  intros Hs. rewrite AppData_without_isSafeMode. by apply AppData_durable_data.
Qed.

Lemma AppData_with_isSafeMode (c : AppData.t) :
  js_set (js_delete (AppData.to_value c) "isSafeMode") "isSafeMode"
    (VBool false)
  = AppData.to_value (AppData.with_isSafeMode false c).
Proof. by rewrite AppData_without_isSafeMode. Qed.

End round_trip.

(** A small configuration of the current shape, by school name: one
    announcement, one standard page and one grid page with a widget. *)
Definition sample_config (schoolName : string) : AppData.t :=
  AppData.mk schoolName
    (Theme.mk "t1" "Plain" "#000000" "#111111" "#3b82f6" "#ffffff" None)
    [Announcement.mk "a1" Announcement.text "Welcome" "Hello" None true
       Announcement.normal]
    [] [CategoryDefinition.mk "cat-1" "General" "Users"] ["Welcome back"] []
    false 60
    [Page.mk "p1" "Home" Page.standard (Some "Hi") None None None None None;
     Page.mk "p2" "Board" Page.grid None None
       (Some [GridItemConfig.mk "w1" 0 0 2 2])
       (Some [("w1", WidgetConfig.mk "w1" WidgetConfig.clock None 60
                       (Some (VObj [("city", VStr "Oslo")])))])
       (Some 30%Q) (Some true)]
    (Socials.mk "555" "example.org" "@a" "@b")
    (EmergencyAlert.mk false "" 0 false None)
    (WeatherConfig.mk "Oslo" (5991 # 100) (1075 # 100))
    [] (Some true).

(** C1, as stated, fails on the code: a configuration whose school name
    is the empty string is saved, and loading it gives the default
    configuration in safe mode instead. *)
Lemma empty_school_name_counterexample :
  fst (@getStoredData ref_host "id1" 0
         (snd (@saveStoredData ref_host (AppData.to_value (sample_config ""))
                 fresh_world)))
  = Returned (@SAFE_MODE_DATA ref_host)
  /\ js_get (@SAFE_MODE_DATA ref_host) "isSafeMode" = VBool true
  /\ js_get (@SAFE_MODE_DATA ref_host) "schoolName" = VStr "Nova Academy"
  /\ js_get (AppData.to_value (AppData.with_isSafeMode false (sample_config "")))
       "schoolName" = VStr "".
Proof. vm_compute. done. Qed.

Lemma save_then_load_round_trip_witness :
  fst (@getStoredData ref_host "id1" 0
         (snd (@saveStoredData ref_host
                 (AppData.to_value (sample_config "Hill School")) fresh_world)))
  = Returned (AppData.to_value
                (AppData.with_isSafeMode false (sample_config "Hill School"))).
Proof.
  refine (proj1 (@save_then_load_round_trip ref_host fresh_world
                   (AppData.durable (sample_config "Hill School")
                    ++ [("isSafeMode", VBool true)])
                   "id1" 0 _ _ _)).
  - split; try reflexivity. eexists. split; reflexivity.
  - split; [discriminate|reflexivity].
  - right. reflexivity.
Defined.

(** The proviso on JSON data is needed: a property that holds [undefined],
    as [emergency.audioData] does in the default configuration of the
    code, is not stored, so the loaded [emergency] has one property
    fewer. *)
Definition config_with_undefined : value :=
  js_set (AppData.to_value (sample_config "Hill School")) "emergency"
    (VObj [("active", VBool false); ("message", VStr "");
           ("timestamp", VNum 0); ("includeSiren", VBool false);
           ("audioData", VUndefined)]).

Lemma undefined_property_is_not_loaded :
  exists loaded,
    fst (@getStoredData ref_host "id1" 0
           (snd (@saveStoredData ref_host config_with_undefined fresh_world)))
    = Returned loaded
    /\ js_get config_with_undefined "emergency"
       = VObj [("active", VBool false); ("message", VStr "");
               ("timestamp", VNum 0); ("includeSiren", VBool false);
               ("audioData", VUndefined)]
    /\ js_get loaded "emergency"
       = VObj [("active", VBool false); ("message", VStr "");
               ("timestamp", VNum 0); ("includeSiren", VBool false)]
    /\ js_get loaded "isSafeMode" = VBool false.
Proof. eexists. vm_compute. done. Qed.

(** The proviso on the store is needed: with the quota exhausted the saved
    text goes to [memoryStorage], the load reads [localStorage], finds
    nothing and answers with the default configuration. *)
Lemma quota_exhausted_save_is_not_loaded :
  fst (@getStoredData ref_host "id1" 0
         (snd (@saveStoredData ref_host
                 (AppData.to_value (sample_config "Hill School")) full_world)))
  = Returned (@DEFAULT_DATA ref_host).
Proof. vm_compute. done. Qed.



(** A configuration as an early version stored it: a single camera URL, a
    home layout, one page without a type and one with, and none of the
    properties added since. *)
Definition legacy_config : value :=
  VObj [("schoolName", VStr "Hill School");
        ("theme", VObj [("id", VStr "t1")]);
        ("announcements", VArr [VObj [("id", VStr "a1")]]);
        ("liveCamUrl", VStr "https://cam.example/1");
        ("homeLayout", VStr "grid");
        ("pages", VArr [VObj [("id", VStr "p1")];
                        VObj [("id", VStr "p2"); ("type", VStr "grid")]])].

(** What [check_and_migrate] returns for it. *)
Definition legacy_config_loaded : value :=
  Eval vm_compute in
    match @check_and_migrate ref_host legacy_config with
    | Returned v => v
    | Thrown _ => VNull
    end.

Lemma legacy_config_loads :
  @check_and_migrate ref_host legacy_config = Returned legacy_config_loaded.
Proof. vm_compute. reflexivity. Qed.

Lemma legacy_properties_migrated_witness :
  js_get legacy_config_loaded "liveCamUrl" = VUndefined
  /\ js_get legacy_config_loaded "homeLayout" = VUndefined
  /\ js_get legacy_config_loaded "homeWidgets" = VUndefined
  /\ js_get legacy_config_loaded "liveCamUrls"
     = VArr [VStr "https://cam.example/1"].
Proof.
  exact (@legacy_properties_migrated ref_host legacy_config
           legacy_config_loaded legacy_config_loads).
Defined.

Lemma missing_properties_get_defaults_witness :
  js_get legacy_config_loaded "tickerItems" = DEFAULT_tickerItems
  /\ js_get legacy_config_loaded "enableLiveCam" = VBool false
  /\ js_get legacy_config_loaded "pageDuration" = num 60.
Proof.
  destruct (@missing_properties_get_defaults ref_host legacy_config
              legacy_config_loaded legacy_config_loads)
    as (Hticker & _ & _ & Hcam & Hduration & _).
  exact (conj Hticker (conj Hcam Hduration)).
Defined.

Lemma stored_properties_kept_witness :
  js_get legacy_config_loaded "announcements"
  = VArr [VObj [("id", VStr "a1")]].
Proof.
  apply (@stored_properties_kept ref_host legacy_config legacy_config_loaded
           "announcements" legacy_config_loads).
  - repeat (apply not_elem_of_cons; split; [discriminate|]).
    apply not_elem_of_nil.
  - reflexivity.
Defined.

Lemma pages_get_a_type_witness :
  js_get legacy_config_loaded "pages"
  = VArr [VObj [("id", VStr "p1"); ("type", VStr "standard")];
          VObj [("id", VStr "p2"); ("type", VStr "grid")]].
Proof.
  apply (@pages_get_a_type ref_host legacy_config legacy_config_loaded
           [VObj [("id", VStr "p1")];
            VObj [("id", VStr "p2"); ("type", VStr "grid")]]
           legacy_config_loads eq_refl).
  repeat constructor.
Defined.

(** A stored configuration with a [null] among its pages. *)
Definition null_page_config : value :=
  VObj [("schoolName", VStr "Hill School"); ("theme", VObj []);
        ("pages", VArr [VObj [("id", VStr "p1")]; VNull])].

Lemma bad_pages_boot_safe_mode_witness :
  fst (@getStoredData ref_host "id1" 0
         (world_with_blob (@JSON_stringify ref_host null_page_config)))
  = Returned (@SAFE_MODE_DATA ref_host).
Proof.
  apply (@bad_pages_boot_safe_mode ref_host
           (world_with_blob (@JSON_stringify ref_host null_page_config))
           "id1" 0 (@JSON_stringify ref_host null_page_config)
           null_page_config eq_refl).
  - vm_compute. reflexivity.
  - cbn. apply elem_of_cons. right. apply elem_of_cons. by left.
Defined.

Lemma saveStoredData_strips_isSafeMode_witness :
  exists s,
    fst (safeStorage.getItem STORAGE_KEY
           (snd (@saveStoredData ref_host
                   (VObj [("schoolName", VStr "Hill School");
                          ("isSafeMode", VBool true)])
                   fresh_world)))
    = Returned (Some s)
    /\ @JSON_parse ref_host s
       = Returned (VObj [("schoolName", VStr "Hill School")]).
Proof.
  destruct (@saveStoredData_strips_isSafeMode ref_host fresh_world
              [("schoolName", VStr "Hill School"); ("isSafeMode", VBool true)])
    as [(_ & _ & Hstored) _].
  - split; [discriminate|reflexivity].
  - destruct (Hstored ltac:(by right)) as (s & Hget & Hparse & _).
    exists s. exact (conj Hget Hparse).
Defined.

(** ** More on the durable key-value store *)

Section safeStorage_more.
Implicit Types (w : World) (k v : string).

Lemma removeItem_returns w k :
  exists w', safeStorage.removeItem k w = (Returned (), w').
Proof.
  unfold safeStorage.removeItem, try_catch, Storage.removeItem.
  destruct (ls_denied (localStorage w)); by eexists.
Qed.

Lemma clear_returns w : exists w', safeStorage.clear w = (Returned (), w').
Proof.
  unfold safeStorage.clear, try_catch, Storage.clear.
  destruct (ls_denied (localStorage w)); by eexists.
Qed.

(** X10: no operation of [safeStorage] throws, whatever [localStorage]
    does: each of the four returns in every world, and a read leaves the
    world as it was. *)
Theorem safeStorage_never_throws w k v :
  (exists r, safeStorage.getItem k w = (Returned r, w))
  /\ (exists w', safeStorage.setItem k v w = (Returned (), w'))
  /\ (exists w', safeStorage.removeItem k w = (Returned (), w'))
  /\ (exists w', safeStorage.clear w = (Returned (), w')).
Proof.
  split; [apply getItem_returns|]. split; [apply setItem_returns|].
  split; [apply removeItem_returns|apply clear_returns].
Qed.

(** X11: after [removeItem] the key reads as [null], in every world when
    the key names no member of [Object.prototype] and for every key when
    [localStorage] can be read; every other key reads as before. *)
Theorem removeItem_then_getItem w k :
  ls_denied (localStorage w) = false \/ safeStorage.inherited k = false ->
  fst (safeStorage.getItem k (snd (safeStorage.removeItem k w)))
  = Returned None
  /\ forall k', k' <> k ->
       fst (safeStorage.getItem k' (snd (safeStorage.removeItem k w)))
       = fst (safeStorage.getItem k' w).
Proof.
  intros Hk. split; [by apply getItem_removeItem|].
  intros k' Hne. by apply getItem_removeItem_ne.
Qed.

(** X12: a write made while [localStorage] refuses writes only is not
    seen by the next read, which still gives what [localStorage] held; the
    value, written under a key other than [__proto__], waits in
    [memoryStorage] and is read once access to [localStorage] is refused
    altogether. *)
Theorem write_under_quota_is_hidden w k v :
  ls_denied (localStorage w) = false ->
  ls_full (localStorage w) = true ->
  v <> "" ->
  k <> "__proto__" ->
  let w' := snd (safeStorage.setItem k v w) in
  fst (safeStorage.getItem k w') = fst (safeStorage.getItem k w)
  /\ localStorage w' = localStorage w
  /\ fst (safeStorage.getItem k (revoke_access w')) = Returned (Some v).
Proof.
  intros Hd Hf Hv Hk. cbv zeta. rewrite setItem_full by done. cbn [snd].
  split; [by rewrite !getItem_granted by done|]. split; [done|].
  rewrite getItem_denied by done.
  unfold safeStorage.memory_read. simpl. rewrite lookup_insert_eq.
  by destruct v.
Qed.

(** X13: while [localStorage] works, every value written under a key, the
    empty string included, is the value read under it; [memoryStorage] is
    not touched and every other key reads as before. *)
Theorem working_store_round_trip w k v :
  ls_denied (localStorage w) = false ->
  ls_full (localStorage w) = false ->
  let w' := snd (safeStorage.setItem k v w) in
  fst (safeStorage.getItem k w') = Returned (Some v)
  /\ memoryStorage w' = memoryStorage w
  /\ forall k', k' <> k ->
       fst (safeStorage.getItem k' w') = fst (safeStorage.getItem k' w).
Proof.
  intros Hd Hf. cbv zeta. split.
  - rewrite setItem_granted by done. cbn [snd].
    rewrite getItem_granted by done. simpl. by rewrite lookup_insert_eq.
  - split; [by rewrite setItem_granted|].
    intros k' Hne. apply getItem_setItem_ne. congruence.
Qed.

End safeStorage_more.

Lemma removeItem_then_getItem_witness :
  fst (safeStorage.getItem "k"
         (snd (safeStorage.removeItem "k"
                 (snd (safeStorage.setItem "k" "v" blocked_world)))))
  = Returned None.
Proof.
  exact (proj1 (removeItem_then_getItem
                  (snd (safeStorage.setItem "k" "v" blocked_world)) "k"
                  (or_intror eq_refl))).
Defined.

Lemma write_under_quota_is_hidden_witness :
  fst (safeStorage.getItem "k" (snd (safeStorage.setItem "k" "v" full_world)))
  = Returned None
  /\ fst (safeStorage.getItem "k"
            (revoke_access (snd (safeStorage.setItem "k" "v" full_world))))
     = Returned (Some "v").
Proof.
  destruct (write_under_quota_is_hidden full_world "k" "v" eq_refl eq_refl
              ltac:(discriminate) ltac:(discriminate))
    as (Hread & _ & Hlater).
  exact (conj Hread Hlater).
Defined.

Lemma working_store_round_trip_witness :
  fst (safeStorage.getItem "k" (snd (safeStorage.setItem "k" "" fresh_world)))
  = Returned (Some "").
Proof.
  exact (proj1 (working_store_round_trip fresh_world "k" "" eq_refl eq_refl)).
Defined.

(** ** More on the system log *)

(** [ErrorBoundary.componentDidCatch] of
    [src/components/AppErrorBoundary.tsx]: the crash of a component is
    written to the system log under the component's name. *)
Module ErrorBoundary.
Section with_host.
Context `{!Host}.

Definition crash_log (componentName : string) (error : JsError) : value :=
  VObj [("level", VStr "error");
        ("source", VStr componentName);
        ("message", VStr (err_message error));
        ("stack", match err_stack error with
                  | Some s => VStr s
                  | None => VUndefined
                  end)].

Definition componentDidCatch (componentName : string) (error : JsError)
    (random_id : string) (now : Q) : M () :=
  _ ← console ("Uncaught error in " ++ componentName ++ ":");
  logService.addLog (crash_log componentName error) random_id now.

End with_host.
End ErrorBoundary.

Section logService_more.
Context `{!Host}.
Implicit Types (w : World) (log : value) (logs : list value).

(** X14: [clearLogs] empties the log in every world: it returns, the log
    reads as the empty array afterwards, and one log-update event without
    detail is dispatched. *)
Theorem clearLogs_empties_log w :
  let w' := snd (logService.clearLogs w) in
  fst (logService.clearLogs w) = Returned ()
  /\ fst (logService.getLogs w') = Returned (VArr [])
  /\ dispatched w' = mkDomEvent "hardy-log-update" VNull :: dispatched w.
Proof.
  cbv zeta. unfold logService.clearLogs, mbind, M_bind.
  pose proof (getItem_removeItem w logService.LOG_STORAGE_KEY
                (or_intror eq_refl)) as Hnone.
  assert (dispatched (snd (safeStorage.removeItem
                             logService.LOG_STORAGE_KEY w))
          = dispatched w) as Hdisp.
  { unfold safeStorage.removeItem, try_catch, Storage.removeItem.
    by destruct (ls_denied (localStorage w)). }
  destruct (removeItem_returns w logService.LOG_STORAGE_KEY) as [w1 Hw1].
  rewrite Hw1 in *. cbn [fst snd] in *.
  split; [done|]. split; [|simpl; by rewrite Hdisp].
  erewrite getLogs_read; cycle 1.
  { erewrite getItem_stores; [exact Hnone|done..]. }
  done.
Qed.

(** X15: [addLog] recovers from a log text that [JSON.parse] rejects: in
    a store that reads its own writes, the log afterwards holds the new
    record and nothing else. *)
Theorem addLog_replaces_unparsable_log w log id now s e :
  reads_own_writes w ->
  fst (safeStorage.getItem logService.LOG_STORAGE_KEY w) = Returned (Some s) ->
  JSON_parse s = Thrown e ->
  fst (logService.getLogs (snd (logService.addLog log id now w)))
  = Returned (VArr [to_json (logService.stamped log id now)]).
Proof.
  intros Hrw Hs Hp.
  rewrite (addLog_prepends w log id now []); [done|done| |done].
  erewrite getLogs_read by exact Hs. cbn [fst].
  unfold logs_of_stored. rewrite Hp. by destruct (is_empty_string s).
Qed.

(** X16: [addLog] does not recover from a log text that denotes a value
    that cannot be spread into an array (an object, a number, a boolean,
    [null]): the call returns and leaves the world as it was, so nothing is
    stored, nothing is dispatched and every later call fails the same
    way. *)
Theorem addLog_stuck_on_non_iterable_log w log id now s v :
  fst (safeStorage.getItem logService.LOG_STORAGE_KEY w) = Returned (Some s) ->
  s <> "" ->
  JSON_parse s = Returned v ->
  (forall l, v <> VArr l) -> (forall t, v <> VStr t) ->
  logService.addLog log id now w = (Returned (), w)
  /\ fst (logService.getLogs w) = Returned v.
Proof.
  intros Hs Hne Hp Harr Hstr.
  assert (logService.getLogs w = (Returned v, w)) as Hlogs.
  { erewrite getLogs_read by exact Hs. unfold logs_of_stored.
    destruct s; [done|]. simpl. by rewrite Hp. }
  split; [|by rewrite Hlogs].
  unfold logService.addLog, try_catch, mbind, M_bind. rewrite Hlogs.
  unfold lift. destruct v as [| | | |t|l|ps]; try done.
  - by destruct (Hstr t).
  - by destruct (Harr l).
Qed.

(** X17: on a log that can be spread, [addLog] dispatches exactly one
    log-update event, whose detail is the new record as built (before
    serialisation), and touches no key but the log key. *)
Theorem addLog_notifies_once w log id now (stored : value) rest :
  fst (logService.getLogs w) = Returned stored ->
  iterate stored = Returned rest ->
  let w' := snd (logService.addLog log id now w) in
  fst (logService.addLog log id now w) = Returned ()
  /\ dispatched w'
     = mkDomEvent "hardy-log-update" (logService.stamped log id now)
       :: dispatched w
  /\ forall k, k <> logService.LOG_STORAGE_KEY ->
       fst (safeStorage.getItem k w') = fst (safeStorage.getItem k w).
Proof.
  intros Hlogs Hit. cbv zeta.
  split; [by destruct (addLog_returns w log id now) as [w' ->]|].
  split; [|by apply addLog_frame].
  destruct (getLogs_returns w) as [v Hv]. rewrite Hv in Hlogs.
  injection Hlogs as ->.
  unfold logService.addLog, try_catch, mbind, M_bind. rewrite Hv.
  unfold lift. rewrite Hit.
  match goal with
  | |- context [safeStorage.setItem ?k ?t w] =>
      pose proof (setItem_frame w k t) as Hframe;
      destruct (setItem_returns w k t) as [w1 Hw1]
  end.
  rewrite Hw1 in *. cbn [fst snd] in *.
  destruct Hframe as (_ & _ & Hdisp & _). simpl. by rewrite Hdisp.
Qed.

(** X18: the crash of a component is logged under its name.  In a store
    that reads its own writes and whose log is an array,
    [componentDidCatch] puts at the head of the log a record with level
    [error], the component's name as source, the error's message, and the
    identifier and time drawn in the call; the log stays within
    [MAX_LOGS] records.  It returns in every world. *)
Theorem component_crash_is_logged
    w (componentName : string) (error : JsError) id now logs :
  reads_own_writes w ->
  fst (logService.getLogs w) = Returned (VArr logs) ->
  let w' := snd (ErrorBoundary.componentDidCatch componentName error id now w) in
  exists entry,
    fst (ErrorBoundary.componentDidCatch componentName error id now w)
    = Returned ()
    /\ fst (logService.getLogs w')
       = Returned (VArr (take logService.MAX_LOGS (entry :: logs)))
    /\ js_get entry "level" = VStr "error"
    /\ js_get entry "source" = VStr componentName
    /\ js_get entry "message" = VStr (err_message error)
    /\ js_get entry "id" = VStr id
    /\ js_get entry "timestamp" = VNum now.
Proof.
  intros Hrw Hlogs. cbv zeta.
  exists (to_json (logService.stamped
                     (ErrorBoundary.crash_log componentName error) id now)).
  change (ErrorBoundary.componentDidCatch componentName error id now w)
    with (logService.addLog (ErrorBoundary.crash_log componentName error)
            id now w).
  split; [by destruct (addLog_returns w
            (ErrorBoundary.crash_log componentName error) id now) as [w' ->]|].
  split.
  { apply addLog_prepends; [done..|]. by eapply getLogs_data. }
  destruct error as [n m [st|]]; by vm_compute.
Qed.

End logService_more.

(** A world whose log text is not JSON, and one whose log text denotes an
    object. *)
Definition garbled_log_world : World :=
  mkWorld (mkLocalStorage {[logService.LOG_STORAGE_KEY := "oops"]} false false)
          ∅ [] [].

Definition object_log_text : string :=
  Eval vm_compute in @JSON_stringify ref_host (VObj []).

Definition object_log_world : World :=
  mkWorld (mkLocalStorage {[logService.LOG_STORAGE_KEY := object_log_text]}
             false false)
          ∅ [] [].

Lemma addLog_replaces_unparsable_log_witness :
  fst (@logService.getLogs ref_host
         (snd (@logService.addLog ref_host (VObj []) "id1" 0
                 garbled_log_world)))
  = Returned (VArr [VObj [("id", VStr "id1"); ("timestamp", VNum 0)]]).
Proof.
  eapply (@addLog_replaces_unparsable_log ref_host garbled_log_world
            (VObj []) "id1" 0 "oops").
  - by right.
  - by vm_compute.
  - vm_compute. reflexivity.
Defined.

Lemma addLog_stuck_on_non_iterable_log_witness :
  @logService.addLog ref_host (VObj []) "id1" 0 object_log_world
  = (Returned (), object_log_world)
  /\ fst (@logService.getLogs ref_host object_log_world) = Returned (VObj []).
Proof.
  apply (@addLog_stuck_on_non_iterable_log ref_host object_log_world
           (VObj []) "id1" 0 object_log_text (VObj [])).
  - by vm_compute.
  - discriminate.
  - by vm_compute.
  - discriminate.
  - discriminate.
Defined.

Lemma addLog_notifies_once_witness :
  dispatched (snd (@logService.addLog ref_host (VObj []) "id1" 0 fresh_world))
  = [mkDomEvent "hardy-log-update"
       (VObj [("id", VStr "id1"); ("timestamp", VNum 0)])].
Proof.
  exact (proj1 (proj2 (@addLog_notifies_once ref_host fresh_world (VObj [])
                         "id1" 0 (VArr []) [] eq_refl eq_refl))).
Defined.

Lemma component_crash_is_logged_witness :
  exists entry,
    fst (@ErrorBoundary.componentDidCatch ref_host "Weather"
           (mkJsError "Error" "boom" None) "id1" 0 fresh_world)
    = Returned ()
    /\ fst (@logService.getLogs ref_host
              (snd (@ErrorBoundary.componentDidCatch ref_host "Weather"
                      (mkJsError "Error" "boom" None) "id1" 0 fresh_world)))
       = Returned (VArr [entry])
    /\ js_get entry "level" = VStr "error"
    /\ js_get entry "source" = VStr "Weather"
    /\ js_get entry "message" = VStr "boom"
    /\ js_get entry "id" = VStr "id1"
    /\ js_get entry "timestamp" = VNum 0.
Proof.
  exact (@component_crash_is_logged ref_host fresh_world "Weather"
           (mkJsError "Error" "boom" None) "id1" 0 []
           (or_intror eq_refl) eq_refl).
Defined.

(** ** More on the fetch cache *)

Section cache_more.
Context `{!Host}.
Implicit Types (w : World) (s : string).

Lemma cache_key_not_proto (key : string) :
  String.append CACHE_PREFIX key <> "__proto__".
Proof. discriminate. Qed.

Lemma cache_entry_to_json (data : value) (now : Q) :
  json_data data ->
  to_json (VObj [("data", data); ("timestamp", VNum now)])
  = VObj [("data", data); ("timestamp", VNum now)].
Proof.
  intros [Hdef Hjson]. destruct data; try done; simpl in *; by rewrite Hjson.
Qed.

(** X19: what a request brought is cached.  When step 1 finds no fresh
    entry and the network call succeeds with JSON data, [safeFetch]
    returns the data and issues one request; in a store that reads its own
    writes a second call for the key that passes the test
    [now' - now < ttlSeconds' * 1000], as evaluated in double-precision
    arithmetic, returns the same data and leaves the world as it is,
    whatever the network would answer. *)
Theorem fetched_data_is_cached
    w key url ttlSeconds fallbackData now net r data
    url' ttlSeconds' fallbackData' now' net' :
  reads_own_writes w ->
  fst (safeStorage.getItem (String.append CACHE_PREFIX key) w) = Returned r ->
  fresh_of now (default 300%Q ttlSeconds) r = None ->
  network_outcome net = Returned data ->
  json_data data ->
  Double.ltb (Double.sub now' now)
             (Double.mul (default 300%Q ttlSeconds') 1000) = true ->
  let w1 := snd (safeFetch key url ttlSeconds fallbackData now net w) in
  fst (safeFetch key url ttlSeconds fallbackData now net w) = Returned data
  /\ requests w1 = url :: requests w
  /\ safeFetch key url' ttlSeconds' fallbackData' now' net' w1
     = (Returned data, w1).
Proof.
  intros Hrw Hr Hmiss Hnet Hdata Hfresh. cbv zeta.
  rewrite (safeFetch_spec w key url ttlSeconds fallbackData now net r Hr).
  rewrite Hmiss, Hnet. cbn [fst snd].
  set (cacheKey := String.append CACHE_PREFIX key).
  set (text := JSON_stringify _).
  assert (reads_own_writes (requested url w)) as Hrw' by done.
  pose proof (getItem_setItem (requested url w) cacheKey text Hrw'
                (JSON_stringify_nonempty _) (cache_key_not_proto key))
    as Hget.
  pose proof (setItem_frame (requested url w) cacheKey text)
    as (_ & _ & _ & Hreq).
  split; [done|]. split; [exact Hreq|].
  assert (JSON_parse text
          = Returned (VObj [("data", data); ("timestamp", VNum now)]))
    as Hparse.
  { subst text. rewrite JSON_roundtrip by done.
    by rewrite cache_entry_to_json. }
  rewrite (safeFetch_spec _ key url' ttlSeconds' fallbackData' now' net'
             (Some text) Hget).
  rewrite (fresh_of_entry text _ now now' _ Hparse eq_refl).
  by rewrite Hfresh.
Qed.

(** X20: [safeFetch] issues at most one request and dispatches no event;
    it leaves every key but its cache key as it was, and when the network
    call fails it writes nothing at all. *)
Theorem safeFetch_frame w key url ttlSeconds fallbackData now net :
  let w' := snd (safeFetch key url ttlSeconds fallbackData now net w) in
  dispatched w' = dispatched w
  /\ (requests w' = requests w \/ requests w' = url :: requests w)
  /\ (forall k, k <> String.append CACHE_PREFIX key ->
        fst (safeStorage.getItem k w') = fst (safeStorage.getItem k w))
  /\ (network_fails net ->
      localStorage w' = localStorage w /\ memoryStorage w' = memoryStorage w).
Proof.
  cbv zeta.
  destruct (getItem_returns w (String.append CACHE_PREFIX key)) as [r Hg].
  rewrite (safeFetch_spec w key url ttlSeconds fallbackData now net r)
    by (by rewrite Hg).
  destruct (fresh_of _ _ r) as [hit|]; [by auto|].
  destruct (network_outcome net) as [data|e] eqn:Hnet; cbn [snd].
  - match goal with
    | |- context [safeStorage.setItem ?k ?t ?w0] =>
        pose proof (setItem_frame w0 k t) as (_ & _ & Hdisp & Hreq);
        pose proof (fun k' Hne => getItem_setItem_ne w0 k k' t Hne) as Hother
    end.
    split; [exact Hdisp|]. split; [right; exact Hreq|]. split.
    + intros k Hk. rewrite Hother by congruence. by apply getItem_stores.
    + intros Hfails. destruct (network_fails_outcome net Hfails) as [e He].
      congruence.
  - split; [done|]. split; [by right|]. split; [|done].
    intros k Hk. by apply getItem_stores.
Qed.

(** X21: a cache text that [JSON.parse] rejects, or that denotes [null],
    counts as no entry at all: [safeFetch] returns what the network
    brings, and [fallbackData || null] when the network call fails. *)
Theorem corrupt_cache_entry_is_a_miss
    w key url ttlSeconds fallbackData now net s :
  fst (safeStorage.getItem (String.append CACHE_PREFIX key) w)
  = Returned (Some s) ->
  (exists e, JSON_parse s = Thrown e) \/ JSON_parse s = Returned VNull ->
  fst (safeFetch key url ttlSeconds fallbackData now net w)
  = Returned (match network_outcome net with
              | Returned data => data
              | Thrown _ => js_or fallbackData VNull
              end).
Proof.
  intros Hget Hbad.
  rewrite (safeFetch_spec w key url ttlSeconds fallbackData now net (Some s))
    by done.
  assert (fresh_of now (default 300%Q ttlSeconds) (Some s) = None
          /\ stale_of (Some s) = None) as [-> ->].
  { unfold fresh_of, stale_of.
    destruct (is_empty_string s); [done|].
    by destruct Hbad as [[e ->]| ->]. }
  by destruct (network_outcome net).
Qed.

End cache_more.

(** A first call at time 1000 on an empty store, a second one 100 seconds
    later while the network is down. *)
Lemma fetched_data_is_cached_witness :
  let w1 := snd (@safeFetch ref_host "weather" "https://example.org/weather"
                   None VUndefined 1000
                   (Response true 200 (Returned (VStr "sunny"))) fresh_world) in
  requests w1 = ["https://example.org/weather"]
  /\ @safeFetch ref_host "weather" "https://example.org/weather"
       None VUndefined 101000 (Rejected (mkJsError "TypeError" "offline" None))
       w1
     = (Returned (VStr "sunny"), w1).
Proof.
  refine (proj2 (@fetched_data_is_cached ref_host fresh_world "weather"
            "https://example.org/weather" None VUndefined 1000
            (Response true 200 (Returned (VStr "sunny"))) None (VStr "sunny")
            "https://example.org/weather" None VUndefined 101000
            (Rejected (mkJsError "TypeError" "offline" None))
            (or_intror eq_refl) eq_refl eq_refl eq_refl _ _)).
  - split; [discriminate|reflexivity].
  - reflexivity.
Defined.

Lemma corrupt_cache_entry_is_a_miss_witness :
  let w := mkWorld
             (mkLocalStorage
                {[String.append CACHE_PREFIX "weather" := "oops"]}
                false false)
             ∅ [] [] in
  fst (@safeFetch ref_host "weather" "https://example.org/weather"
         None (VStr "cloudy") 1000
         (Rejected (mkJsError "TypeError" "offline" None)) w)
  = Returned (VStr "cloudy").
Proof.
  refine (@corrupt_cache_entry_is_a_miss ref_host _ "weather"
            "https://example.org/weather" None (VStr "cloudy") 1000
            (Rejected (mkJsError "TypeError" "offline" None)) "oops" _ _).
  - by vm_compute.
  - left. vm_compute. by eexists.
Defined.

(** ** The login log: [authLogService] of [src/unnamed/part_001] *)

Module authLogService.

(** What the entry takes from [navigator] and [window.screen]. *)
Record Browser : Type := mkBrowser {
  userAgent : string;
  screen_width : Q;
  screen_height : Q
}.

Section with_host.
Context `{!Host}.

Definition LOG_KEY : string := "admin_login_log".
Definition MAX_LOGS : nat := 200.

(** [JSON.parse(stored || '[]')]: the text ['[]'] denotes the empty
    array. *)
Definition parse_stored (stored : option string) : outcome value :=
  match stored with
  | Some s => if truthy (VStr s) then JSON_parse s else Returned (VArr [])
  | None => Returned (VArr [])
  end.

Definition newEntry (email : string) (success : bool) (reason : string)
    (browser : Browser) (random_id : string) (now : Q) : value :=
  VObj [("id", VStr random_id);
        ("email", VStr email);
        ("timestamp", VNum now);
        ("success", VBool success);
        ("reason", VStr reason);
        ("userAgent", VStr (userAgent browser));
        ("screen", VObj [("width", VNum (screen_width browser));
                         ("height", VNum (screen_height browser))])].

(** [logLoginAttempt(email, success, reason)].  [random_id] is the text
    drawn by [Math.random().toString(36).substring(2, 11)] and [now] the
    reading of [Date.now()] in this call. *)
Definition logLoginAttempt (email : string) (success : bool) (reason : string)
    (browser : Browser) (random_id : string) (now : Q) : M () :=
  try_catch
    (stored ← safeStorage.getItem LOG_KEY;
     logs ← lift (parse_stored stored);
     let entry := newEntry email success reason browser random_id now in
     rest ← lift (iterate logs);
     let updatedLogs := take MAX_LOGS (entry :: rest) in
     safeStorage.setItem LOG_KEY (JSON_stringify (VArr updatedLogs)))
    (fun e => console "Auth Logging Failed").

Definition getLoginLogs : M value :=
  try_catch
    (stored ← safeStorage.getItem LOG_KEY;
     lift (parse_stored stored))
    (fun e => mret (VArr [])).

Definition clearLoginLogs : M () := safeStorage.removeItem LOG_KEY.

End with_host.
End authLogService.

Section authLog_facts.
Context `{!Host}.
Import authLogService.
Implicit Types (w : World) (r : option string) (browser : Browser).

Lemma newEntry_data email success reason browser id now :
  json_data (newEntry email success reason browser id now).
Proof. by split. Qed.

(** [logLoginAttempt], by cases on what the log key holds. *)
Lemma logLoginAttempt_spec w r email success reason browser id now :
  fst (safeStorage.getItem LOG_KEY w) = Returned r ->
  logLoginAttempt email success reason browser id now w
  = match parse_stored r with
    | Returned logs =>
        match iterate logs with
        | Returned rest =>
            (Returned (),
             snd (safeStorage.setItem LOG_KEY
                    (JSON_stringify
                       (VArr (take MAX_LOGS
                                (newEntry email success reason browser id now
                                 :: rest))))
                    w))
        | Thrown _ => (Returned (), w)
        end
    | Thrown _ => (Returned (), w)
    end.
Proof.
  intros Hr. destruct (getItem_returns w LOG_KEY) as [r' Hg].
  rewrite Hg in Hr. injection Hr as ->.
  unfold logLoginAttempt, try_catch. unfold mbind at 1. unfold M_bind at 1.
  rewrite Hg. unfold mbind at 1. unfold M_bind at 1. unfold lift at 1.
  destruct (parse_stored r) as [logs|e]; [|done].
  unfold mbind, M_bind, lift.
  destruct (iterate logs) as [rest|e]; [|done].
  match goal with
  | |- context [safeStorage.setItem ?k ?t w] =>
      by destruct (setItem_returns w k t) as [w1 ->]
  end.
Qed.

Lemma getLoginLogs_read w r :
  fst (safeStorage.getItem LOG_KEY w) = Returned r ->
  getLoginLogs w = (Returned (logs_of_stored r), w).
Proof.
  intros Hr. destruct (getItem_returns w LOG_KEY) as [r' Hg].
  rewrite Hg in Hr. injection Hr as ->.
  unfold getLoginLogs, try_catch, mbind, M_bind. rewrite Hg.
  destruct r as [s|]; [|done]. simpl.
  destruct s as [|c s]; [done|]. simpl. unfold lift.
  by destruct (JSON_parse (String c s)).
Qed.

Lemma parse_stored_data r v : parse_stored r = Returned v -> json_data v.
Proof.
  destruct r as [s|]; simpl.
  - destruct (negb (is_empty_string s)) eqn:Hs.
    + destruct s; [done|]. simpl. apply JSON_parse_data.
    + destruct s; [|done]. simpl. intros [= <-]. by apply json_data_array.
  - intros [= <-]. by apply json_data_array.
Qed.

Lemma parse_stored_logs r v :
  parse_stored r = Returned v -> logs_of_stored r = v.
Proof.
  destruct r as [[|c s]|]; simpl; try by intros [= <-].
  by intros ->.
Qed.

Lemma logLoginAttempt_prepends
    w r email success reason browser id now (logs : list value) :
  reads_own_writes w ->
  fst (safeStorage.getItem LOG_KEY w) = Returned r ->
  parse_stored r = Returned (VArr logs) ->
  fst (getLoginLogs
         (snd (logLoginAttempt email success reason browser id now w)))
  = Returned (VArr (take MAX_LOGS
                      (newEntry email success reason browser id now :: logs))).
Proof.
  intros Hrw Hr Hlogs.
  rewrite (logLoginAttempt_spec w r) by done. rewrite Hlogs. cbn [iterate snd].
  set (text := JSON_stringify _).
  pose proof (getItem_setItem w LOG_KEY text Hrw (JSON_stringify_nonempty _)
                ltac:(discriminate)) as Hget.
  rewrite (getLoginLogs_read _ (Some text)) by exact Hget. cbn [fst].
  unfold logs_of_stored.
  destruct (is_empty_string text) eqn:Hnonempty.
  { destruct text eqn:Htext; [|done].
    by destruct (JSON_stringify_nonempty _ Htext). }
  subst text. rewrite JSON_roundtrip by done. f_equal.
  apply json_data_array, Forall_take. constructor.
  - apply newEntry_data.
  - by apply json_data_elements, (parse_stored_data r).
Qed.

(** X22: a login attempt goes to the head of the login log.  In a store
    that reads its own writes and whose login log is an array (or is
    absent), [logLoginAttempt] leaves a log that holds the new entry, with
    the email, outcome and reason given, followed by the earlier entries,
    cut at [MAX_LOGS] = 200 entries. *)
Theorem login_attempt_prepended
    w r email success reason browser id now (logs : list value) :
  reads_own_writes w ->
  fst (safeStorage.getItem LOG_KEY w) = Returned r ->
  parse_stored r = Returned (VArr logs) ->
  let w' := snd (logLoginAttempt email success reason browser id now w) in
  let entry := newEntry email success reason browser id now in
  fst (getLoginLogs w') = Returned (VArr (take MAX_LOGS (entry :: logs)))
  /\ length (take MAX_LOGS (entry :: logs)) <= MAX_LOGS
  /\ js_get entry "email" = VStr email
  /\ js_get entry "success" = VBool success
  /\ js_get entry "reason" = VStr reason
  /\ js_get entry "timestamp" = VNum now.
Proof.
  intros Hrw Hr Hlogs. cbv zeta.
  split; [by apply (logLoginAttempt_prepends w r)|].
  split; [rewrite length_take; lia|done].
Qed.

(** X23: [logLoginAttempt] returns in every world, dispatches no event,
    issues no request and leaves every key but the login-log key as it
    was; in particular the system log and the stored configuration are
    not touched. *)
Theorem logLoginAttempt_frame w email success reason browser id now :
  let w' := snd (logLoginAttempt email success reason browser id now w) in
  fst (logLoginAttempt email success reason browser id now w) = Returned ()
  /\ dispatched w' = dispatched w
  /\ requests w' = requests w
  /\ forall k, k <> LOG_KEY ->
       fst (safeStorage.getItem k w') = fst (safeStorage.getItem k w).
Proof.
  cbv zeta. destruct (getItem_returns w LOG_KEY) as [r Hg].
  rewrite (logLoginAttempt_spec w r) by (by rewrite Hg).
  destruct (parse_stored r) as [logs|e]; [|done].
  destruct (iterate logs) as [rest|e]; [|done]. cbn [fst snd].
  match goal with
  | |- context [safeStorage.setItem ?k ?t w] =>
      pose proof (setItem_frame w k t) as (_ & _ & Hdisp & Hreq);
      pose proof (fun k' Hne => getItem_setItem_ne w k k' t Hne) as Hother
  end.
  split; [done|]. split; [done|]. split; [done|].
  intros k Hk. apply Hother. congruence.
Qed.

(** X24: a login log that [JSON.parse] rejects is never repaired by
    [logLoginAttempt]: [getLoginLogs] reads it as the empty array, yet
    every attempt leaves the world as it was, so the attempt is not
    recorded. *)
Theorem unparsable_login_log_drops_attempts
    w s e email success reason browser id now :
  fst (safeStorage.getItem LOG_KEY w) = Returned (Some s) ->
  s <> "" ->
  JSON_parse s = Thrown e ->
  logLoginAttempt email success reason browser id now w = (Returned (), w)
  /\ fst (getLoginLogs w) = Returned (VArr []).
Proof.
  intros Hs Hne Hp.
  rewrite (logLoginAttempt_spec w (Some s)) by done.
  rewrite (getLoginLogs_read w (Some s)) by done.
  unfold parse_stored, logs_of_stored.
  destruct s as [|c s]; [done|]. simpl. by rewrite Hp.
Qed.

(** X25: [clearLoginLogs] empties the login log in every world, and in a
    store that reads its own writes the next attempt is recorded as its
    only entry, whatever the log held before. *)
Theorem clearLoginLogs_then_attempt
    w email success reason browser id now :
  let w1 := snd (clearLoginLogs w) in
  fst (clearLoginLogs w) = Returned ()
  /\ fst (getLoginLogs w1) = Returned (VArr [])
  /\ (reads_own_writes w ->
      fst (getLoginLogs
             (snd (logLoginAttempt email success reason browser id now w1)))
      = Returned (VArr [newEntry email success reason browser id now])).
Proof.
  cbv zeta. unfold clearLoginLogs.
  pose proof (getItem_removeItem w LOG_KEY (or_intror eq_refl)) as Hnone.
  assert (reads_own_writes w ->
          reads_own_writes (snd (safeStorage.removeItem LOG_KEY w))) as Hrw.
  { unfold reads_own_writes, safeStorage.removeItem, try_catch,
      Storage.removeItem.
    destruct (ls_denied (localStorage w)) eqn:Hd; simpl; [by left|].
    intros [?|?]; [done|by right]. }
  destruct (removeItem_returns w LOG_KEY) as [w1 Hw1].
  rewrite Hw1 in *. cbn [fst snd] in *.
  split; [done|]. split.
  - by rewrite (getLoginLogs_read w1 None).
  - intros Hrw0.
    by rewrite (logLoginAttempt_prepends w1 None email success reason browser
                  id now [] (Hrw Hrw0) Hnone eq_refl).
Qed.

End authLog_facts.

Definition sample_browser : authLogService.Browser :=
  authLogService.mkBrowser "Mozilla/5.0" 1920 1080.

Definition garbled_login_log_world : World :=
  mkWorld (mkLocalStorage {[authLogService.LOG_KEY := "oops"]} false false)
          ∅ [] [].

Lemma login_attempt_prepended_witness :
  fst (@authLogService.getLoginLogs ref_host
         (snd (@authLogService.logLoginAttempt ref_host "a@schools.nyc.gov"
                 false "wrong_passcode" sample_browser "id1" 0 fresh_world)))
  = Returned (VArr [authLogService.newEntry "a@schools.nyc.gov" false
                      "wrong_passcode" sample_browser "id1" 0]).
Proof.
  exact (proj1 (@login_attempt_prepended ref_host fresh_world None
                  "a@schools.nyc.gov" false "wrong_passcode" sample_browser
                  "id1" 0 [] (or_intror eq_refl) eq_refl eq_refl)).
Defined.

Lemma unparsable_login_log_drops_attempts_witness :
  @authLogService.logLoginAttempt ref_host "a@schools.nyc.gov" true "success"
    sample_browser "id1" 0 garbled_login_log_world
  = (Returned (), garbled_login_log_world)
  /\ fst (@authLogService.getLoginLogs ref_host garbled_login_log_world)
     = Returned (VArr []).
Proof.
  eapply (@unparsable_login_log_drops_attempts ref_host
            garbled_login_log_world "oops").
  - by vm_compute.
  - discriminate.
  - vm_compute. reflexivity.
Defined.

(** ** The administrator's session: [src/context/SimpleAuthContext.tsx] *)

Module SimpleAuthContext.
Section with_host.
Context `{!Host}.

Definition SESSION_KEY : string := "admin_session".

(** [now < v], with [v] coerced to a number; a comparison with [NaN] is
    false. *)
Definition now_lt (now : Q) (v : value) : bool :=
  match ToNumber v with
  | Some t => Qltb now t
  | None => false
  end.

Definition newSession (email : string) (now : Q) : value :=
  VObj [("email", VStr email);
        ("method", VStr "passcode");
        ("createdAt", VNum now);
        ("expiresAt", VNum (now + 8 * 60 * 60 * 1000))].

(** The effect that [SimpleAuthProvider] runs when it is mounted; the
    result is the [session] state afterwards, which starts as [null].
    [now] is the reading of [Date.now()]. *)
Definition restore (now : Q) : M value :=
  stored ← safeStorage.getItem SESSION_KEY;
  match stored with
  | Some s =>
      if truthy (VStr s) then
        try_catch
          (parsed ← lift (JSON_parse s);
           expiresAt ← lift (prop parsed "expiresAt");
           if now_lt now expiresAt then mret parsed
           else _ ← safeStorage.removeItem SESSION_KEY; mret VNull)
          (fun e => _ ← safeStorage.removeItem SESSION_KEY; mret VNull)
      else mret VNull
  | None => mret VNull
  end.

(** [login(email)] and [logout()]; the result is the [session] state
    they set. *)
Definition login (email : string) (now : Q) : M value :=
  let session := newSession email now in
  _ ← safeStorage.setItem SESSION_KEY (JSON_stringify session);
  mret session.

Definition logout : M value :=
  _ ← safeStorage.removeItem SESSION_KEY;
  mret VNull.

(** [!!session && Date.now() < session.expiresAt]. *)
Definition isAuthenticated (session : value) (now : Q) : bool :=
  if truthy session then now_lt now (js_get session "expiresAt") else false.

End with_host.
End SimpleAuthContext.

(** ** The login form: [handleSubmit] of [src/pages/SimpleLogin.tsx] *)

Module SimpleLogin.

(** What a submission does to the form: nothing, an error message, or a
    session. *)
Inductive submit_result : Type :=
| Ignored
| Refused (error : string)
| LoggedIn (session : value).

Section with_host.
Context `{!Host}.

(** The engine's [String.prototype.toLowerCase] and
    [String.prototype.trim]. *)
Variables toLowerCase trim : string -> string.

Definition ADMIN_PASSCODE : string := "AmtEvent1$".

Definition endsWith (s suffix : string) : bool :=
  let n := String.length s in
  let m := String.length suffix in
  (m <=? n)%nat && String.eqb (String.substring (n - m) m s) suffix.

Definition isFormValid (email passcode : string) : bool :=
  (0 <? String.length (trim email))%nat
  && (0 <? String.length (trim passcode))%nat.

(** [handleSubmit], from the state of the two fields.  [now] is the
    reading of [Date.now()] inside [logLoginAttempt] and [now'] the later
    one inside [login]. *)
Definition handleSubmit (email passcode : string)
    (browser : authLogService.Browser) (random_id : string) (now now' : Q)
    : M submit_result :=
  if negb (isFormValid email passcode) then mret Ignored
  else
    let lowercaseEmail := trim (toLowerCase email) in
    if negb (endsWith lowercaseEmail "@schools.nyc.gov") then
      _ ← authLogService.logLoginAttempt lowercaseEmail false
            "invalid_email_domain" browser random_id now;
      mret (Refused
              "Unauthorized domain. Staff email required (@schools.nyc.gov).")
    else if negb (String.eqb passcode ADMIN_PASSCODE) then
      _ ← authLogService.logLoginAttempt lowercaseEmail false
            "wrong_passcode" browser random_id now;
      mret (Refused "Invalid security passcode. Access denied.")
    else
      _ ← authLogService.logLoginAttempt lowercaseEmail true
            "success" browser random_id now;
      session ← SimpleAuthContext.login lowercaseEmail now';
      mret (LoggedIn session).

End with_host.
End SimpleLogin.

Section session_facts.
Context `{!Host}.
Import SimpleAuthContext.
Implicit Types (w : World) (email : string).

Lemma now_lt_num (now t : Q) : now_lt now (VNum t) = true <-> (now < t)%Q.
Proof. unfold now_lt. rewrite ToNumber_num. apply Qltb_lt. Qed.

Lemma newSession_parsed email now :
  JSON_parse (JSON_stringify (newSession email now))
  = Returned (newSession email now).
Proof. by rewrite JSON_roundtrip. Qed.

Lemma newSession_expiresAt email now :
  prop (newSession email now) "expiresAt"
  = Returned (VNum (now + 8 * 60 * 60 * 1000)).
Proof. reflexivity. Qed.

(** What the mount effect makes of the text read under the session
    key. *)
Lemma restore_read w now r :
  fst (safeStorage.getItem SESSION_KEY w) = Returned r ->
  restore now w
  = match r with
    | Some s =>
        if is_empty_string s then (Returned VNull, w)
        else match JSON_parse s with
             | Returned parsed =>
                 match prop parsed "expiresAt" with
                 | Returned expiresAt =>
                     if now_lt now expiresAt then (Returned parsed, w)
                     else (Returned VNull,
                           snd (safeStorage.removeItem SESSION_KEY w))
                 | Thrown _ =>
                     (Returned VNull,
                      snd (safeStorage.removeItem SESSION_KEY w))
                 end
             | Thrown _ =>
                 (Returned VNull, snd (safeStorage.removeItem SESSION_KEY w))
             end
    | None => (Returned VNull, w)
    end.
Proof.
  intros Hr. destruct (getItem_returns w SESSION_KEY) as [r' Hg].
  rewrite Hg in Hr. injection Hr as ->.
  destruct (removeItem_returns w SESSION_KEY) as [w1 Hw1].
  unfold restore. unfold mbind at 1. unfold M_bind at 1. rewrite Hg.
  destruct r as [s|]; [|done]. destruct s as [|c s]; [done|].
  cbn [truthy is_empty_string negb]. unfold try_catch.
  unfold mbind at 1. unfold M_bind at 1. unfold lift at 1.
  destruct (JSON_parse (String c s)) as [parsed|e];
    [|unfold mbind, M_bind; by rewrite Hw1].
  unfold mbind at 1. unfold M_bind at 1. unfold lift at 1.
  destruct (prop parsed "expiresAt") as [expiresAt|e];
    [|unfold mbind, M_bind; by rewrite Hw1].
  destruct (now_lt now expiresAt); [done|].
  unfold mbind, M_bind. by rewrite Hw1.
Qed.

(** The world after [login] and a reload of the page, and what the session
    key holds there when [localStorage] works. *)
Lemma session_after_reload w email now :
  ls_denied (localStorage w) = false ->
  ls_full (localStorage w) = false ->
  fst (safeStorage.getItem SESSION_KEY
         (snd (AdminDashboard.reload (snd (login email now w)))))
  = Returned (Some (JSON_stringify (newSession email now))).
Proof.
  intros Hd Hf. unfold login, mbind, M_bind.
  rewrite setItem_granted by done. cbn [snd].
  unfold AdminDashboard.reload. cbn [snd].
  rewrite getItem_granted by done. simpl. by rewrite lookup_insert_eq.
Qed.

(** X26: a session survives a reload for eight hours.  While
    [localStorage] works, the effect run on mount after [login] and a
    reload of the page, less than eight hours later, restores the session
    that [login] made, for the email given, and changes nothing; the
    session counts as authenticated at that time. *)
Theorem session_survives_reload w email (t0 t1 : Q) :
  ls_denied (localStorage w) = false ->
  ls_full (localStorage w) = false ->
  (t1 < t0 + 8 * 60 * 60 * 1000)%Q ->
  let w1 := snd (AdminDashboard.reload (snd (login email t0 w))) in
  restore t1 w1 = (Returned (newSession email t0), w1)
  /\ isAuthenticated (newSession email t0) t1 = true
  /\ js_get (newSession email t0) "email" = VStr email.
Proof.
  intros Hd Hf Hlt. cbv zeta.
  assert (now_lt t1 (VNum (t0 + 8 * 60 * 60 * 1000)) = true) as Hnow
    by by apply now_lt_num.
  split; [|by split].
  rewrite (restore_read _ t1 _ (session_after_reload w email t0 Hd Hf)).
  rewrite (parsed_nonempty _ _ (newSession_parsed email t0)).
  rewrite newSession_parsed, newSession_expiresAt.
  by rewrite Hnow.
Qed.

(** X27: a session ends after eight hours.  While [localStorage] works,
    the effect run on mount eight hours or more after [login] restores no
    session and removes the stored one; the session that [login] made no
    longer counts as authenticated. *)
Theorem session_expires w email (t0 t1 : Q) :
  ls_denied (localStorage w) = false ->
  ls_full (localStorage w) = false ->
  (t0 + 8 * 60 * 60 * 1000 <= t1)%Q ->
  let w1 := snd (AdminDashboard.reload (snd (login email t0 w))) in
  fst (restore t1 w1) = Returned VNull
  /\ fst (safeStorage.getItem SESSION_KEY (snd (restore t1 w1)))
     = Returned None
  /\ isAuthenticated (newSession email t0) t1 = false.
Proof.
  intros Hd Hf Hle. cbv zeta.
  assert (now_lt t1 (VNum (t0 + 8 * 60 * 60 * 1000)) = false) as Hnow.
  { apply not_true_iff_false. rewrite now_lt_num. by apply Qle_not_lt. }
  rewrite (restore_read _ t1 _ (session_after_reload w email t0 Hd Hf)).
  rewrite (parsed_nonempty _ _ (newSession_parsed email t0)).
  rewrite newSession_parsed, newSession_expiresAt.
  rewrite Hnow. cbn [fst snd].
  split; [done|]. split; [|done].
  apply getItem_removeItem. by right.
Qed.

(** X28: what the mount effect restores is sound.  In every world it
    returns, and either it restores no session and leaves no session text
    under the key, or it restores the value that the stored text denotes,
    whose [expiresAt] lies after the current time, and changes
    nothing. *)
Theorem restore_sound w (now : Q) :
  exists session w',
    restore now w = (Returned session, w')
    /\ ((session = VNull
         /\ forall s, fst (safeStorage.getItem SESSION_KEY w')
                      = Returned (Some s) -> s = "")
        \/ (w' = w
            /\ session <> VNull
            /\ now_lt now (js_get session "expiresAt") = true
            /\ exists s, fst (safeStorage.getItem SESSION_KEY w)
                         = Returned (Some s)
                         /\ JSON_parse s = Returned session)).
Proof.
  destruct (getItem_returns w SESSION_KEY) as [r Hg].
  assert (fst (safeStorage.getItem SESSION_KEY w) = Returned r) as Hr
    by by rewrite Hg.
  rewrite (restore_read w now r Hr).
  pose proof (getItem_removeItem w SESSION_KEY (or_intror eq_refl))
    as Hnone.
  assert (forall s,
            fst (safeStorage.getItem SESSION_KEY
                   (snd (safeStorage.removeItem SESSION_KEY w)))
            = Returned (Some s) -> s = "") as Hremoved
    by (intros s; by rewrite Hnone).
  destruct r as [s|]; cycle 1.
  { eexists _, _. split; [done|]. left. split; [done|].
    intros s. by rewrite Hr. }
  destruct (is_empty_string s) eqn:Hs.
  { eexists _, _. split; [done|]. left. split; [done|].
    intros s'. rewrite Hr. intros [= <-]. by destruct s. }
  destruct (JSON_parse s) as [parsed|e] eqn:Hp;
    [|eexists _, _; split; [done|]; by left].
  destruct (prop parsed "expiresAt") as [expiresAt|e] eqn:Hprop;
    [|eexists _, _; split; [done|]; by left].
  destruct (now_lt now expiresAt) eqn:Hnow;
    [|eexists _, _; split; [done|]; by left].
  eexists _, _. split; [done|]. right. split; [done|].
  assert (parsed <> VNull /\ expiresAt = js_get parsed "expiresAt")
    as [Hnn ->]
    by (unfold prop in Hprop; destruct parsed; try discriminate;
        injection Hprop as <-; by split).
  split; [done|]. split; [done|]. by exists s.
Qed.

(** X29: [logout] ends the session in every world: the effect run on
    mount afterwards restores none.  And when access to [localStorage] is
    refused, a session does not survive a reload of the page, because
    [login] kept it in [memoryStorage] only. *)
Theorem session_ends_on_logout_and_blocked_reload w email (t0 t1 : Q) :
  fst (logout w) = Returned VNull
  /\ fst (restore t1 (snd (logout w))) = Returned VNull
  /\ (ls_denied (localStorage w) = true ->
      fst (restore t1 (snd (AdminDashboard.reload (snd (login email t0 w)))))
      = Returned VNull).
Proof.
  assert (logout w
          = (Returned VNull, snd (safeStorage.removeItem SESSION_KEY w)))
    as ->.
  { unfold logout, mbind, M_bind.
    by destruct (removeItem_returns w SESSION_KEY) as [w1 ->]. }
  cbn [fst snd]. split; [done|]. split.
  - pose proof (getItem_removeItem w SESSION_KEY (or_intror eq_refl))
      as Hnone.
    by rewrite (restore_read _ t1 None).
  - intros Hd.
    assert (snd (login email t0 w)
            = snd (safeStorage.setItem SESSION_KEY
                     (JSON_stringify (newSession email t0)) w)) as ->.
    { unfold login, mbind, M_bind.
      match goal with
      | |- context [safeStorage.setItem ?k ?t w] =>
          by destruct (setItem_returns w k t) as [w1 ->]
      end. }
    rewrite setItem_denied by done. cbn [snd].
    rewrite (restore_read _ t1 None); [done|].
    by rewrite getItem_denied.
Qed.

End session_facts.

Section login_facts.
Context `{!Host}.
Variables toLowerCase trim : string -> string.
Import authLogService SimpleAuthContext SimpleLogin.
Implicit Types (w : World) (email passcode : string) (browser : Browser).

Lemma logLoginAttempt_flags w email success reason browser id now :
  let w' := snd (logLoginAttempt email success reason browser id now w) in
  ls_denied (localStorage w') = ls_denied (localStorage w)
  /\ ls_full (localStorage w') = ls_full (localStorage w).
Proof.
  cbv zeta. destruct (getItem_returns w LOG_KEY) as [r Hg].
  rewrite (logLoginAttempt_spec w r) by (by rewrite Hg).
  destruct (parse_stored r) as [logs|e]; [|done].
  destruct (iterate logs) as [rest|e]; [|done]. cbn [snd].
  match goal with
  | |- context [safeStorage.setItem ?k ?t w] =>
      by pose proof (setItem_frame w k t) as (Hd & Hf & _)
  end.
Qed.

Lemma logLoginAttempt_session w email success reason browser id now :
  exists w',
    logLoginAttempt email success reason browser id now w = (Returned (), w')
    /\ (reads_own_writes w -> reads_own_writes w')
    /\ fst (safeStorage.getItem SESSION_KEY w')
       = fst (safeStorage.getItem SESSION_KEY w).
Proof.
  pose proof (logLoginAttempt_flags w email success reason browser id now)
    as [Hd Hf].
  assert (forall k, k <> LOG_KEY ->
            fst (safeStorage.getItem k
                   (snd (logLoginAttempt email success reason browser id
                           now w)))
            = fst (safeStorage.getItem k w)) as Hother.
  { cbv zeta. destruct (getItem_returns w LOG_KEY) as [r Hg].
    rewrite (logLoginAttempt_spec w r) by (by rewrite Hg).
    destruct (parse_stored r) as [logs|e]; [|done].
    destruct (iterate logs) as [rest|e]; [|done]. cbn [snd].
    intros k Hk. apply getItem_setItem_ne. congruence. }
  assert (fst (logLoginAttempt email success reason browser id now w)
          = Returned ()) as Hret.
  { destruct (getItem_returns w LOG_KEY) as [r Hg].
    rewrite (logLoginAttempt_spec w r) by (by rewrite Hg).
    destruct (parse_stored r) as [logs|e]; [|done].
    by destruct (iterate logs). }
  destruct (logLoginAttempt email success reason browser id now w)
    as [o w'] eqn:Hrun.
  cbn [fst snd] in *. subst o. exists w'. split; [done|]. split.
  - unfold reads_own_writes. by rewrite Hd, Hf.
  - by apply Hother.
Qed.

(** X30: only a staff address with the passcode opens a session.
    [handleSubmit] does nothing at all when a field is blank.  It returns a
    session, for the trimmed lower-case email and eight hours from the
    time of [login], exactly when the form is valid, that email ends with
    [@schools.nyc.gov] and the passcode as typed equals [ADMIN_PASSCODE];
    in a store that reads its own writes the session is then stored under
    the session key.  In every other case no session is returned and what
    the session key holds is not changed. *)
Theorem only_staff_with_passcode_log_in
    w email passcode browser id (now now' : Q) :
  let lowercaseEmail := trim (toLowerCase email) in
  let run := handleSubmit toLowerCase trim email passcode browser id
               now now' w in
  let accepted := isFormValid trim email passcode
                  && endsWith lowercaseEmail "@schools.nyc.gov"
                  && String.eqb passcode ADMIN_PASSCODE in
  (isFormValid trim email passcode = false -> run = (Returned Ignored, w))
  /\ (accepted = true ->
      fst run = Returned (LoggedIn (newSession lowercaseEmail now'))
      /\ (reads_own_writes w ->
          fst (safeStorage.getItem SESSION_KEY (snd run))
          = Returned (Some (JSON_stringify
                              (newSession lowercaseEmail now')))))
  /\ (accepted = false ->
      (forall session, fst run <> Returned (LoggedIn session))
      /\ fst (safeStorage.getItem SESSION_KEY (snd run))
         = fst (safeStorage.getItem SESSION_KEY w)).
Proof.
  cbv zeta. unfold handleSubmit.
  destruct (isFormValid trim email passcode); cbn [negb andb];
    [|split; [done|]; split; [done|]; by split].
  split; [done|].
  destruct (endsWith (trim (toLowerCase email)) "@schools.nyc.gov");
    cbn [negb andb].
  - destruct (String.eqb passcode ADMIN_PASSCODE); cbn [negb].
    + split; [|done]. intros _. unfold mbind at 1 3. unfold M_bind at 1 3.
      destruct (logLoginAttempt_session w (trim (toLowerCase email)) true
                  "success" browser id now) as (w1 & -> & Hrw & _).
      unfold login, mbind, M_bind.
      match goal with
      | |- context [safeStorage.setItem ?k ?t w1] =>
          pose proof (fun H => getItem_setItem w1 k t H
                                 (JSON_stringify_nonempty _)
                                 ltac:(discriminate)) as Hget;
          destruct (setItem_returns w1 k t) as [w2 Hw2]
      end.
      rewrite Hw2 in *. cbn [fst snd] in *. split; [done|].
      intros Hrw0. by apply Hget, Hrw.
    + split; [done|]. intros _. unfold mbind, M_bind.
      destruct (logLoginAttempt_session w (trim (toLowerCase email)) false
                  "wrong_passcode" browser id now) as (w1 & -> & _ & Hkey).
      by split.
  - split; [done|]. intros _. unfold mbind, M_bind.
    destruct (logLoginAttempt_session w (trim (toLowerCase email)) false
                "invalid_email_domain" browser id now) as (w1 & -> & _ & Hkey).
    by split.
Qed.

End login_facts.

(** A login at time 0 and a reload one hour, respectively nine hours,
    later. *)
Lemma session_survives_reload_witness :
  fst (@SimpleAuthContext.restore ref_host 3600000
         (snd (AdminDashboard.reload
                 (snd (@SimpleAuthContext.login ref_host "a@schools.nyc.gov" 0
                         fresh_world)))))
  = Returned (SimpleAuthContext.newSession "a@schools.nyc.gov" 0).
Proof.
  exact (f_equal fst
           (proj1 (@session_survives_reload ref_host fresh_world
                     "a@schools.nyc.gov" 0 3600000 eq_refl eq_refl eq_refl))).
Defined.

Lemma session_expires_witness :
  fst (@SimpleAuthContext.restore ref_host 32400000
         (snd (AdminDashboard.reload
                 (snd (@SimpleAuthContext.login ref_host "a@schools.nyc.gov" 0
                         fresh_world)))))
  = Returned VNull.
Proof.
  refine (proj1 (@session_expires ref_host fresh_world
                   "a@schools.nyc.gov" 0 32400000 eq_refl eq_refl _)).
  by vm_compute.
Defined.

(** A staff address with the passcode, on an engine whose [toLowerCase]
    and [trim] leave this input as it is. *)
Lemma only_staff_with_passcode_log_in_witness :
  fst (@SimpleLogin.handleSubmit ref_host (fun s => s) (fun s => s)
         "a@schools.nyc.gov" "AmtEvent1$" sample_browser "id1" 0 1 fresh_world)
  = Returned (SimpleLogin.LoggedIn
                (SimpleAuthContext.newSession "a@schools.nyc.gov" 1)).
Proof.
  exact (proj1 (proj1 (proj2 (@only_staff_with_passcode_log_in ref_host
                                (fun s => s) (fun s => s) fresh_world
                                "a@schools.nyc.gov" "AmtEvent1$"
                                sample_browser "id1" 0 1))
                  eq_refl)).
Defined.
